(** * CASA event-graphic template: a shallow embedding of [casa_template.py]

    The rendering core of [src/design/casa_template.py] and the format loop of
    [src/design/casa_graphics_generator.py], together with the properties of
    the design document that can be stated over them.

    Conventions of the embedding.
    - Python [int] is [Z]; [//] on ints is [Z.div] (floor), [int(x)] on a
      float is truncation toward zero.
    - Python floats are modelled by exact rationals ([Q]).  The only floats of
      the renderer are [width / base] and products [c * s] of such a quotient
      with an integer constant.
    - [str] is [string]; [str.split(sep)], [sep.join], [str.replace] are
      written out below.
    - Pillow's canvas is a log of the drawing calls made on it, in order.
    - The file system, the font loader, the image decoder and the text
      measurer are the fields of a [World]. *)

From Stdlib Require Import ZArith QArith Bool List String Ascii Lia.
Import ListNotations.
Local Open Scope string_scope.
Local Open Scope Z_scope.
Local Open Scope list_scope.

Set Implicit Arguments.

(** ** Python string operations *)

Module PyStr.

(** [sep.join(items)] *)
Definition join (sep : string) (items : list string) : string :=
  String.concat sep items.

(** [s.split(sep)] for a one-character separator: never returns the empty
    list, and keeps empty fields. *)
Fixpoint split (sep : ascii) (s : string) : list string :=
  match s with
  | EmptyString => [EmptyString]
  | String c rest =>
      if Ascii.eqb c sep then EmptyString :: split sep rest
      else match split sep rest with
           | field :: fields => String c field :: fields
           | [] => [String c EmptyString]
           end
  end.

(** [s.replace(old, new)] for a non-empty [old]: leftmost occurrences,
    not overlapping.  [skip] counts the characters of a matched occurrence
    that are still to be dropped. *)
Fixpoint replace_from (old new : string) (skip : nat) (s : string) : string :=
  match s with
  | EmptyString => EmptyString
  | String c rest =>
      match skip with
      | S k => replace_from old new k rest
      | O =>
          if prefix old s
          then String.append new (replace_from old new (String.length old - 1) rest)
          else String c (replace_from old new O rest)
      end
  end.

Definition replace (old new s : string) : string := replace_from old new O s.

(** [needle in s] *)
Fixpoint contains (needle s : string) : bool :=
  prefix needle s ||
  match s with
  | EmptyString => false
  | String _ rest => contains needle rest
  end.

Definition space : ascii := " "%char.
Definition newline : ascii := Ascii.ascii_of_nat 10.
Definition backslash : ascii := Ascii.ascii_of_nat 92.

(** The two-character sequence backslash, n. *)
Definition backslash_n : string := String backslash (String "n"%char EmptyString).
Definition newline_str : string := String newline EmptyString.

(** Python's [str.isspace] on ASCII: space, tab, LF, VT, FF, CR. *)
Definition is_space (c : ascii) : bool :=
  let n := Ascii.nat_of_ascii c in
  (Nat.eqb n 32 || (Nat.leb 9 n && Nat.leb n 13))%bool.

(** [s.split()] with no argument: maximal runs of non-whitespace. *)
Fixpoint words_from (cur : string) (s : string) : list string :=
  match s with
  | EmptyString => match cur with EmptyString => [] | _ => [cur] end
  | String c rest =>
      if is_space c
      then match cur with
           | EmptyString => words_from EmptyString rest
           | _ => cur :: words_from EmptyString rest
           end
      else words_from (String.append cur (String c EmptyString)) rest
  end.

Definition split_whitespace (s : string) : list string := words_from EmptyString s.

End PyStr.

(** ** Fonts and text measurement *)

Record Font := mkFont { font_path : string; font_size : Z }.

Definition BBox := (Z * Z * Z * Z)%type.

Section TextWrap.

(** [draw.textbbox((0, 0), text, font=font)] *)
Variable textbbox : Font -> string -> BBox.

Definition text_width (font : Font) (text : string) : Z :=
  let '(x0, _, x1, _) := textbbox font text in x1 - x0.

Definition nonempty {A} (l : list A) : bool :=
  match l with [] => false | _ => true end.

(** One iteration of the [for word in words] loop of [wrap_text]; the loop
    state is [(lines, current_line)]. *)
Definition wrap_step (font : Font) (max_width : Z)
           (st : list string * list string) (word : string)
  : list string * list string :=
  let '(lines, current_line) := st in
  let test_line := PyStr.join " " (current_line ++ [word]) in
  if text_width font test_line <=? max_width
  then (lines, current_line ++ [word])
  else ((if nonempty current_line
         then lines ++ [PyStr.join " " current_line] else lines),
        [word]).

Definition wrap_loop (font : Font) (max_width : Z) (words : list string)
           (st : list string * list string) : list string * list string :=
  fold_left (wrap_step font max_width) words st.

Definition wrap_finish (st : list string * list string) : list string :=
  let '(lines, current_line) := st in
  if nonempty current_line then lines ++ [PyStr.join " " current_line] else lines.

(** [wrap_text(text, font, max_width, draw)] *)
Definition wrap_text (text : string) (font : Font) (max_width : Z) : list string :=
  let words := PyStr.split PyStr.space text in
  wrap_finish (wrap_loop font max_width words ([], [])).

End TextWrap.

(** What the design document calls the whitespace-normalized text: the words
    of the text (maximal runs of non-whitespace) joined by single spaces.
    This definition follows the document's wording, not the code. *)
Definition spec_whitespace_normalized (text : string) : string :=
  PyStr.join " " (PyStr.split_whitespace text).

(** ** Canvas, world and the rendering monad *)

Definition Color := (Z * Z * Z)%type.
Definition Point := (Z * Z)%type.

(** An image held in memory: where it was decoded from, its pixel size and the
    factor its alpha channel has been multiplied by. *)
Record Picture := mkPicture {
  pic_source : string;
  pic_size : Z * Z;
  pic_alpha : Q
}.

(** One call on [ImageDraw.Draw(img)] or [img.paste]. *)
Inductive DrawOp :=
| Paste (src : Picture) (pos : Point)
| Line (p q : Point) (fill : Color) (width : Z)
| Rectangle (p q : Point) (outline : Color) (width : Z)
| Ellipse (p q : Point) (outline : Color) (width : Z)
| EllipseFilled (p q : Point) (fill : Color)
| Polygon (pts : list Point) (outline : Color) (width : Z)
| Text (pos : Point) (text : string) (font : Font) (fill : Color).

Record Canvas := mkCanvas {
  c_width : Z;
  c_height : Z;
  c_background : Color;
  c_ops : list DrawOp
}.

(** Exceptions of Pillow and of the operating system that the code can meet. *)
Inductive exn := ValueError | OSError.

Inductive Res (A : Type) :=
| Ok (a : A)
| Raise (e : exn).
Arguments Ok {A} a.
Arguments Raise {A} e.

(** Lines written to standard output. *)
Inductive Printed :=
| WarnIllustration (e : exn)
| WarnLogo (e : exn)
| Saved (path : string) (width height : Z)
| UnknownFormatWarning (format_name : string)
| Generating (format_name : string).

(** The environment a render runs in. *)
Record World := mkWorld {
  base_dir : string;                       (* BASE_DIR *)
  path_exists : string -> bool;            (* os.path.exists *)
  image_open : string -> option Picture;   (* Image.open(p).convert('RGBA') *)
  font_loadable : string -> bool;          (* FreeType can load the file *)
  textbbox : Font -> string -> BBox;       (* draw.textbbox((0, 0), text, font) *)
  can_save : string -> bool;               (* os.makedirs and img.save succeed *)
  failed_save : string -> list (string * Canvas) -> list (string * Canvas)
                                           (* the files after a save that failed *)
}.

(** [img] is the image object of the render in progress; [disk] the files
    written so far. *)
Record State := mkState {
  img : Canvas;
  stdout : list Printed;
  disk : list (string * Canvas)
}.

Definition M (A : Type) : Type := State -> Res A * State.

Definition ret {A} (a : A) : M A := fun st => (Ok a, st).

Definition bind {A B} (m : M A) (k : A -> M B) : M B :=
  fun st =>
    match m st with
    | (Ok a, st') => k a st'
    | (Raise e, st') => (Raise e, st')
    end.

Definition raise {A} (e : exn) : M A := fun st => (Raise e, st).

(** [try: body except Exception as e: handler(e)] *)
Definition try_except (body : M unit) (handler : exn -> M unit) : M unit :=
  fun st =>
    match body st with
    | (Ok a, st') => (Ok a, st')
    | (Raise e, st') => handler e st'
    end.

Notation "x <- m ;; k" := (bind m (fun x => k))
  (at level 61, m at next level, right associativity).
Notation "m ;;; k" := (bind m (fun _ => k))
  (at level 61, right associativity).

Definition emit (op : DrawOp) : M unit :=
  fun st =>
    let c := img st in
    (Ok tt, mkState (mkCanvas (c_width c) (c_height c) (c_background c) (c_ops c ++ [op]))
                    (stdout st) (disk st)).

Definition print (p : Printed) : M unit :=
  fun st => (Ok tt, mkState (img st) (stdout st ++ [p]) (disk st)).

Definition current_image : M Canvas := fun st => (Ok (img st), st).

(** Sequencing a list of actions, as a [for] loop does. *)
Fixpoint for_each {A} (items : list A) (body : A -> M unit) : M unit :=
  match items with
  | [] => ret tt
  | x :: rest => body x ;;; for_each rest body
  end.

(** ** Pillow *)

Module PIL.

(** [Image.new('RGB', (width, height), color)] on a host with memory for
    the canvas: sizes below zero are refused, zero is accepted. *)
Definition Image_new (width height : Z) (color : Color) : M unit :=
  fun st =>
    if (width <? 0) || (height <? 0) then (Raise ValueError, st)
    else (Ok tt, mkState (mkCanvas width height color []) (stdout st) (disk st)).

(** [Image.open(path).convert('RGBA')] *)
Definition Image_open (w : World) (path : string) : M Picture :=
  match image_open w path with
  | Some p => ret p
  | None => raise OSError
  end.

(** [image.resize((width, height), LANCZOS)]: both sides must be at least 1. *)
Definition resize (p : Picture) (size : Z * Z) : M Picture :=
  if (fst size <? 1) || (snd size <? 1) then raise ValueError
  else ret (mkPicture (pic_source p) size (pic_alpha p)).

(** The three lines [alpha = image.split()[3]],
    [alpha = alpha.point(lambda x: int(x * opacity))], [image.putalpha(alpha)]. *)
Definition scale_alpha (p : Picture) (opacity : Q) : Picture :=
  mkPicture (pic_source p) (pic_size p) (Qmult (pic_alpha p) opacity).

(** [img.paste(image, pos, image)] *)
Definition paste (p : Picture) (pos : Point) : M unit := emit (Paste p pos).

(** [ImageFont.truetype(path, size)].  [font_loadable w path] says that
    Pillow answers the request for [path] with a font: from that file or,
    when the file fails to load, from a file of the same name that it finds
    in the font directories of the system.  The font keeps the path it was
    asked for. *)
Definition truetype (w : World) (path : string) (size : Z) : M Font :=
  if size <=? 0 then raise ValueError
  else if font_loadable w path then ret (mkFont path size)
  else raise OSError.

(** [ImageFont.load_default()]: the font built into Pillow. *)
Definition load_default : Font := mkFont "<builtin>" 10.

End PIL.

(** ** Numbers *)

(** [int(x)] of a float: truncation toward zero. *)
Definition py_int (x : Q) : Z := Z.quot (Qnum x) (Zpos (Qden x)).

(** [a / b] on two ints. *)
Definition py_truediv (a b : Z) : Q := Qdiv (inject_Z a) (inject_Z b).

(** [int(c * s)] *)
Definition iscale (c : Z) (s : Q) : Z := py_int (Qmult (inject_Z c) s).

(** Whether a path ends with the separator. *)
Fixpoint ends_with_sep (s : string) : bool :=
  match s with
  | EmptyString => false
  | String c EmptyString => Ascii.eqb c "/"%char
  | String _ rest => ends_with_sep rest
  end.

(** [os.path.join(a, b)] on POSIX: an absolute [b] replaces [a]; otherwise
    [b] is appended to [a], after a separator unless [a] is empty or ends
    with one. *)
Definition path_join (a b : string) : string :=
  if prefix "/" b then b
  else if String.eqb a EmptyString || ends_with_sep a then String.append a b
  else String.append a (String.append "/" b).

(** Truth value of an optional string: [None] and the empty string are false. *)
Definition truthy (s : option string) : bool :=
  match s with
  | Some EmptyString => false
  | Some _ => true
  | None => false
  end.

(** The string held by an optional path ([None] never reaches a use: every
    use is guarded by [truthy]). *)
Definition path_of (s : option string) : string :=
  match s with Some p => p | None => EmptyString end.

(** ** Constants of [casa_template.py] *)

Definition FONTS_DIR (w : World) : string := path_join (base_dir w) "fonts".

(** [os.path.join(BASE_DIR, '..', 'public', 'lovable-uploads', name)]: the
    parts after [BASE_DIR] are relative, so joining them one by one gives
    the path that joining them at once gives. *)
Definition LOGO_PATH (w : World) : string :=
  path_join (base_dir w)
    "../public/lovable-uploads/47301834-0831-465c-ae5e-47a978038312.png".

Definition black : Color := (26, 26, 26).
Definition white : Color := (255, 255, 255).
Definition amber_canva : Color := (184, 146, 61).

Definition FORMATS : list (string * (Z * Z)) :=
  [ ("ppt_4_3", (1024, 768));
    ("instagram_post", (1080, 1080));
    ("instagram_story", (1080, 1920));
    ("facebook_post", (1200, 630)) ].

(** [d.get(key)] *)
Fixpoint dict_get {V} (d : list (string * V)) (key : string) : option V :=
  match d with
  | [] => None
  | (k, v) :: rest => if String.eqb k key then Some v else dict_get rest key
  end.

(** [key in d] *)
Definition dict_mem {V} (d : list (string * V)) (key : string) : bool :=
  match dict_get d key with Some _ => true | None => false end.

(** [d[key] = v] *)
Fixpoint dict_set {V} (d : list (string * V)) (key : string) (v : V) : list (string * V) :=
  match d with
  | [] => [(key, v)]
  | (k, v') :: rest =>
      if String.eqb k key then (k, v) :: rest else (k, v') :: dict_set rest key v
  end.

(** ** Fonts *)

Definition get_montserrat (w : World) (size : Z) (weight : string) : M Font :=
  let font_path :=
    if String.eqb weight "light"
    then path_join (FONTS_DIR w) "Montserrat-Light.ttf"
    else path_join (FONTS_DIR w) "Montserrat.ttf" in
  if path_exists w font_path then PIL.truetype w font_path size
  else PIL.truetype w "/System/Library/Fonts/Helvetica.ttc" size.

Definition get_merriweather (w : World) (size : Z) (italic : bool) : M Font :=
  let font_path :=
    if italic
    then path_join (FONTS_DIR w) "Merriweather-Italic.ttf"
    else path_join (FONTS_DIR w) "Merriweather-Regular.ttf" in
  if path_exists w font_path then PIL.truetype w font_path size
  else PIL.truetype w "/System/Library/Fonts/Supplemental/Georgia.ttf" size.

(** ** Icons *)

Definition draw_icon (icon_type : string) (x y size : Z) (color : Color) : M unit :=
  let line_width := Z.max 2 (size / 12) in
  if String.eqb icon_type "calendar" then
    emit (Rectangle (x, y + size / 5) (x + size, y + size) color line_width) ;;;
    emit (Line (x, y + size / 3) (x + size, y + size / 3) color line_width) ;;;
    emit (Line (x + size / 4, y) (x + size / 4, y + size / 4) color line_width) ;;;
    emit (Line (x + size * 3 / 4, y) (x + size * 3 / 4, y + size / 4) color line_width) ;;;
    for_each [1; 2] (fun i =>
      emit (Line (x + size / 8, y + size / 3 + i * size / 5)
                 (x + size - size / 8, y + size / 3 + i * size / 5) color 1)) ;;;
    for_each [1; 2; 3] (fun i =>
      emit (Line (x + i * size / 4, y + size / 3 + size / 10)
                 (x + i * size / 4, y + size - size / 10) color 1))
  else if String.eqb icon_type "clock" then
    emit (Ellipse (x, y) (x + size, y + size) color line_width) ;;;
    let center_x := x + size / 2 in
    let center_y := y + size / 2 in
    emit (Line (center_x, center_y) (center_x, y + size / 4) color line_width) ;;;
    emit (Line (center_x, center_y) (x + size * 3 / 4, center_y) color line_width)
  else if String.eqb icon_type "location" then
    let center_x := x + size / 2 in
    emit (Ellipse (x + size / 4, y) (x + size * 3 / 4, y + size / 2) color line_width) ;;;
    emit (EllipseFilled (center_x - size / 8, y + size / 6)
                        (center_x + size / 8, y + size / 6 + size / 4) color) ;;;
    emit (Polygon [(x + size / 4, y + size / 3); (x + size * 3 / 4, y + size / 3);
                   (center_x, y + size)] color line_width)
  else ret tt.

(** ** Layouts *)

(** The loop [for line in lines: draw.text((x, y), line, ...); y += step]
    shared by the title blocks and the wrapped location rows. *)
Fixpoint draw_text_lines (x y step : Z) (lines : list string) (font : Font) (fill : Color)
  : M unit :=
  match lines with
  | [] => ret tt
  | line :: rest =>
      emit (Text (x, y) line font fill) ;;;
      draw_text_lines x (y + step) step rest font fill
  end.

Definition create_ppt_layout (w : World) (title date time location : string)
           (illustration_path : option string) (width height scale : Z) : M unit :=
  let s := scale in
  let line_thickness := 4 * s in
  let illust_width := 470 in
  let illust_height := 513 in
  let illust_x := 530 in
  let illust_y := 140 in
  (if truthy illustration_path
      && path_exists w (path_of illustration_path)
   then
     try_except
       (illustration <- PIL.Image_open w
                          (path_of illustration_path) ;;
        illustration <- PIL.resize illustration (illust_width * s, illust_height * s) ;;
        let illustration := PIL.scale_alpha illustration (15 # 100) in
        PIL.paste illustration (illust_x * s, illust_y * s))
       (fun e => print (WarnIllustration e))
   else ret tt) ;;;
  emit (Line (77 * s, 83 * s) (425 * s, 83 * s) amber_canva line_thickness) ;;;
  emit (Line (599 * s, 83 * s) (947 * s, 83 * s) amber_canva line_thickness) ;;;
  emit (Line (75 * s, 690 * s) (947 * s, 690 * s) amber_canva line_thickness) ;;;
  let logo_size := 110 * s in
  let logo_x := 457 * s in
  let logo_y := 34 * s in
  try_except
    (logo <- PIL.Image_open w (LOGO_PATH w) ;;
     logo <- PIL.resize logo (logo_size, logo_size) ;;
     PIL.paste logo (logo_x, logo_y))
    (fun e => print (WarnLogo e)) ;;;
  title_font <- get_montserrat w (115 * s) "light" ;;
  let title := PyStr.replace PyStr.backslash_n PyStr.newline_str title in
  emit (Text (59 * s, 151 * s) title title_font black) ;;;
  draw_icon "calendar" (75 * s) (440 * s) (40 * s) amber_canva ;;;
  detail_font <- get_merriweather w (31 * s) true ;;
  emit (Text (129 * s, 444 * s) date detail_font amber_canva) ;;;
  draw_icon "clock" (77 * s) (499 * s) (39 * s) amber_canva ;;;
  emit (Text (129 * s, 500 * s) time detail_font amber_canva) ;;;
  draw_icon "location" (75 * s) (551 * s) (40 * s) amber_canva ;;;
  emit (Text (131 * s, 557 * s) location detail_font amber_canva).

Definition create_ig_story_layout (w : World) (title date time location : string)
           (illustration_path : option string) (width height : Z) : M unit :=
  let scale := py_truediv width 1080 in
  let s := scale in
  (if truthy illustration_path
      && path_exists w (path_of illustration_path)
   then
     try_except
       (illustration <- PIL.Image_open w
                          (path_of illustration_path) ;;
        let illust_width := iscale 954 s in
        let illust_height := iscale 1041 s in
        illustration <- PIL.resize illustration (illust_width, illust_height) ;;
        let illustration := PIL.scale_alpha illustration (15 # 100) in
        let illust_x := iscale 63 s in
        let illust_y := iscale 750 s in
        PIL.paste illustration (illust_x, illust_y))
       (fun e => print (WarnIllustration e))
   else ret tt) ;;;
  title_font <- get_montserrat w (iscale 175 s) "regular" ;;
  let title := PyStr.replace PyStr.backslash_n PyStr.newline_str title in
  let title_lines := PyStr.split PyStr.newline title in
  let title_y := iscale 286 s in
  let line_spacing := iscale 145 s in
  draw_text_lines (iscale 72 s) title_y line_spacing title_lines title_font black ;;;
  detail_font <- get_merriweather w (iscale 65 s) false ;;
  draw_icon "calendar" (iscale 72 s) (iscale 807 s) (iscale 69 s) amber_canva ;;;
  emit (Text (iscale 161 s, iscale 798 s) date detail_font amber_canva) ;;;
  draw_icon "clock" (iscale 72 s) (iscale 974 s) (iscale 69 s) amber_canva ;;;
  emit (Text (iscale 161 s, iscale 960 s) time detail_font amber_canva) ;;;
  draw_icon "location" (iscale 72 s) (iscale 1122 s) (iscale 69 s) amber_canva ;;;
  let text_x := iscale 161 s in
  let text_y := iscale 1122 s in
  let max_text_width := iscale 850 s in
  let location_lines := wrap_text (textbbox w) location detail_font max_text_width in
  let line_height := iscale 70 s in
  draw_text_lines text_x text_y line_height location_lines detail_font amber_canva.

Definition create_ig_post_layout (w : World) (title date time location : string)
           (illustration_path : option string) (width height : Z) : M unit :=
  let scale := py_truediv width 1080 in
  let s := scale in
  let line_thickness := iscale 4 s in
  (if truthy illustration_path
      && path_exists w (path_of illustration_path)
   then
     try_except
       (illustration <- PIL.Image_open w
                          (path_of illustration_path) ;;
        let illust_width := iscale 954 s in
        let illust_height := iscale 1041 s in
        illustration <- PIL.resize illustration (illust_width, illust_height) ;;
        let illustration := PIL.scale_alpha illustration (15 # 100) in
        let illust_x := iscale 240 s in
        let illust_y := iscale 0 s in
        PIL.paste illustration (illust_x, illust_y))
       (fun e => print (WarnIllustration e))
   else ret tt) ;;;
  emit (Line (iscale 42 s, iscale 109 s) (iscale 1038 s, iscale 109 s)
             amber_canva line_thickness) ;;;
  emit (Line (iscale 42 s, iscale 940 s) (iscale 461 s, iscale 940 s)
             amber_canva line_thickness) ;;;
  emit (Line (iscale 613 s, iscale 940 s) (iscale 1032 s, iscale 940 s)
             amber_canva line_thickness) ;;;
  let logo_size := iscale 87 s in
  try_except
    (logo <- PIL.Image_open w (LOGO_PATH w) ;;
     logo <- PIL.resize logo (logo_size, logo_size) ;;
     PIL.paste logo (iscale 497 s, iscale 901 s))
    (fun e => print (WarnLogo e)) ;;;
  title_font <- get_montserrat w (iscale 140 s) "regular" ;;
  let title := PyStr.replace PyStr.backslash_n PyStr.newline_str title in
  let title_lines := PyStr.split PyStr.newline title in
  let title_y := iscale 140 s in
  let line_spacing := iscale 115 s in
  draw_text_lines (iscale 42 s) title_y line_spacing title_lines title_font black ;;;
  detail_font <- get_merriweather w (iscale 47 s) false ;;
  draw_icon "calendar" (iscale 42 s) (iscale 486 s) (iscale 52 s) amber_canva ;;;
  emit (Text (iscale 109 s, iscale 480 s) date detail_font amber_canva) ;;;
  draw_icon "clock" (iscale 42 s) (iscale 613 s) (iscale 52 s) amber_canva ;;;
  emit (Text (iscale 109 s, iscale 603 s) time detail_font amber_canva) ;;;
  draw_icon "location" (iscale 42 s) (iscale 726 s) (iscale 52 s) amber_canva ;;;
  let text_x := iscale 109 s in
  let text_y := iscale 726 s in
  let max_text_width := iscale 500 s in
  let location_lines := wrap_text (textbbox w) location detail_font max_text_width in
  let line_height := iscale 50 s in
  draw_text_lines text_x text_y line_height location_lines detail_font amber_canva.

Definition create_fb_post_layout (w : World) (title date time location : string)
           (illustration_path : option string) (width height : Z) : M unit :=
  let scale := py_truediv width 1200 in
  let s := scale in
  let line_thickness := iscale 4 s in
  (if truthy illustration_path
      && path_exists w (path_of illustration_path)
   then
     try_except
       (illustration <- PIL.Image_open w
                          (path_of illustration_path) ;;
        let illust_width := iscale 545 s in
        let illust_height := iscale 595 s in
        illustration <- PIL.resize illustration (illust_width, illust_height) ;;
        let illustration := PIL.scale_alpha illustration (13 # 100) in
        let illust_x := iscale 50 s in
        let illust_y := iscale 20 s in
        PIL.paste illustration (illust_x, illust_y))
       (fun e => print (WarnIllustration e))
   else ret tt) ;;;
  emit (Line (iscale 63 s, iscale 63 s) (iscale 1137 s, iscale 63 s)
             amber_canva line_thickness) ;;;
  emit (Line (iscale 63 s, iscale 560 s) (iscale 1025 s, iscale 560 s)
             amber_canva line_thickness) ;;;
  let logo_size := iscale 93 s in
  try_except
    (logo <- PIL.Image_open w (LOGO_PATH w) ;;
     logo <- PIL.resize logo (logo_size, logo_size) ;;
     PIL.paste logo (iscale 1044 s, iscale 512 s))
    (fun e => print (WarnLogo e)) ;;;
  title_font <- get_montserrat w (iscale 130 s) "regular" ;;
  let title := PyStr.replace PyStr.backslash_n PyStr.newline_str title in
  let title_lines := PyStr.split PyStr.newline title in
  let title_y := iscale 138 s in
  let line_spacing := iscale 125 s in
  draw_text_lines (iscale 63 s) title_y line_spacing title_lines title_font black ;;;
  detail_font <- get_merriweather w (iscale 34 s) false ;;
  let icon_size := iscale 36 s in
  draw_icon "calendar" (iscale 645 s) (iscale 174 s) icon_size amber_canva ;;;
  emit (Text (iscale 691 s, iscale 170 s) date detail_font amber_canva) ;;;
  draw_icon "clock" (iscale 645 s) (iscale 262 s) icon_size amber_canva ;;;
  emit (Text (iscale 691 s, iscale 255 s) time detail_font amber_canva) ;;;
  draw_icon "location" (iscale 645 s) (iscale 339 s) icon_size amber_canva ;;;
  let text_x := iscale 691 s in
  let text_y := iscale 339 s in
  let max_text_width := iscale 430 s in
  let location_lines := wrap_text (textbbox w) location detail_font max_text_width in
  let line_height := iscale 38 s in
  draw_text_lines text_x text_y line_height location_lines detail_font amber_canva.

(** ** The render entry point *)

(** [os.path.dirname(path)] is the empty string exactly when [path] holds
    no separator. *)
Definition has_dirname (path : string) : bool := PyStr.contains "/" path.

(** [os.makedirs(os.path.dirname(output_path), exist_ok=True)] followed by
    [img.save(output_path, 'PNG', quality=95)].  [os.makedirs('')] raises
    [FileNotFoundError], an [OSError], so a path with no directory part
    never reaches the save.  Otherwise the two calls succeed together, or
    one of them fails with an [OSError]; what the failed attempt leaves on
    disk (the target may have been truncated or removed) is the host's to
    say. *)
Definition save_png (w : World) (output_path : string) : M unit :=
  fun st =>
    if negb (has_dirname output_path) then (Raise OSError, st)
    else if can_save w output_path
    then (Ok tt, mkState (img st) (stdout st) (disk st ++ [(output_path, img st)]))
    else (Raise OSError,
          mkState (img st) (stdout st) (failed_save w output_path (disk st))).

Definition create_event_graphic (w : World) (title date time location : string)
           (illustration_path : option string) (format_name : string)
           (output_path : option string) (scale : Z) : M Canvas :=
  let '(base_width, base_height) :=
    match dict_get FORMATS format_name with
    | Some dims => dims
    | None => (1024, 768)   (* FORMATS['ppt_4_3'] *)
    end in
  let width := base_width * scale in
  let height := base_height * scale in
  PIL.Image_new width height white ;;;
  (if String.eqb format_name "instagram_story" then
     create_ig_story_layout w title date time location illustration_path width height
   else if String.eqb format_name "instagram_post" then
     create_ig_post_layout w title date time location illustration_path width height
   else if String.eqb format_name "facebook_post" then
     create_fb_post_layout w title date time location illustration_path width height
   else
     create_ppt_layout w title date time location illustration_path width height scale) ;;;
  (if truthy output_path then
     save_png w (path_of output_path) ;;;
     print (Saved (path_of output_path) width height)
   else ret tt) ;;;
  current_image.

(** ** The format loop of [casa_graphics_generator.py] *)

Definition OUTPUT_DIR (w : World) : string := path_join (base_dir w) "output".

(** [os.path.join(OUTPUT_DIR, f'{output_prefix}_{format_name}.png')] *)
Definition output_file (w : World) (output_prefix format_name : string) : string :=
  path_join (OUTPUT_DIR w)
    (String.append output_prefix (String.append "_" (String.append format_name ".png"))).

(** The loop [for format_name in formats] of [generate_complete_graphic]
    (lines 97 to 124).  [illustration_path] is the value the lines before the
    loop settled on; they call the external illustration service and are not
    part of the rendering core. *)
Fixpoint generate_complete_graphic (w : World) (title date time location : string)
         (illustration_path : option string) (output_prefix : string)
         (formats : list string) (results : list (string * string))
  : M (list (string * string)) :=
  match formats with
  | [] => ret results
  | format_name :: rest =>
      if negb (dict_mem FORMATS format_name) then
        print (UnknownFormatWarning format_name) ;;;
        generate_complete_graphic w title date time location illustration_path
                                  output_prefix rest results
      else
        let output_path := output_file w output_prefix format_name in
        print (Generating format_name) ;;;
        _ <- create_event_graphic w title date time location illustration_path
                                  format_name (Some output_path) 2 ;;
        generate_complete_graphic w title date time location illustration_path
                                  output_prefix rest
                                  (dict_set results format_name output_path)
  end.

(** ** The font helper of [generate_mockups.py] *)

Module Mockups.

Definition font_paths (name : string) : list string :=
  if String.eqb name "serif" then
    [ "/System/Library/Fonts/Supplemental/Georgia.ttf";
      "/System/Library/Fonts/NewYork.ttf";
      "/System/Library/Fonts/Times New Roman.ttf" ]
  else if String.eqb name "light" then
    [ "/System/Library/Fonts/Supplemental/Georgia.ttf" ]
  else
    [ "/System/Library/Fonts/Supplemental/Arial.ttf";
      "/System/Library/Fonts/Supplemental/Helvetica.ttc" ].

(** The loop [for path in ...: if exists: try: return truetype except: continue]
    followed by [return ImageFont.load_default()]. *)
Fixpoint first_font (w : World) (paths : list string) (size : Z) : M Font :=
  match paths with
  | [] => ret PIL.load_default
  | path :: rest =>
      if path_exists w path then
        fun st =>
          match PIL.truetype w path size st with
          | (Ok f, st') => (Ok f, st')
          | (Raise _, st') => first_font w rest size st'
          end
      else first_font w rest size
  end.

(** [get_font(name, size)] with an int [size] *)
Definition get_font (w : World) (name : string) (size : Z) : M Font :=
  let size := Z.max 10 size in
  first_font w (font_paths name) size.

End Mockups.

(** ** Running a render from a clean state *)

Definition blank : Canvas := mkCanvas 0 0 white [].
Definition initial : State := mkState blank [] [].

(** A world with every asset in place; text is measured as
    [font size * number of characters / 2]. *)
Definition studio : World :=
  mkWorld "/casa/design"
          (fun _ => true)
          (fun p => Some (mkPicture p (800, 600) 1%Q))
          (fun _ => true)
          (fun f t => (0, 0, font_size f * Z.of_nat (String.length t) / 2, font_size f))
          (fun _ => true)
          (fun _ files => files).

(** A host with no asset at all: no font file, no logo, no illustration. *)
Definition bare_host : World :=
  mkWorld "/casa/design"
          (fun _ => false)
          (fun _ => None)
          (fun _ => false)
          (fun f t => (0, 0, font_size f * Z.of_nat (String.length t) / 2, font_size f))
          (fun _ => true)
          (fun _ files => files).

(** ** The statements of the design document, as predicates on the code *)

Definition has_backslash_n (s : string) : bool := PyStr.contains PyStr.backslash_n s.

(** A line is within the budget, or it is one word of the text, whole, that
    alone is wider than the budget. *)
Definition line_fits_or_is_wide_word (tb : Font -> string -> BBox) (text : string)
           (font : Font) (max_width : Z) (line : string) : Prop :=
  text_width tb font line <= max_width
  \/ (In line (PyStr.split PyStr.space text) /\ max_width < text_width tb font line).

(** The document's sentence on the number of lines. *)
Definition spec_line_count (tb : Font -> string -> BBox) (font : Font) (max_width : Z) : Prop :=
  (forall text, text <> EmptyString -> (1 <= List.length (wrap_text tb text font max_width))%nat)
  /\ wrap_text tb EmptyString font max_width = [].

(** The document's sentence on joining the lines back. *)
Definition spec_join_normalizes (tb : Font -> string -> BBox) (text : string)
           (font : Font) (max_width : Z) : Prop :=
  PyStr.join " " (wrap_text tb text font max_width) = spec_whitespace_normalized text.

(** Measuring a text by its number of characters times the font size. *)
Definition char_count_bbox (f : Font) (t : string) : BBox :=
  (0, 0, font_size f * Z.of_nat (String.length t), font_size f).

(** The text a loop state of [wrap_text] stands for: the lines closed so far
    and the line under construction, joined by single spaces. *)
Definition read_back (st : list string * list string) : string :=
  PyStr.join " " (wrap_finish st).

(** Loop invariant of [wrap_text]: the closed lines are good, and so is the
    line under construction once it holds a word. *)
Definition wrap_invariant (tb : Font -> string -> BBox) (font : Font) (max_width : Z)
           (text : string) (st : list string * list string) : Prop :=
  Forall (line_fits_or_is_wide_word tb text font max_width) (fst st)
  /\ (snd st = [] \/ line_fits_or_is_wide_word tb text font max_width
                       (PyStr.join " " (snd st))).

(** *** Renders and what they leave behind *)

(** The document's sentence on an icon type outside the fixed set: the call
    ends in an error. *)
Definition spec_invalid_icon_is_fatal (icon_type : string) (x y size : Z) (color : Color)
           (st : State) : Prop :=
  exists e, fst (draw_icon icon_type x y size color st) = Raise e.

(** The document's sentence on a format identifier outside the registry: the
    call ends in an error, having written no file. *)
Definition spec_unknown_format_fails (w : World) (title date time location : string)
           (illustration_path : option string) (format_name : string)
           (output_path : option string) (scale : Z) (st : State) : Prop :=
  let r := create_event_graphic w title date time location illustration_path
                                format_name output_path scale st in
  (exists e, fst r = Raise e) /\ disk (snd r) = disk st.

(** The document's sentence on a scale that is zero or negative: the call
    ends in an error, no drawing call having been made and no file written. *)
Definition spec_invalid_scale_rejected (w : World) (title date time location : string)
           (illustration_path : option string) (format_name : string)
           (output_path : option string) (scale : Z) (st : State) : Prop :=
  let r := create_event_graphic w title date time location illustration_path
                                format_name output_path scale st in
  (exists e, fst r = Raise e) /\ c_ops (img (snd r)) = [] /\ disk (snd r) = disk st.

(** What is on the canvas when a render at scale zero ends: the divider
    lines of the layout, each a stroke of width 0 from the origin to the
    origin.  The slide and the post have three, the Facebook post two, the
    story none. *)
Definition zero_scale_strokes (format_name : string) : list DrawOp :=
  repeat (Line (0, 0) (0, 0) amber_canva 0)
         (if String.eqb format_name "instagram_story" then 0
          else if String.eqb format_name "facebook_post" then 2
          else 3)%nat.

(** Why an image cannot be placed at scale zero: its file does not open,
    or it opens and the resize to 0 by 0 is refused. *)
Definition zero_scale_error (w : World) (path : string) : exn :=
  match image_open w path with
  | Some _ => ValueError
  | None => OSError
  end.

(** What a render at scale zero prints: a warning for the illustration
    when its file exists, then a warning for the logo in the layouts that
    have one. *)
Definition zero_scale_warnings (w : World) (illustration_path : option string)
           (format_name : string) : list Printed :=
  (if truthy illustration_path && path_exists w (path_of illustration_path)
   then [WarnIllustration (zero_scale_error w (path_of illustration_path))]
   else [])
  ++ (if String.eqb format_name "instagram_story" then []
      else [WarnLogo (zero_scale_error w (LOGO_PATH w))]).

(** The document's sentence on the font provider: every request is answered
    with a font of the requested pixel size. *)
Definition spec_font_never_fails (w : World) (size : Z) : Prop :=
  (forall weight st, exists f,
      fst (get_montserrat w size weight st) = Ok f /\ font_size f = size)
  /\ (forall italic st, exists f,
      fst (get_merriweather w size italic st) = Ok f /\ font_size f = size).

(** The texts drawn in the title colour, cut at line breaks: the title lines
    a reader of the graphic sees. *)
Definition color_eqb (a b : Color) : bool :=
  let '(r1, g1, b1) := a in
  let '(r2, g2, b2) := b in
  (r1 =? r2) && (g1 =? g2) && (b1 =? b2).

Definition title_lines_of (op : DrawOp) : list string :=
  match op with
  | Text _ text _ fill =>
      if color_eqb fill black then PyStr.split PyStr.newline text else []
  | _ => []
  end.

Definition title_lines_drawn (ops : list DrawOp) : list string :=
  flat_map title_lines_of ops.

(** *** Relating two runs *)

Definition StRel := State -> State -> Prop.

(** Two results agree: both values, related, or both the same exception. *)
Definition res_rel {A B} (RA : A -> B -> Prop) (r1 : Res A) (r2 : Res B) : Prop :=
  match r1, r2 with
  | Ok a, Ok b => RA a b
  | Raise e1, Raise e2 => e1 = e2
  | _, _ => False
  end.

(** [related P m1 m2 RA Q]: started in states related by [P], the two
    computations end with results that agree up to [RA], in states related
    by [Q]. *)
Definition related {A B} (P : StRel) (m1 : M A) (m2 : M B) (RA : A -> B -> Prop)
           (Q : StRel) : Prop :=
  forall st1 st2, P st1 st2 ->
    res_rel RA (fst (m1 st1)) (fst (m2 st2)) /\ Q (snd (m1 st1)) (snd (m2 st2)).

(** Two states hold the same image and the same files; what was printed may
    differ. *)
Definition same_output : StRel :=
  fun st1 st2 => img st1 = img st2 /\ disk st1 = disk st2.

(** A computation that never looks at what was printed. *)
Definition oblivious {A} (m : M A) : Prop := related same_output m m eq same_output.

(** A computation that returns normally and leaves image and files alone. *)
Definition skipped (m : M unit) : Prop :=
  forall st, fst (m st) = Ok tt /\ same_output (snd (m st)) st.

(** The first step of every layout: the illustration layer. *)
Definition illustration_step (w : World) (illustration_path : option string)
           (body : M unit) : M unit :=
  if truthy illustration_path && path_exists w (path_of illustration_path)
  then try_except body (fun e => print (WarnIllustration e))
  else ret tt.

(** A host with fonts and logo in place and no illustration file at all. *)
Definition no_illustration_host : World :=
  mkWorld "/casa/design"
          (fun p => prefix "/casa/design/fonts/" p)
          (fun p => if prefix "/casa/design/../public/" p
                    then Some (mkPicture p (512, 512) 1%Q) else None)
          (fun p => prefix "/casa/design/fonts/" p)
          (fun f t => (0, 0, font_size f * Z.of_nat (String.length t) / 2, font_size f))
          (fun _ => true)
          (fun _ files => files).

(** *** Title lines *)

Definition starts_with (c : ascii) (s : string) : bool :=
  match s with
  | String d _ => Ascii.eqb d c
  | EmptyString => false
  end.

Definition tail (s : string) : string :=
  match s with
  | String _ rest => rest
  | EmptyString => EmptyString
  end.

Definition has_newline (s : string) : bool := PyStr.contains PyStr.newline_str s.

(** What the layouts do to the title before drawing it. *)
Definition unescape (title : string) : string :=
  PyStr.replace PyStr.backslash_n PyStr.newline_str title.

Definition drawn_title (st : State) : list string :=
  title_lines_drawn (c_ops (img st)).

(** A computation that draws no title line, however it ends. *)
Definition keeps_title {A} (m : M A) : Prop :=
  forall st, drawn_title (snd (m st)) = drawn_title st.

(** A computation that, when it returns normally, has drawn exactly [lines]
    as title lines. *)
Definition adds_title {A} (m : M A) (lines : list string) : Prop :=
  forall st,
    match fst (m st) with
    | Ok _ => drawn_title (snd (m st)) = drawn_title st ++ lines
    | Raise _ => True
    end.

(** *** Scale linearity *)

(** [v2 = v1 * s2 / s1], written without division. *)
Definition exact (s1 s2 v1 v2 : Z) : Prop := s1 * v2 = s2 * v1.

(** [|v2 - v1 * s2 / s1| < k * max(1, s2 / s1)], written without division. *)
Definition near (k s1 s2 v1 v2 : Z) : Prop :=
  Z.abs (s1 * v2 - s2 * v1) < k * Z.max s1 s2.

(** [|v2 - v1 * s2 / s1| <= 1], the tolerance of the design document. *)
Definition within_one_pixel (s1 s2 v1 v2 : Z) : Prop :=
  Z.abs (s1 * v2 - s2 * v1) <= s1.

Definition pt (R : Z -> Z -> Prop) (p q : Point) : Prop :=
  R (fst p) (fst q) /\ R (snd p) (snd q).

(** A stroke width is that of a hairline in both renders, or it is a scaled
    width in both. *)
Definition stroke_scaled (s1 s2 w1 w2 : Z) : Prop :=
  (w1 = 1 /\ w2 = 1) \/ (1 < w1 /\ 1 < w2 /\ near 1 s1 s2 w1 w2).

Definition font_scaled (s1 s2 : Z) (f1 f2 : Font) : Prop :=
  font_path f1 = font_path f2 /\ exact s1 s2 (font_size f1) (font_size f2).

Definition pic_scaled (s1 s2 : Z) (p1 p2 : Picture) : Prop :=
  pic_source p1 = pic_source p2 /\ pic_alpha p1 = pic_alpha p2
  /\ pt (exact s1 s2) (pic_size p1) (pic_size p2).

(** The same drawing call at two scales. *)
Definition op_scaled (s1 s2 : Z) (o1 o2 : DrawOp) : Prop :=
  match o1, o2 with
  | Paste p1 pos1, Paste p2 pos2 =>
      pic_scaled s1 s2 p1 p2 /\ pt (exact s1 s2) pos1 pos2
  | Line a1 b1 c1 w1, Line a2 b2 c2 w2
  | Rectangle a1 b1 c1 w1, Rectangle a2 b2 c2 w2
  | Ellipse a1 b1 c1 w1, Ellipse a2 b2 c2 w2 =>
      pt (near 2 s1 s2) a1 a2 /\ pt (near 2 s1 s2) b1 b2 /\ c1 = c2
      /\ stroke_scaled s1 s2 w1 w2
  | EllipseFilled a1 b1 c1, EllipseFilled a2 b2 c2 =>
      pt (near 2 s1 s2) a1 a2 /\ pt (near 2 s1 s2) b1 b2 /\ c1 = c2
  | Polygon pts1 c1 w1, Polygon pts2 c2 w2 =>
      Forall2 (pt (near 2 s1 s2)) pts1 pts2 /\ c1 = c2 /\ stroke_scaled s1 s2 w1 w2
  | Text pos1 _ f1 c1, Text pos2 _ f2 c2 =>
      pt (exact s1 s2) pos1 pos2 /\ font_scaled s1 s2 f1 f2 /\ c1 = c2
  | _, _ => False
  end.

(** Elements matched by drawing order, as far as both renders go. *)
Definition matched (R : DrawOp -> DrawOp -> Prop) (ops1 ops2 : list DrawOp) : Prop :=
  forall i o1 o2, nth_error ops1 i = Some o1 -> nth_error ops2 i = Some o2 -> R o1 o2.

(** Every number of a drawing call: stroke width, coordinates, sizes, font
    size. *)
Definition op_numbers (op : DrawOp) : list Z :=
  match op with
  | Paste p (x, y) => [fst (pic_size p); snd (pic_size p); x; y]
  | Line (x1, y1) (x2, y2) _ w
  | Rectangle (x1, y1) (x2, y2) _ w
  | Ellipse (x1, y1) (x2, y2) _ w => [w; x1; y1; x2; y2]
  | EllipseFilled (x1, y1) (x2, y2) _ => [x1; y1; x2; y2]
  | Polygon pts _ w => w :: flat_map (fun p => [fst p; snd p]) pts
  | Text (x, y) _ f _ => [font_size f; x; y]
  end.

(** The document's sentence on scale linearity, for two renders. *)
Definition spec_scale_linear (s1 s2 : Z) (ops1 ops2 : list DrawOp) : Prop :=
  matched (fun o1 o2 => Forall2 (within_one_pixel s1 s2) (op_numbers o1) (op_numbers o2))
          ops1 ops2.

(** State relations of the scaling argument. *)
Definition scaled_st (s1 s2 : Z) : StRel :=
  fun st1 st2 =>
    exact s1 s2 (c_width (img st1)) (c_width (img st2))
    /\ exact s1 s2 (c_height (img st1)) (c_height (img st2))
    /\ Forall2 (op_scaled s1 s2) (c_ops (img st1)) (c_ops (img st2)).

Definition scaled_prefix (s1 s2 : Z) : StRel :=
  fun st1 st2 =>
    exact s1 s2 (c_width (img st1)) (c_width (img st2))
    /\ exact s1 s2 (c_height (img st1)) (c_height (img st2))
    /\ matched (op_scaled s1 s2) (c_ops (img st1)) (c_ops (img st2)).

Definition any {A B} : A -> B -> Prop := fun _ _ => True.

(** ** Further statements about the code *)

(** *** The text wrapper *)

(** A measure that never shrinks when a word is put before or after a text:
    true of any font whose glyphs have non-negative advance. *)
Definition monotone_width (tb : Font -> string -> BBox) (font : Font) : Prop :=
  forall a b,
    text_width tb font a <= text_width tb font (String.append a (String.append " " b))
    /\ text_width tb font b <= text_width tb font (String.append a (String.append " " b)).

(** The first word of a line. *)
Definition first_word (line : string) : string :=
  hd EmptyString (PyStr.split PyStr.space line).

(** Two lines that follow one another in a list. *)
Definition consecutive {A} (l : list A) (a b : A) : Prop :=
  exists i, nth_error l i = Some a /\ nth_error l (S i) = Some b.

(** Loop invariant for the wide words: each wide word seen so far is a
    closed line, or is alone on the line under construction. *)
Definition wide_words_alone (tb : Font -> string -> BBox) (font : Font) (max_width : Z)
           (seen : list string) (st : list string * list string) : Prop :=
  forall word, In word seen -> max_width < text_width tb font word ->
               In word (fst st) \/ snd st = [word].

(** Loop invariant for the greedy breaks: closed lines were closed because
    the next word did not fit, the words under construction hold no space,
    and nothing is closed before the first word. *)
Definition greedy_breaks (tb : Font -> string -> BBox) (font : Font) (max_width : Z)
           (st : list string * list string) : Prop :=
  (forall a b, consecutive (fst st) a b ->
               max_width < text_width tb font
                             (String.append a (String.append " " (first_word b))))
  /\ (forall a word rest, last (fst st) EmptyString = a -> fst st <> [] ->
                          snd st = word :: rest ->
                          max_width < text_width tb font
                                        (String.append a (String.append " " word)))
  /\ Forall (fun word => PyStr.split PyStr.space word = [word]) (snd st)
  /\ (snd st = [] -> fst st = []).

(** *** What a computation leaves alone *)

(** The points a drawing call is given. *)
Definition op_points (op : DrawOp) : list Point :=
  match op with
  | Paste _ pos => [pos]
  | Line p q _ _ | Rectangle p q _ _ | Ellipse p q _ _ | EllipseFilled p q _ => [p; q]
  | Polygon pts _ _ => pts
  | Text pos _ _ _ => [pos]
  end.

(** The point lies in the rectangle with corner [(x, y)] and sides
    [width], [height], borders included. *)
Definition in_box (x y width height : Z) (p : Point) : Prop :=
  x <= fst p <= x + width /\ y <= snd p <= y + height.

(** However it ends, the computation keeps the size and background of the
    image and the files on disk, and only adds drawing calls, each of which
    satisfies [good]. *)
Definition frames (good : DrawOp -> Prop) {A} (m : M A) : Prop :=
  forall st,
    c_width (img (snd (m st))) = c_width (img st)
    /\ c_height (img (snd (m st))) = c_height (img st)
    /\ c_background (img (snd (m st))) = c_background (img st)
    /\ disk (snd (m st)) = disk st
    /\ exists extra,
        c_ops (img (snd (m st))) = c_ops (img st) ++ extra /\ Forall good extra.

(** [FORMATS.get(format_name, FORMATS['ppt_4_3'])] *)
Definition base_size (format_name : string) : Z * Z :=
  match dict_get FORMATS format_name with
  | Some dims => dims
  | None => (1024, 768)
  end.

(** Lines stacked from [(x, y)] downwards, [step] apart. *)
Definition stacked (x y step : Z) (lines : list string) (font : Font) (fill : Color)
  : list DrawOp :=
  map (fun '(i, line) => Text (x, y + Z.of_nat i * step) line font fill)
      (combine (seq 0 (List.length lines)) lines).

(** A drawing call is a text or a paste, or all its points lie on the
    canvas of the given size. *)
Definition stroke_on_canvas (width height : Z) (op : DrawOp) : Prop :=
  match op with
  | Text _ _ _ _ | Paste _ _ => True
  | _ => Forall (in_box 0 0 width height) (op_points op)
  end.

(** The layout chosen by the [if ... elif ... else] of [create_event_graphic]. *)
Definition layout_of (w : World) (title date time location : string)
           (illustration_path : option string) (format_name : string)
           (width height scale : Z) : M unit :=
  if String.eqb format_name "instagram_story" then
    create_ig_story_layout w title date time location illustration_path width height
  else if String.eqb format_name "instagram_post" then
    create_ig_post_layout w title date time location illustration_path width height
  else if String.eqb format_name "facebook_post" then
    create_fb_post_layout w title date time location illustration_path width height
  else
    create_ppt_layout w title date time location illustration_path width height scale.

(** The [if output_path:] block of [create_event_graphic]. *)
Definition saving (w : World) (output_path : option string) (width height : Z) : M unit :=
  if truthy output_path then
    save_png w (path_of output_path) ;;;
    print (Saved (path_of output_path) width height)
  else ret tt.

(** The drawing calls [after] are the calls [before] followed by the paste
    of the picture, resized and with its alpha multiplied by 0.15 or 0.13,
    and then by further calls. *)
Definition pasted_next (pic : Picture) (before after : list DrawOp) : Prop :=
  exists size pos opacity extra,
    after = before
            ++ Paste (mkPicture (pic_source pic) size (Qmult (pic_alpha pic) opacity)) pos
            :: extra
    /\ (opacity = (15 # 100)%Q \/ opacity = (13 # 100)%Q)
    /\ 0 < fst size /\ 0 < snd size.

(** *** The format loop *)

(** The names of a list that the registry knows, in order. *)
Definition known_formats (formats : list string) : list string :=
  filter (dict_mem FORMATS) formats.

(** The dictionary the loop builds from the names it renders. *)
Definition results_for (w : World) (output_prefix : string) (formats : list string)
           (results : list (string * string)) : list (string * string) :=
  fold_left (fun r f => dict_set r f (output_file w output_prefix f)) formats results.

(** *** The file-name prefix of the interactive mode *)

Definition chars (s : string) : list ascii := list_ascii_of_string s.

Section Slug.

(** [str.lower] *)
Variable lower : string -> string.

(** [title.lower().replace(' ', '_').replace('\n', '_')[:20]], the value
    [interactive_mode] passes as [output_prefix]. *)
Definition slug (title : string) : string :=
  substring 0 20
    (PyStr.replace PyStr.newline_str "_" (PyStr.replace " " "_" (lower title))).

End Slug.

(** *** The detail texts *)

(** The texts drawn in the accent colour, with their fonts: date, time and
    location. *)
Definition amber_text_of (op : DrawOp) : list (string * Font) :=
  match op with
  | Text _ text font fill => if color_eqb fill amber_canva then [(text, font)] else []
  | _ => []
  end.

Definition amber_texts (ops : list DrawOp) : list (string * Font) :=
  flat_map amber_text_of ops.

Definition amber_is (texts : list (string * Font)) (st : State) : Prop :=
  amber_texts (c_ops (img st)) = texts.

(** Started where [P] holds, the computation, if it returns [a], ends where
    [Q a] holds. *)
Definition hoare {A} (P : State -> Prop) (m : M A) (Q : A -> State -> Prop) : Prop :=
  forall st, P st ->
    match m st with
    | (Ok a, st') => Q a st'
    | (Raise _, _) => True
    end.

(** The wrap budget of the location text, in base pixels, where the layout
    wraps it: [max_text_width] of the three social formats.  The slide
    layout has none. *)
Definition location_budget (format_name : string) : option Z :=
  if String.eqb format_name "instagram_story" then Some 850
  else if String.eqb format_name "instagram_post" then Some 500
  else if String.eqb format_name "facebook_post" then Some 430
  else None.

(** The base size of the detail font of each layout. *)
Definition detail_font_size (format_name : string) : Z :=
  if String.eqb format_name "instagram_story" then 65
  else if String.eqb format_name "instagram_post" then 47
  else if String.eqb format_name "facebook_post" then 34
  else 31.

(** The detail texts a layout is expected to draw, in order. *)
Definition detail_texts (w : World) (format_name : string) (scale : Z)
           (date time location : string) (font : Font) : list (string * Font) :=
  [(date, font); (time, font)]
  ++ map (fun line => (line, font))
         (match location_budget format_name with
          | Some budget => wrap_text (textbbox w) location font (budget * scale)
          | None => [location]
          end).

(** *** Decoration *)

Definition is_paste (op : DrawOp) : bool :=
  match op with
  | Paste _ _ => true
  | _ => false
  end.

(** The drawing calls that are not pastes: lines, shapes and texts. *)
Definition content (ops : list DrawOp) : list DrawOp :=
  filter (fun op => negb (is_paste op)) ops.

Definition is_warning (p : Printed) : bool :=
  match p with
  | WarnIllustration _ | WarnLogo _ => true
  | _ => false
  end.

(** The printed lines that are not warnings about an image. *)
Definition messages (out : list Printed) : list Printed :=
  filter (fun p => negb (is_warning p)) out.

(** Two states that differ by pastes and warnings at most; the files are
    left out, they hold the images as a whole. *)
Definition same_content : StRel :=
  fun st1 st2 =>
    content (c_ops (img st1)) = content (c_ops (img st2))
    /\ messages (stdout st1) = messages (stdout st2).

(** A computation that returns normally and adds pastes and warnings at
    most. *)
Definition ornament (m : M unit) : Prop :=
  forall st, fst (m st) = Ok tt /\ same_content (snd (m st)) st.

(** The host [w] with other image files behind the same paths. *)
Definition with_images (w : World) (images : string -> option Picture) : World :=
  mkWorld (base_dir w) (path_exists w) images (font_loadable w) (textbbox w)
          (can_save w) (failed_save w).

(** Two runs end the same way: both return, or both raise the same
    exception. *)
Definition same_fate {A B} (r1 : Res A) (r2 : Res B) : Prop := res_rel any r1 r2.

(** * Proofs *)

(** ** Strings *)

Lemma split_not_nil (sep : ascii) (s : string) : PyStr.split sep s <> [].
Proof.
  destruct s as [|c rest]; simpl; [discriminate|].
  destruct (Ascii.eqb c sep); [discriminate|].
  destruct (PyStr.split sep rest); discriminate.
Qed.

Lemma join_cons_cons (sep a b : string) (l : list string) :
  PyStr.join sep (a :: b :: l) = String.append a (String.append sep (PyStr.join sep (b :: l))).
Proof. reflexivity. Qed.

Lemma append_assoc (a b c : string) :
  String.append (String.append a b) c = String.append a (String.append b c).
Proof. induction a; simpl; congruence. Qed.

Lemma append_empty_r (a : string) : String.append a EmptyString = a.
Proof. induction a; simpl; congruence. Qed.

(** Joining the fields of a split with the separator gives the string back. *)
Lemma join_split (c : ascii) (s : string) :
  PyStr.join (String c EmptyString) (PyStr.split c s) = s.
Proof.
  induction s as [|d rest IH]; [reflexivity|].
  cbn [PyStr.split].
  destruct (PyStr.split c rest) as [|f fs] eqn:E;
    [exfalso; exact (split_not_nil _ _ E)|].
  destruct (Ascii.eqb_spec d c) as [->|Hne].
  - rewrite join_cons_cons, IH. reflexivity.
  - destruct fs as [|g gs].
    + cbn in *. now rewrite IH.
    + rewrite join_cons_cons in *. rewrite <- IH. reflexivity.
Qed.

(** Joining two non-empty groups separately and then together is joining
    their concatenation. *)
Lemma join_app (sep : string) (l1 l2 : list string) :
  l1 <> [] -> l2 <> [] ->
  PyStr.join sep (l1 ++ l2)
  = String.append (PyStr.join sep l1) (String.append sep (PyStr.join sep l2)).
Proof.
  intros H1 H2. induction l1 as [|a l1 IH]; [congruence|].
  destruct l1 as [|b l1].
  - simpl. destruct l2; [congruence|reflexivity].
  - change ((a :: b :: l1) ++ l2) with (a :: (b :: l1) ++ l2).
    simpl app. rewrite !join_cons_cons.
    change (b :: l1 ++ l2) with ((b :: l1) ++ l2).
    rewrite IH by discriminate. now rewrite !append_assoc.
Qed.

Lemma join_snoc_line (sep : string) (lines : list string) (group : list string) :
  lines <> [] -> group <> [] ->
  PyStr.join sep (lines ++ [PyStr.join sep group])
  = String.append (PyStr.join sep lines) (String.append sep (PyStr.join sep group)).
Proof.
  intros H1 H2. rewrite join_app by (assumption || discriminate). reflexivity.
Qed.

Lemma join_single (sep x : string) : PyStr.join sep [x] = x.
Proof. reflexivity. Qed.

Lemma join_snoc (sep x : string) (l : list string) :
  l <> [] ->
  PyStr.join sep (l ++ [x]) = String.append (PyStr.join sep l) (String.append sep x).
Proof. intros H. rewrite join_app by (assumption || discriminate). reflexivity. Qed.

Lemma nonempty_true {A} (l : list A) : nonempty l = true <-> l <> [].
Proof. destruct l; simpl; split; congruence. Qed.

Lemma nonempty_false {A} (l : list A) : nonempty l = false <-> l = [].
Proof. destruct l; simpl; split; congruence. Qed.

(** ** The text wrapper *)

Section WrapProofs.

Variable tb : Font -> string -> BBox.
Variable font : Font.
Variable max_width : Z.

Local Abbreviation step := (wrap_step tb font max_width).
Local Abbreviation loop := (wrap_loop tb font max_width).

Lemma wrap_loop_cons (word : string) (words : list string)
      (st : list string * list string) :
  loop (word :: words) st = loop words (step st word).
Proof. reflexivity. Qed.

(** After one word the line under construction is never empty. *)
Lemma wrap_step_current (st : list string * list string) (word : string) :
  snd (step st word) <> [].
Proof.
  destruct st as [lines cur]. unfold wrap_step.
  destruct (_ <=? _); simpl; [destruct cur|]; discriminate.
Qed.

Lemma wrap_loop_current (words : list string) (st : list string * list string) :
  snd st <> [] -> snd (loop words st) <> [].
Proof.
  revert st. induction words as [|word rest IH]; intros st H; [exact H|].
  rewrite wrap_loop_cons. apply IH, wrap_step_current.
Qed.

Lemma wrap_finish_current (st : list string * list string) :
  snd st <> [] -> wrap_finish st <> [].
Proof.
  destruct st as [lines cur]; simpl. intros H.
  destruct cur; [congruence|]. simpl. destruct lines; discriminate.
Qed.

(** The wrapper returns at least one line, whatever the text. *)
Lemma wrap_text_not_nil (text : string) : wrap_text tb text font max_width <> [].
Proof.
  unfold wrap_text.
  destruct (PyStr.split PyStr.space text) as [|word rest] eqn:E;
    [exfalso; exact (split_not_nil _ _ E)|].
  apply wrap_finish_current. rewrite wrap_loop_cons.
  apply wrap_loop_current, wrap_step_current.
Qed.

(** *** Nothing is lost: the text read back from a loop state *)

Lemma read_back_step (st : list string * list string) (word : string) :
  wrap_finish st <> [] ->
  read_back (step st word)
  = String.append (read_back st) (String.append " " word).
Proof.
  destruct st as [lines cur]. unfold read_back, wrap_step. intros Hne.
  destruct (_ <=? _).
  - cbn [wrap_finish].
    destruct cur as [|c cur'].
    + simpl in Hne |- *. now apply join_snoc.
    + replace (nonempty ((c :: cur') ++ [word])) with true by reflexivity.
      cbn [nonempty].
      rewrite (@join_snoc " " word (c :: cur')) by discriminate.
      destruct lines as [|l lines'].
      * reflexivity.
      * rewrite !(@join_snoc " " _ (l :: lines')) by discriminate.
        now rewrite !append_assoc.
  - cbn [wrap_finish nonempty].
    change (if nonempty cur then lines ++ [PyStr.join " " cur] else lines)
      with (wrap_finish (lines, cur)).
    now apply join_snoc.
Qed.

Lemma read_back_first (word : string) : read_back (step ([], []) word) = word.
Proof. unfold read_back, wrap_step. simpl. destruct (_ <=? _); reflexivity. Qed.

Lemma read_back_loop (words : list string) (st : list string * list string) :
  snd st <> [] ->
  read_back (loop words st)
  = fold_left (fun acc word => String.append acc (String.append " " word))
              words (read_back st).
Proof.
  revert st. induction words as [|word rest IH]; intros st H; [reflexivity|].
  rewrite wrap_loop_cons, IH by apply wrap_step_current.
  now rewrite read_back_step by now apply wrap_finish_current.
Qed.

Lemma join_as_fold (words : list string) (acc : string) (first : string) :
  fold_left (fun acc word => String.append acc (String.append " " word)) words
            (String.append acc first)
  = String.append acc (PyStr.join " " (first :: words)).
Proof.
  revert acc first. induction words as [|word rest IH]; intros acc first.
  - reflexivity.
  - cbn [fold_left]. rewrite join_cons_cons.
    replace (String.append (String.append acc first) (String.append " " word))
      with (String.append (String.append acc (String.append first " ")) word)
      by (rewrite !append_assoc; reflexivity).
    rewrite IH. now rewrite !append_assoc.
Qed.

(** *** Every line is within the budget or is one wide word *)

Local Abbreviation good := (fun text => line_fits_or_is_wide_word tb text font max_width).

Lemma word_is_good (text word : string) :
  In word (PyStr.split PyStr.space text) -> good text word.
Proof.
  intros H. unfold line_fits_or_is_wide_word.
  destruct (Z_le_gt_dec (text_width tb font word) max_width); [left|right]; auto with zarith.
Qed.

Local Abbreviation wrap_inv := (wrap_invariant tb font max_width).

Lemma wrap_step_inv (text : string) (st : list string * list string) (word : string) :
  In word (PyStr.split PyStr.space text) ->
  wrap_inv text st -> wrap_inv text (step st word).
Proof.
  destruct st as [lines cur]. unfold wrap_inv, wrap_step. simpl.
  intros Hin [Hlines Hcur].
  destruct (Z.leb_spec (text_width tb font (PyStr.join " " (cur ++ [word]))) max_width)
    as [Hfit|Hwide]; simpl.
  - split; [assumption|]. right. now left.
  - split.
    + destruct cur as [|c cur']; simpl; [assumption|].
      apply Forall_app. split; [assumption|].
      constructor; [|constructor]. destruct Hcur as [Hcur|Hcur]; [discriminate|exact Hcur].
    + right. now apply word_is_good.
Qed.

Lemma wrap_loop_inv (text : string) (words : list string) (st : list string * list string) :
  (forall word, In word words -> In word (PyStr.split PyStr.space text)) ->
  wrap_inv text st -> wrap_inv text (loop words st).
Proof.
  revert st. induction words as [|word rest IH]; intros st Hsub Hinv; [exact Hinv|].
  rewrite wrap_loop_cons. apply IH.
  - intros x Hx. apply Hsub. now right.
  - apply wrap_step_inv; [apply Hsub; now left|assumption].
Qed.

End WrapProofs.

(** C5, as the code has it. [wrap_text] returns at least one line for every
    text, and for the empty text it returns exactly one line, the empty
    string. *)
Theorem wrap_text_line_count (tb : Font -> string -> BBox) (font : Font) (max_width : Z) :
  (forall text, (1 <= List.length (wrap_text tb text font max_width))%nat)
  /\ wrap_text tb EmptyString font max_width = [EmptyString].
Proof.
  split.
  - intros text. pose proof (@wrap_text_not_nil tb font max_width text) as H.
    destruct (wrap_text tb text font max_width); [congruence|simpl; lia].
  - unfold wrap_text, wrap_loop, wrap_step. simpl.
    destruct (_ <=? _); reflexivity.
Qed.

(** C5, as the document has it, fails: the empty text does not yield zero
    lines. *)
Lemma wrap_text_empty_text_has_a_line :
  ~ spec_line_count char_count_bbox (mkFont "Merriweather-Regular.ttf" 47) 500.
Proof. intros [_ H]. vm_compute in H. discriminate. Qed.

(** C6, as the code has it. The lines of [wrap_text], joined by single
    spaces, are the input text itself, character for character: nothing is
    normalized. *)
Theorem wrap_text_join_is_text (tb : Font -> string -> BBox) (text : string)
        (font : Font) (max_width : Z) :
  PyStr.join " " (wrap_text tb text font max_width) = text.
Proof.
  unfold wrap_text.
  pose proof (join_split PyStr.space text) as Hjs.
  destruct (PyStr.split PyStr.space text) as [|first rest] eqn:E;
    [exfalso; exact (split_not_nil _ _ E)|].
  change (PyStr.join " " (wrap_finish (wrap_loop tb font max_width (first :: rest) ([], []))))
    with (read_back (wrap_loop tb font max_width rest
                               (wrap_step tb font max_width ([], []) first))).
  rewrite read_back_loop by apply wrap_step_current.
  rewrite read_back_first.
  change first with (String.append EmptyString first) at 1.
  rewrite join_as_fold. exact Hjs.
Qed.

(** C6, as the document has it, fails on a text with two spaces in a row. *)
Lemma wrap_text_join_keeps_double_space :
  ~ spec_join_normalizes char_count_bbox "a  b" (mkFont "Merriweather-Regular.ttf" 47) 500.
Proof. unfold spec_join_normalizes. vm_compute. discriminate. Qed.

(** ** Icons *)

(** C7, as the code has it. [draw_icon] called with a type other than
    calendar, clock and location raises nothing: it returns normally and has
    drawn nothing. *)
Theorem draw_icon_unknown_type_is_ignored (icon_type : string) (x y size : Z)
        (color : Color) (st : State) :
  icon_type <> "calendar" -> icon_type <> "clock" -> icon_type <> "location" ->
  draw_icon icon_type x y size color st = (Ok tt, st).
Proof.
  intros H1 H2 H3. unfold draw_icon.
  destruct (String.eqb_spec icon_type "calendar"); [contradiction|].
  destruct (String.eqb_spec icon_type "clock"); [contradiction|].
  destruct (String.eqb_spec icon_type "location"); [contradiction|].
  reflexivity.
Qed.

Lemma draw_icon_unknown_type_is_ignored_witness :
  draw_icon "star" 75 440 40 amber_canva initial = (Ok tt, initial).
Proof.
  apply (@draw_icon_unknown_type_is_ignored "star" 75 440 40 amber_canva initial);
    discriminate.
Defined.

(** C7, as the document has it, fails: an unknown icon type is not an error. *)
Lemma draw_icon_star_is_not_fatal :
  ~ spec_invalid_icon_is_fatal "star" 75 440 40 amber_canva initial.
Proof. intros [e H]. vm_compute in H. discriminate. Qed.

(** ** Fonts *)

(** C8 at the failing input. On a host that has neither the bundled font
    files nor the two system fonts named as fallbacks, both providers raise
    instead of returning a font. *)
Theorem font_fallback_can_fail :
  fst (get_montserrat bare_host 230 "light" initial) = Raise OSError
  /\ fst (get_merriweather bare_host 62 true initial) = Raise OSError
  /\ ~ spec_font_never_fails bare_host 230.
Proof.
  split; [reflexivity|]. split; [reflexivity|].
  intros [H _]. destruct (H "light" initial) as [f [Hf _]].
  vm_compute in Hf. discriminate.
Qed.

(** When the bundled file is absent and the system font is present, the
    fallback has the requested pixel size. *)
Lemma get_montserrat_fallback (w : World) (size : Z) (weight : string) (st : State) :
  0 < size ->
  path_exists w (path_join (FONTS_DIR w)
                   (if String.eqb weight "light" then "Montserrat-Light.ttf"
                    else "Montserrat.ttf")) = false ->
  font_loadable w "/System/Library/Fonts/Helvetica.ttc" = true ->
  get_montserrat w size weight st
  = (Ok (mkFont "/System/Library/Fonts/Helvetica.ttc" size), st).
Proof.
  intros Hs He Hl. unfold get_montserrat, PIL.truetype.
  destruct (String.eqb weight "light"); rewrite He, Hl;
    destruct (Z.leb_spec size 0); try lia; reflexivity.
Qed.

(** The helper of [generate_mockups.py] does what the two providers miss: it
    returns a font in every world. *)
Lemma first_font_total (w : World) (paths : list string) (size : Z) (st : State) :
  exists f, Mockups.first_font w paths size st = (Ok f, st).
Proof.
  induction paths as [|path rest IH]; simpl.
  - eexists; reflexivity.
  - destruct (path_exists w path); [|exact IH].
    unfold PIL.truetype.
    destruct (size <=? 0); [exact IH|].
    destruct (font_loadable w path); [eexists; reflexivity|exact IH].
Qed.

Lemma get_font_total (w : World) (name : string) (size : Z) (st : State) :
  exists f, Mockups.get_font w name size st = (Ok f, st).
Proof. apply first_font_total. Qed.

(** ** Format dispatch *)

Lemma dict_mem_FORMATS (f : string) :
  dict_mem FORMATS f = false ->
  f <> "ppt_4_3" /\ f <> "instagram_post" /\ f <> "instagram_story" /\ f <> "facebook_post".
Proof.
  unfold dict_mem, FORMATS, dict_get.
  destruct (String.eqb_spec "ppt_4_3" f); [discriminate|].
  destruct (String.eqb_spec "instagram_post" f); [discriminate|].
  destruct (String.eqb_spec "instagram_story" f); [discriminate|].
  destruct (String.eqb_spec "facebook_post" f); [discriminate|].
  intros _. repeat split; congruence.
Qed.

(** A name the dispatch does not know is rendered as the slide format. *)
Lemma render_default_is_ppt (w : World) (title date time location : string)
      (illustration_path : option string) (f : string) (output_path : option string)
      (scale : Z) :
  f <> "instagram_post" -> f <> "instagram_story" -> f <> "facebook_post" ->
  create_event_graphic w title date time location illustration_path f output_path scale
  = create_event_graphic w title date time location illustration_path "ppt_4_3"
                         output_path scale.
Proof.
  intros H1 H2 H3. unfold create_event_graphic, FORMATS, dict_get.
  destruct (String.eqb_spec "instagram_post" f); [congruence|].
  destruct (String.eqb_spec "instagram_story" f); [congruence|].
  destruct (String.eqb_spec "facebook_post" f); [congruence|].
  destruct (String.eqb_spec f "instagram_post"); [congruence|].
  destruct (String.eqb_spec f "instagram_story"); [congruence|].
  destruct (String.eqb_spec f "facebook_post"); [congruence|].
  destruct (String.eqb "ppt_4_3" f); reflexivity.
Qed.

(** Every format name is one of three, or renders as the slide format. *)
Lemma format_cases (f : string) :
  f = "instagram_story" \/ f = "instagram_post" \/ f = "facebook_post"
  \/ (forall w title date time location illustration_path output_path scale,
         create_event_graphic w title date time location illustration_path f
                              output_path scale
         = create_event_graphic w title date time location illustration_path "ppt_4_3"
                                output_path scale).
Proof.
  destruct (String.eqb_spec f "instagram_story"); [now left|].
  destruct (String.eqb_spec f "instagram_post"); [now right; left|].
  destruct (String.eqb_spec f "facebook_post"); [now right; right; left|].
  right; right; right. intros. now apply render_default_is_ppt.
Qed.

(** C1, as the code has it. A format name outside the registry does not make
    [create_event_graphic] fail: the call behaves exactly as for the slide
    format, graphic and output file included.  Only the format loop of the
    generator skips such a name, wherever it meets one: it prints a warning
    and goes on with the formats that remain, with the image, the files and
    the results recorded so far as they were. *)
Theorem unknown_format_falls_back_or_is_skipped (w : World)
        (title date time location : string) (illustration_path : option string)
        (f : string) (output_path : option string) (scale : Z)
        (output_prefix : string) (rest : list string)
        (results : list (string * string)) (st : State) :
  dict_mem FORMATS f = false ->
  create_event_graphic w title date time location illustration_path f output_path scale
  = create_event_graphic w title date time location illustration_path "ppt_4_3"
                         output_path scale
  /\ generate_complete_graphic w title date time location illustration_path
                               output_prefix (f :: rest) results st
     = generate_complete_graphic w title date time location illustration_path
                                 output_prefix rest results
         (mkState (img st) (stdout st ++ [UnknownFormatWarning f]) (disk st)).
Proof.
  intros Hmem. split.
  - apply dict_mem_FORMATS in Hmem. apply render_default_is_ppt; tauto.
  - cbn [generate_complete_graphic]. rewrite Hmem. reflexivity.
Qed.

Lemma unknown_format_falls_back_or_is_skipped_witness :
  create_event_graphic studio "La Mesa\nAbierta" "Viernes 9 de Enero" "19:00 hrs"
                       "Iglesia San Andres" None "unknown_format"
                       (Some "output/event_unknown_format.png") 2
  = create_event_graphic studio "La Mesa\nAbierta" "Viernes 9 de Enero" "19:00 hrs"
                         "Iglesia San Andres" None "ppt_4_3"
                         (Some "output/event_unknown_format.png") 2
  /\ generate_complete_graphic studio "La Mesa\nAbierta" "Viernes 9 de Enero" "19:00 hrs"
                               "Iglesia San Andres" None "event"
                               ["unknown_format"; "instagram_post"] [] initial
     = generate_complete_graphic studio "La Mesa\nAbierta" "Viernes 9 de Enero"
                                 "19:00 hrs" "Iglesia San Andres" None "event"
                                 ["instagram_post"] []
         (mkState (img initial)
                  (stdout initial ++ [UnknownFormatWarning "unknown_format"])
                  (disk initial)).
Proof.
  apply (@unknown_format_falls_back_or_is_skipped studio "La Mesa\nAbierta"
           "Viernes 9 de Enero" "19:00 hrs" "Iglesia San Andres" None "unknown_format"
           (Some "output/event_unknown_format.png") 2 "event" ["instagram_post"] []
           initial).
  reflexivity.
Defined.

(** C1, as the document has it, fails: rendering "unknown_format" returns a
    graphic and writes the output file. *)
Lemma unknown_format_renders_and_writes :
  ~ spec_unknown_format_fails studio "La Mesa\nAbierta" "Viernes 9 de Enero" "19:00 hrs"
      "Iglesia San Andres" None "unknown_format"
      (Some "output/event_unknown_format.png") 2 initial.
Proof. intros [[e H] _]. vm_compute in H. discriminate. Qed.

(** ** Relating two runs: the rules *)

Section Rules.

Context {A B : Type}.

Lemma related_ret (P : StRel) (RA : A -> B -> Prop) (a : A) (b : B) :
  RA a b -> related P (ret a) (ret b) RA P.
Proof. intros H st1 st2 HP. simpl. auto. Qed.

Lemma related_raise (P : StRel) (RA : A -> B -> Prop) (e : exn) :
  related P (raise e) (raise e) RA P.
Proof. intros st1 st2 HP. simpl. auto. Qed.

Lemma related_weaken (P Q Q' : StRel) (RA RA' : A -> B -> Prop) (m1 : M A) (m2 : M B) :
  related P m1 m2 RA Q ->
  (forall a b, RA a b -> RA' a b) ->
  (forall st1 st2, Q st1 st2 -> Q' st1 st2) ->
  related P m1 m2 RA' Q'.
Proof.
  intros H HR HQ st1 st2 HP. destruct (H st1 st2 HP) as [Hr Hs]. split; [|auto].
  unfold res_rel in *. destruct (fst (m1 st1)), (fst (m2 st2)); auto.
Qed.

Lemma related_bind {A' B'} (P Q R : StRel) (RA : A -> B -> Prop)
      (RB : A' -> B' -> Prop) (m1 : M A) (m2 : M B) (k1 : A -> M A') (k2 : B -> M B') :
  related P m1 m2 RA Q ->
  (forall a b, RA a b -> related Q (k1 a) (k2 b) RB R) ->
  (forall st1 st2, Q st1 st2 -> R st1 st2) ->
  related P (bind m1 k1) (bind m2 k2) RB R.
Proof.
  intros Hm Hk HQR st1 st2 HP. unfold bind.
  destruct (Hm st1 st2 HP) as [Hr Hs].
  destruct (m1 st1) as [[a|e1] st1'], (m2 st2) as [[b|e2] st2']; simpl in *;
    try contradiction.
  - exact (Hk a b Hr st1' st2' Hs).
  - auto.
Qed.

End Rules.

Lemma related_try_except (P : StRel) (body1 body2 : M unit) (h1 h2 : exn -> M unit)
      (RU : unit -> unit -> Prop) :
  related P body1 body2 RU P ->
  (forall e, related P (h1 e) (h2 e) RU P) ->
  related P (try_except body1 h1) (try_except body2 h2) RU P.
Proof.
  intros Hb Hh st1 st2 HP. unfold try_except.
  destruct (Hb st1 st2 HP) as [Hr Hs].
  destruct (body1 st1) as [[a|e1] st1'], (body2 st2) as [[b|e2] st2']; simpl in *;
    try contradiction.
  - auto.
  - subst e2. exact (Hh e1 st1' st2' Hs).
Qed.

(** ** Computations that do not look at what was printed *)

Create HintDb oblivious.

Lemma oblivious_ret {A} (a : A) : oblivious (ret a).
Proof. now apply related_ret. Qed.

Lemma oblivious_raise {A} (e : exn) : oblivious (@raise A e).
Proof. apply related_raise. Qed.

Lemma oblivious_bind {A B} (m : M A) (k : A -> M B) :
  oblivious m -> (forall a, oblivious (k a)) -> oblivious (bind m k).
Proof.
  intros Hm Hk. eapply related_bind; [exact Hm| |auto].
  intros a b <-. apply Hk.
Qed.

Lemma oblivious_try_except (body : M unit) (h : exn -> M unit) :
  oblivious body -> (forall e, oblivious (h e)) -> oblivious (try_except body h).
Proof. intros Hb Hh. now apply related_try_except. Qed.

Lemma oblivious_emit (op : DrawOp) : oblivious (emit op).
Proof.
  intros st1 st2 [Hi Hd]. unfold emit, same_output. simpl. rewrite Hi, Hd. auto.
Qed.

Lemma oblivious_print (p : Printed) : oblivious (print p).
Proof. intros st1 st2 [Hi Hd]. unfold print, same_output. simpl. auto. Qed.

Lemma oblivious_current_image : oblivious current_image.
Proof. intros st1 st2 [Hi Hd]. unfold current_image, same_output. simpl. auto. Qed.

Lemma oblivious_Image_new (width height : Z) (color : Color) :
  oblivious (PIL.Image_new width height color).
Proof.
  intros st1 st2 [Hi Hd]. unfold PIL.Image_new, same_output.
  destruct (_ || _); simpl; auto.
Qed.

Lemma oblivious_save_png (w : World) (path : string) : oblivious (save_png w path).
Proof.
  intros st1 st2 [Hi Hd]. unfold save_png, same_output.
  destruct (has_dirname path); destruct (can_save w path); simpl;
    rewrite ?Hi, ?Hd; auto.
Qed.

Lemma oblivious_Image_open (w : World) (path : string) : oblivious (PIL.Image_open w path).
Proof.
  unfold PIL.Image_open. destruct (image_open w path);
    [apply oblivious_ret|apply oblivious_raise].
Qed.

Lemma oblivious_resize (p : Picture) (size : Z * Z) : oblivious (PIL.resize p size).
Proof.
  unfold PIL.resize. destruct (_ || _); [apply oblivious_raise|apply oblivious_ret].
Qed.

Lemma oblivious_paste (p : Picture) (pos : Point) : oblivious (PIL.paste p pos).
Proof. apply oblivious_emit. Qed.

Lemma oblivious_truetype (w : World) (path : string) (size : Z) :
  oblivious (PIL.truetype w path size).
Proof.
  unfold PIL.truetype. destruct (size <=? 0); [apply oblivious_raise|].
  destruct (font_loadable w path); [apply oblivious_ret|apply oblivious_raise].
Qed.

Lemma oblivious_get_montserrat (w : World) (size : Z) (weight : string) :
  oblivious (get_montserrat w size weight).
Proof. unfold get_montserrat. destruct (path_exists w _); apply oblivious_truetype. Qed.

Lemma oblivious_get_merriweather (w : World) (size : Z) (italic : bool) :
  oblivious (get_merriweather w size italic).
Proof. unfold get_merriweather. destruct (path_exists w _); apply oblivious_truetype. Qed.

#[local] Hint Resolve oblivious_ret oblivious_raise oblivious_bind oblivious_try_except
  oblivious_emit oblivious_print oblivious_current_image oblivious_Image_new
  oblivious_save_png oblivious_Image_open oblivious_resize oblivious_paste
  oblivious_truetype oblivious_get_montserrat oblivious_get_merriweather : oblivious.

Lemma oblivious_for_each {A} (items : list A) (body : A -> M unit) :
  (forall x, oblivious (body x)) -> oblivious (for_each items body).
Proof. intros H. induction items; simpl; auto with oblivious. Qed.

Lemma oblivious_draw_icon (icon_type : string) (x y size : Z) (color : Color) :
  oblivious (draw_icon icon_type x y size color).
Proof.
  unfold draw_icon.
  destruct (String.eqb icon_type "calendar");
    [|destruct (String.eqb icon_type "clock");
      [|destruct (String.eqb icon_type "location")]];
    cbv zeta; auto 20 using oblivious_for_each with oblivious.
Qed.

Lemma oblivious_draw_text_lines (x y step : Z) (lines : list string) (font : Font)
      (fill : Color) :
  oblivious (draw_text_lines x y step lines font fill).
Proof. revert y. induction lines; intros y; simpl; auto with oblivious. Qed.

#[local] Hint Resolve oblivious_draw_icon oblivious_draw_text_lines : oblivious.

(** ** A missing or unreadable illustration *)

Lemma res_rel_eq {A} (r1 r2 : Res A) : res_rel eq r1 r2 -> r1 = r2.
Proof. destruct r1, r2; simpl; intros H; congruence || contradiction. Qed.

(** The illustration step does nothing to image and files when the path
    names no file or a file that cannot be opened. *)
Lemma illustration_step_skipped (w : World) (p : string) (k : Picture -> M unit) :
  path_exists w p = false \/ image_open w p = None ->
  skipped (illustration_step w (Some p) (bind (PIL.Image_open w p) k)).
Proof.
  intros H st. unfold illustration_step.
  destruct (truthy (Some p) && path_exists w (path_of (Some p))) eqn:Hc;
    [|split; [reflexivity|split; reflexivity]].
  simpl in Hc. apply andb_prop in Hc as [_ Hex].
  destruct H as [H|H]; [congruence|].
  unfold try_except, bind, PIL.Image_open. rewrite H. simpl.
  split; [reflexivity|split; reflexivity].
Qed.

Lemma related_skip_then {A} (m1 m2 : M unit) (rest : M A) :
  skipped m1 -> skipped m2 -> oblivious rest ->
  related same_output (bind m1 (fun _ => rest)) (bind m2 (fun _ => rest)) eq same_output.
Proof.
  intros Hm1 Hm2 Hrest st1 st2 [Hi Hd]. unfold bind.
  destruct (Hm1 st1) as [Hr1 [Hi1 Hd1]].
  destruct (Hm2 st2) as [Hr2 [Hi2 Hd2]].
  destruct (m1 st1) as [r1 st1'], (m2 st2) as [r2 st2']. simpl in *. subst r1 r2.
  apply Hrest. split; congruence.
Qed.

Lemma skipped_ret : skipped (ret tt).
Proof. intros st. split; [reflexivity|split; reflexivity]. Qed.

Section BadIllustration.

Variable w : World.
Variables title date time location : string.
Variable p : string.
Hypothesis bad : path_exists w p = false \/ image_open w p = None.

Ltac layout_with_bad_path :=
  cbv zeta;
  match goal with
  | |- related _ (bind (if _ then try_except ?body _ else _) _) _ _ _ =>
      change (if truthy (Some p) && path_exists w (path_of (Some p))
              then try_except body (fun e => print (WarnIllustration e))
              else ret tt)
        with (illustration_step w (Some p) body)
  end;
  apply related_skip_then;
  [ apply illustration_step_skipped; exact bad
  | exact skipped_ret
  | auto 40 with oblivious ].

Lemma ppt_layout_bad_path (width height scale : Z) :
  related same_output
    (create_ppt_layout w title date time location (Some p) width height scale)
    (create_ppt_layout w title date time location None width height scale)
    eq same_output.
Proof. unfold create_ppt_layout. layout_with_bad_path. Qed.

Lemma ig_story_layout_bad_path (width height : Z) :
  related same_output
    (create_ig_story_layout w title date time location (Some p) width height)
    (create_ig_story_layout w title date time location None width height)
    eq same_output.
Proof. unfold create_ig_story_layout. layout_with_bad_path. Qed.

Lemma ig_post_layout_bad_path (width height : Z) :
  related same_output
    (create_ig_post_layout w title date time location (Some p) width height)
    (create_ig_post_layout w title date time location None width height)
    eq same_output.
Proof. unfold create_ig_post_layout. layout_with_bad_path. Qed.

Lemma fb_post_layout_bad_path (width height : Z) :
  related same_output
    (create_fb_post_layout w title date time location (Some p) width height)
    (create_fb_post_layout w title date time location None width height)
    eq same_output.
Proof. unfold create_fb_post_layout. layout_with_bad_path. Qed.

Lemma render_bad_path (f : string) (output_path : option string) (scale : Z) :
  related same_output
    (create_event_graphic w title date time location (Some p) f output_path scale)
    (create_event_graphic w title date time location None f output_path scale)
    eq same_output.
Proof.
  unfold create_event_graphic.
  destruct (match dict_get FORMATS f with Some dims => dims | None => (1024, 768) end)
    as [base_width base_height].
  apply related_bind with (RA := eq) (Q := same_output);
    [apply oblivious_Image_new| |auto].
  intros _ _ _.
  apply related_bind with (RA := eq) (Q := same_output); [| |auto].
  - destruct (String.eqb f "instagram_story"); [apply ig_story_layout_bad_path|].
    destruct (String.eqb f "instagram_post"); [apply ig_post_layout_bad_path|].
    destruct (String.eqb f "facebook_post"); [apply fb_post_layout_bad_path|].
    apply ppt_layout_bad_path.
  - intros _ _ _.
    assert (Hrest : oblivious
              (bind (if truthy output_path
                     then bind (save_png w (path_of output_path))
                               (fun _ => print (Saved (path_of output_path)
                                                      (base_width * scale)
                                                      (base_height * scale)))
                     else ret tt)
                    (fun _ => current_image))).
    { destruct (truthy output_path); auto 10 with oblivious. }
    exact Hrest.
Qed.

End BadIllustration.

(** C2. Rendering with an illustration path that names no file, or a file
    that cannot be opened, returns the same result, leaves the same image
    and writes the same files as rendering with no illustration path, in
    every format and at every scale: the failed load never aborts a render
    that would otherwise succeed. *)
Theorem bad_illustration_path_is_no_path (w : World) (title date time location : string)
        (p : string) (f : string) (output_path : option string) (scale : Z) (st : State) :
  path_exists w p = false \/ image_open w p = None ->
  let with_bad_path :=
    create_event_graphic w title date time location (Some p) f output_path scale st in
  let with_no_path :=
    create_event_graphic w title date time location None f output_path scale st in
  fst with_bad_path = fst with_no_path
  /\ img (snd with_bad_path) = img (snd with_no_path)
  /\ disk (snd with_bad_path) = disk (snd with_no_path).
Proof.
  intros Hbad.
  destruct (@render_bad_path w title date time location p Hbad f output_path scale st st)
    as [Hr [Hi Hd]]; [split; reflexivity|].
  cbv zeta. split; [now apply res_rel_eq|]. split; assumption.
Qed.

Lemma bad_illustration_path_is_no_path_witness :
  let with_bad_path :=
    create_event_graphic no_illustration_host "La Mesa\nAbierta" "Viernes 9 de Enero"
      "19:00 hrs" "Iglesia San Andres" (Some "illustrations/missing.png")
      "instagram_story" (Some "output/event_instagram_story.png") 2 initial in
  let with_no_path :=
    create_event_graphic no_illustration_host "La Mesa\nAbierta" "Viernes 9 de Enero"
      "19:00 hrs" "Iglesia San Andres" None
      "instagram_story" (Some "output/event_instagram_story.png") 2 initial in
  fst with_bad_path = fst with_no_path
  /\ img (snd with_bad_path) = img (snd with_no_path)
  /\ disk (snd with_bad_path) = disk (snd with_no_path).
Proof.
  apply (@bad_illustration_path_is_no_path no_illustration_host "La Mesa\nAbierta"
           "Viernes 9 de Enero" "19:00 hrs" "Iglesia San Andres"
           "illustrations/missing.png" "instagram_story"
           (Some "output/event_instagram_story.png") 2 initial).
  left. reflexivity.
Defined.

(** ** A scale that is zero or negative *)

Lemma format_dims_positive (f : string) :
  0 < fst (match dict_get FORMATS f with Some dims => dims | None => (1024, 768) end)
  /\ 0 < snd (match dict_get FORMATS f with Some dims => dims | None => (1024, 768) end).
Proof.
  unfold FORMATS, dict_get.
  repeat match goal with
         | |- context [String.eqb ?a f] => destruct (String.eqb a f)
         end; simpl; lia.
Qed.

Lemma negative_scale_refused (w : World) (title date time location : string)
      (illustration_path : option string) (f : string) (output_path : option string)
      (scale : Z) (st : State) :
  scale < 0 ->
  create_event_graphic w title date time location illustration_path f output_path scale st
  = (Raise ValueError, st).
Proof.
  intros Hs. unfold create_event_graphic.
  pose proof (format_dims_positive f) as [Hw Hh].
  destruct (match dict_get FORMATS f with Some dims => dims | None => (1024, 768) end)
    as [base_width base_height].
  simpl in Hw, Hh. unfold bind at 1. unfold PIL.Image_new.
  replace (base_width * scale <? 0) with true by (symmetry; apply Z.ltb_lt; nia).
  reflexivity.
Qed.

(** A render at scale zero, in one of the four layouts. *)
Lemma zero_scale_outcome (w : World) (title date time location : string)
      (illustration_path : option string) (f : string) (output_path : option string)
      (st : State) :
  f = "instagram_story" \/ f = "instagram_post" \/ f = "facebook_post" \/ f = "ppt_4_3" ->
  create_event_graphic w title date time location illustration_path f output_path 0 st
  = (Raise ValueError,
     mkState (mkCanvas 0 0 white (zero_scale_strokes f))
             (stdout st ++ zero_scale_warnings w illustration_path f)
             (disk st)).
Proof.
  intros Hf. destruct w as [bd pe io fl tb cs fs]. destruct st as [im out dk].
  destruct Hf as [-> | [-> | [-> | ->]]];
    destruct illustration_path as [[|c p]|];
    cbv -[app LOGO_PATH FONTS_DIR path_join];
    repeat match goal with
           | |- context [pe ?x] => destruct (pe x)
           | |- context [io ?x] => destruct (io x)
           end;
    rewrite <- ?app_assoc, ?app_nil_r; reflexivity.
Qed.

(** C9, as the code has it. [create_event_graphic] checks nothing about the
    scale.  With a negative scale Pillow refuses to allocate the canvas and
    the call ends in its [ValueError] with the state untouched.  With scale
    zero a canvas of size 0 by 0 is allocated and the layers before the
    title run: an illustration whose file exists is not placed but reported
    by a warning, the divider lines of the layout are drawn as strokes of
    width 0 from the origin to the origin (three on the slide and the post,
    two on the Facebook post, none on the story), the logo of the layouts
    that have one (all but the story) is not placed but reported by a
    warning; the call then ends in the [ValueError] of the title font
    request of size 0.  In both cases no file is written. *)
Theorem nonpositive_scale_fails_in_pillow (w : World) (title date time location : string)
        (illustration_path : option string) (f : string) (output_path : option string)
        (scale : Z) (st : State) :
  scale <= 0 ->
  create_event_graphic w title date time location illustration_path f output_path scale st
  = (Raise ValueError,
     if scale <? 0 then st
     else mkState (mkCanvas 0 0 white (zero_scale_strokes f))
                  (stdout st ++ zero_scale_warnings w illustration_path f)
                  (disk st)).
Proof.
  intros Hs. destruct (Z.ltb_spec scale 0) as [Hneg|Hnn].
  - now apply negative_scale_refused.
  - assert (scale = 0) as -> by lia.
    destruct (String.eqb_spec f "instagram_story") as [->|H1];
      [apply zero_scale_outcome; tauto|].
    destruct (String.eqb_spec f "instagram_post") as [->|H2];
      [apply zero_scale_outcome; tauto|].
    destruct (String.eqb_spec f "facebook_post") as [->|H3];
      [apply zero_scale_outcome; tauto|].
    rewrite render_default_is_ppt by assumption.
    rewrite zero_scale_outcome by tauto.
    unfold zero_scale_strokes, zero_scale_warnings.
    apply String.eqb_neq in H1, H3. now rewrite H1, H3.
Qed.

Lemma nonpositive_scale_fails_in_pillow_witness :
  create_event_graphic studio "La Mesa\nAbierta" "Viernes 9 de Enero" "19:00 hrs"
                       "Iglesia San Andres" (Some "illustrations/mesa_abierta.png")
                       "facebook_post" (Some "output/event_facebook_post.png") 0 initial
  = (Raise ValueError,
     if 0 <? 0 then initial
     else mkState (mkCanvas 0 0 white (zero_scale_strokes "facebook_post"))
                  (stdout initial
                   ++ zero_scale_warnings studio (Some "illustrations/mesa_abierta.png")
                                          "facebook_post")
                  (disk initial)).
Proof.
  apply (@nonpositive_scale_fails_in_pillow studio "La Mesa\nAbierta"
           "Viernes 9 de Enero" "19:00 hrs" "Iglesia San Andres"
           (Some "illustrations/mesa_abierta.png") "facebook_post"
           (Some "output/event_facebook_post.png") 0 initial).
  lia.
Defined.

(** C9, as the document has it, fails at scale zero: three divider strokes
    are drawn on the canvas before the call ends in an error. *)
Lemma zero_scale_draws_before_failing :
  ~ spec_invalid_scale_rejected studio "La Mesa\nAbierta" "Viernes 9 de Enero"
      "19:00 hrs" "Iglesia San Andres" None "ppt_4_3"
      (Some "output/event_ppt_4_3.png") 0 initial.
Proof. intros [_ [H _]]. vm_compute in H. discriminate. Qed.

(** ** The escaped line break of the title *)

Lemma string_ind2 (P : string -> Prop) :
  P EmptyString ->
  (forall c, P (String c EmptyString)) ->
  (forall c d t, P t -> P (String d t) -> P (String c (String d t))) ->
  forall s, P s.
Proof.
  intros H0 H1 H2 s.
  assert (H : P s /\ forall c, P (String c s)).
  { induction s as [|d t [IHt IHdt]]; split; auto. }
  exact (proj1 H).
Qed.

Lemma prefix_backslash_n (c : ascii) (t : string) :
  prefix PyStr.backslash_n (String c t)
  = Ascii.eqb c PyStr.backslash && starts_with "n" t.
Proof.
  unfold PyStr.backslash_n. cbn [prefix].
  destruct (ascii_dec PyStr.backslash c) as [<-|Hne].
  - rewrite Ascii.eqb_refl. destruct t as [|d t']; [reflexivity|].
    cbn [starts_with andb prefix]. destruct (ascii_dec "n" d) as [<-|Hne].
    + rewrite Ascii.eqb_refl. destruct t'; reflexivity.
    + destruct (Ascii.eqb_spec d "n"); [subst d; contradiction|reflexivity].
  - destruct (Ascii.eqb_spec c PyStr.backslash); [congruence|reflexivity].
Qed.

Lemma has_backslash_n_cons (c : ascii) (t : string) :
  has_backslash_n (String c t)
  = (Ascii.eqb c PyStr.backslash && starts_with "n" t) || has_backslash_n t.
Proof.
  unfold has_backslash_n. cbn [PyStr.contains]. now rewrite prefix_backslash_n.
Qed.

Lemma has_newline_cons (c : ascii) (t : string) :
  has_newline (String c t) = Ascii.eqb c PyStr.newline || has_newline t.
Proof.
  unfold has_newline, PyStr.newline_str. cbn [PyStr.contains prefix].
  destruct (ascii_dec PyStr.newline c) as [<-|Hne].
  - rewrite Ascii.eqb_refl. destruct t; reflexivity.
  - destruct (Ascii.eqb_spec c PyStr.newline); [congruence|reflexivity].
Qed.

Lemma unescape_cons (c : ascii) (t : string) :
  unescape (String c t)
  = if Ascii.eqb c PyStr.backslash && starts_with "n" t
    then String PyStr.newline (unescape (tail t))
    else String c (unescape t).
Proof.
  unfold unescape, PyStr.replace. cbn [PyStr.replace_from].
  rewrite prefix_backslash_n.
  destruct (Ascii.eqb c PyStr.backslash && starts_with "n" t) eqn:E; [|reflexivity].
  apply andb_prop in E as [_ E]. destruct t as [|d t']; [discriminate|reflexivity].
Qed.

Lemma unescape_starts_with_n (s : string) :
  starts_with "n" (unescape s) = true -> starts_with "n" s = true.
Proof.
  destruct s as [|c t]; [discriminate|]. rewrite unescape_cons.
  destruct (Ascii.eqb c PyStr.backslash && starts_with "n" t); [discriminate|auto].
Qed.

(** After the replacement no backslash followed by n is left. *)
Lemma unescape_no_backslash_n (s : string) : has_backslash_n (unescape s) = false.
Proof.
  induction s as [|c|c d t IHt IHdt] using string_ind2.
  - reflexivity.
  - rewrite unescape_cons. simpl. rewrite andb_false_r.
    rewrite has_backslash_n_cons. simpl. rewrite andb_false_r. reflexivity.
  - rewrite unescape_cons.
    destruct (Ascii.eqb c PyStr.backslash && starts_with "n" (String d t)) eqn:E.
    + cbn [tail]. rewrite has_backslash_n_cons, IHt. reflexivity.
    + rewrite has_backslash_n_cons, IHdt, orb_false_r.
      destruct (Ascii.eqb c PyStr.backslash) eqn:Ec; [|reflexivity].
      destruct (starts_with "n" (unescape (String d t))) eqn:Es; [|reflexivity].
      apply unescape_starts_with_n in Es. rewrite Es in E. discriminate.
Qed.

(** A title that holds backslash, n holds a line break after the replacement. *)
Lemma unescape_has_newline (s : string) :
  has_backslash_n s = true -> has_newline (unescape s) = true.
Proof.
  induction s as [|c|c d t IHt IHdt] using string_ind2.
  - discriminate.
  - rewrite has_backslash_n_cons. simpl. rewrite andb_false_r. discriminate.
  - rewrite has_backslash_n_cons, unescape_cons.
    destruct (Ascii.eqb c PyStr.backslash && starts_with "n" (String d t)).
    + intros _. rewrite has_newline_cons. now rewrite Ascii.eqb_refl.
    + simpl. intros H. rewrite has_newline_cons, (IHdt H). apply orb_true_r.
Qed.

Lemma split_newline_count (s : string) :
  has_newline s = true -> (2 <= List.length (PyStr.split PyStr.newline s))%nat.
Proof.
  induction s as [|c t IH]; [discriminate|].
  rewrite has_newline_cons. cbn [PyStr.split].
  pose proof (split_not_nil PyStr.newline t) as Hne.
  destruct (Ascii.eqb c PyStr.newline); simpl.
  - intros _. destruct (PyStr.split PyStr.newline t); [congruence|simpl; lia].
  - intros H. specialize (IH H).
    destruct (PyStr.split PyStr.newline t); [congruence|exact IH].
Qed.

Lemma split_head_starts_with (sep c : ascii) (s f : string) (fs : list string) :
  PyStr.split sep s = f :: fs -> starts_with c f = true -> starts_with c s = true.
Proof.
  destruct s as [|d t]; simpl.
  - intros [= <- _]. discriminate.
  - destruct (Ascii.eqb d sep).
    + intros [= <- _]. discriminate.
    + destruct (PyStr.split sep t); intros [= <- _]; auto.
Qed.

(** Cutting at line breaks cannot create a backslash followed by n. *)
Lemma split_no_backslash_n (s : string) :
  has_backslash_n s = false ->
  Forall (fun line => has_backslash_n line = false) (PyStr.split PyStr.newline s).
Proof.
  induction s as [|c t IH]; [repeat constructor|].
  rewrite has_backslash_n_cons. intros H. apply orb_false_elim in H as [Hhead Ht].
  specialize (IH Ht). cbn [PyStr.split].
  destruct (Ascii.eqb c PyStr.newline); [constructor; [reflexivity|exact IH]|].
  destruct (PyStr.split PyStr.newline t) as [|f fs] eqn:E;
    [exfalso; exact (split_not_nil _ _ E)|].
  inversion IH as [|? ? Hf Hfs]; subst. constructor; [|assumption].
  rewrite has_backslash_n_cons, Hf, orb_false_r.
  destruct (Ascii.eqb c PyStr.backslash); [|reflexivity].
  destruct (starts_with "n" f) eqn:Es; [|reflexivity].
  rewrite (@split_head_starts_with _ _ _ _ _ E Es) in Hhead. discriminate.
Qed.

(** A field of a split holds no separator: splitting it again changes nothing. *)
Lemma split_fields_whole (sep : ascii) (s : string) :
  Forall (fun field => PyStr.split sep field = [field]) (PyStr.split sep s).
Proof.
  induction s as [|c t IH]; [repeat constructor|].
  cbn [PyStr.split]. destruct (Ascii.eqb c sep) eqn:Ec; [constructor; auto|].
  destruct (PyStr.split sep t) as [|f fs] eqn:E;
    [exfalso; exact (split_not_nil _ _ E)|].
  inversion IH as [|? ? Hf Hfs]; subst. constructor; [|assumption].
  cbn [PyStr.split]. now rewrite Ec, Hf.
Qed.

Lemma split_split (sep : ascii) (s : string) :
  flat_map (PyStr.split sep) (PyStr.split sep s) = PyStr.split sep s.
Proof.
  pose proof (split_fields_whole sep s) as H.
  induction H as [|f fs Hf Hfs IH]; [reflexivity|].
  simpl. now rewrite Hf, IH.
Qed.

(** ** Which drawing calls write title lines *)

Create HintDb title.

Lemma drawn_title_emit (op : DrawOp) (st : State) :
  drawn_title (snd (emit op st)) = drawn_title st ++ title_lines_of op.
Proof.
  unfold drawn_title, title_lines_drawn, emit. simpl.
  rewrite flat_map_app. simpl. now rewrite app_nil_r.
Qed.

Lemma keeps_title_ret {A} (a : A) : keeps_title (ret a).
Proof. intros st. reflexivity. Qed.

Lemma keeps_title_raise {A} (e : exn) : keeps_title (@raise A e).
Proof. intros st. reflexivity. Qed.

Lemma keeps_title_bind {A B} (m : M A) (k : A -> M B) :
  keeps_title m -> (forall a, keeps_title (k a)) -> keeps_title (bind m k).
Proof.
  intros Hm Hk st. unfold bind. specialize (Hm st).
  destruct (m st) as [[a|e] st']; simpl in *; [|exact Hm].
  now rewrite Hk.
Qed.

Lemma keeps_title_try_except (body : M unit) (h : exn -> M unit) :
  keeps_title body -> (forall e, keeps_title (h e)) -> keeps_title (try_except body h).
Proof.
  intros Hb Hh st. unfold try_except. specialize (Hb st).
  destruct (body st) as [[a|e] st']; simpl in *; [exact Hb|].
  now rewrite Hh.
Qed.

Lemma keeps_title_emit (op : DrawOp) : title_lines_of op = [] -> keeps_title (emit op).
Proof. intros H st. rewrite drawn_title_emit, H. apply app_nil_r. Qed.

Lemma keeps_title_print (p : Printed) : keeps_title (print p).
Proof. intros st. reflexivity. Qed.

Lemma keeps_title_current_image : keeps_title current_image.
Proof. intros st. reflexivity. Qed.

Lemma keeps_title_save_png (w : World) (path : string) : keeps_title (save_png w path).
Proof.
  intros st. unfold save_png.
  destruct (has_dirname path); destruct (can_save w path); reflexivity.
Qed.

Lemma keeps_title_Image_open (w : World) (path : string) :
  keeps_title (PIL.Image_open w path).
Proof. intros st. unfold PIL.Image_open. destruct (image_open w path); reflexivity. Qed.

Lemma keeps_title_resize (p : Picture) (size : Z * Z) : keeps_title (PIL.resize p size).
Proof. intros st. unfold PIL.resize. destruct (_ || _); reflexivity. Qed.

Lemma keeps_title_paste (p : Picture) (pos : Point) : keeps_title (PIL.paste p pos).
Proof. now apply keeps_title_emit. Qed.

Lemma keeps_title_truetype (w : World) (path : string) (size : Z) :
  keeps_title (PIL.truetype w path size).
Proof.
  intros st. unfold PIL.truetype.
  destruct (size <=? 0); [reflexivity|]. destruct (font_loadable w path); reflexivity.
Qed.

Lemma keeps_title_get_montserrat (w : World) (size : Z) (weight : string) :
  keeps_title (get_montserrat w size weight).
Proof. unfold get_montserrat. destruct (path_exists w _); apply keeps_title_truetype. Qed.

Lemma keeps_title_get_merriweather (w : World) (size : Z) (italic : bool) :
  keeps_title (get_merriweather w size italic).
Proof. unfold get_merriweather. destruct (path_exists w _); apply keeps_title_truetype. Qed.

Lemma keeps_title_amber_text (pos : Point) (text : string) (font : Font) :
  keeps_title (emit (Text pos text font amber_canva)).
Proof. now apply keeps_title_emit. Qed.

Lemma keeps_title_line (p q : Point) (fill : Color) (width : Z) :
  keeps_title (emit (Line p q fill width)).
Proof. now apply keeps_title_emit. Qed.

#[local] Hint Resolve keeps_title_ret keeps_title_raise keeps_title_bind
  keeps_title_try_except keeps_title_print keeps_title_current_image
  keeps_title_save_png keeps_title_Image_open keeps_title_resize keeps_title_paste
  keeps_title_truetype keeps_title_get_montserrat keeps_title_get_merriweather
  keeps_title_amber_text keeps_title_line : title.

Lemma keeps_title_for_each {A} (items : list A) (body : A -> M unit) :
  (forall x, keeps_title (body x)) -> keeps_title (for_each items body).
Proof. intros H. induction items; simpl; auto with title. Qed.

Lemma keeps_title_draw_icon (icon_type : string) (x y size : Z) (color : Color) :
  keeps_title (draw_icon icon_type x y size color).
Proof.
  unfold draw_icon.
  destruct (String.eqb icon_type "calendar");
    [|destruct (String.eqb icon_type "clock");
      [|destruct (String.eqb icon_type "location")]];
    cbv zeta;
    repeat first [ apply keeps_title_bind; [|intros _]
                 | apply keeps_title_for_each; intros ?
                 | apply keeps_title_emit; reflexivity
                 | apply keeps_title_ret ].
Qed.

Lemma keeps_title_amber_lines (x y step : Z) (lines : list string) (font : Font) :
  keeps_title (draw_text_lines x y step lines font amber_canva).
Proof. revert y. induction lines; intros y; simpl; auto with title. Qed.

#[local] Hint Resolve keeps_title_draw_icon keeps_title_amber_lines : title.

Lemma adds_title_bind_l {A B} (m : M A) (k : A -> M B) (lines : list string) :
  keeps_title m -> (forall a, adds_title (k a) lines) -> adds_title (bind m k) lines.
Proof.
  intros Hm Hk st. unfold bind. specialize (Hm st).
  destruct (m st) as [[a|e] st']; simpl in *; [|exact I].
  specialize (Hk a st'). rewrite Hm in Hk. exact Hk.
Qed.

Lemma adds_title_bind_r {A B} (m : M A) (k : A -> M B) (lines : list string) :
  adds_title m lines -> (forall a, keeps_title (k a)) -> adds_title (bind m k) lines.
Proof.
  intros Hm Hk st. unfold bind. specialize (Hm st).
  destruct (m st) as [[a|e] st']; simpl in *; [|exact I].
  destruct (fst (k a st')) eqn:E; [|exact I]. now rewrite Hk.
Qed.

Lemma adds_title_black_text (pos : Point) (text : string) (font : Font) :
  adds_title (emit (Text pos text font black)) (PyStr.split PyStr.newline text).
Proof. intros st. simpl fst. now rewrite drawn_title_emit. Qed.

Lemma adds_title_black_lines (x y step : Z) (lines : list string) (font : Font) :
  adds_title (draw_text_lines x y step lines font black)
             (flat_map (PyStr.split PyStr.newline) lines).
Proof.
  revert y. induction lines as [|line rest IH]; intros y st.
  - simpl. now rewrite app_nil_r.
  - cbn [draw_text_lines flat_map]. unfold bind.
    pose proof (drawn_title_emit (Text (x, y) line font black) st) as He.
    destruct (emit (Text (x, y) line font black) st) as [[[]|e] st'] eqn:E;
      [|discriminate E].
    simpl in He. specialize (IH (y + step) st').
    destruct (fst (draw_text_lines x (y + step) step rest font black st')); [|exact I].
    rewrite IH, He. now rewrite app_assoc.
Qed.

(** Every layout draws, as title lines, the title cut at its line breaks
    after the replacement of backslash, n. *)
Ltac title_steps :=
  cbv zeta;
  repeat first
    [ apply adds_title_bind_r;
      [ first [ apply adds_title_black_text | apply adds_title_black_lines ]
      | intros; auto 40 with title ]
    | apply adds_title_bind_l;
      [ solve [ auto 20 with title
              | destruct (_ && _); auto 20 with title ]
      | intros ] ].

Section TitleLines.

Variable w : World.
Variables title date time location : string.
Variable illustration_path : option string.

Lemma ppt_layout_title (width height scale : Z) :
  adds_title (create_ppt_layout w title date time location illustration_path
                                width height scale)
             (PyStr.split PyStr.newline (unescape title)).
Proof. unfold create_ppt_layout. title_steps. Qed.

Lemma ig_story_layout_title (width height : Z) :
  adds_title (create_ig_story_layout w title date time location illustration_path
                                     width height)
             (PyStr.split PyStr.newline (unescape title)).
Proof.
  unfold create_ig_story_layout. rewrite <- (split_split PyStr.newline (unescape title)).
  title_steps.
Qed.

Lemma ig_post_layout_title (width height : Z) :
  adds_title (create_ig_post_layout w title date time location illustration_path
                                    width height)
             (PyStr.split PyStr.newline (unescape title)).
Proof.
  unfold create_ig_post_layout. rewrite <- (split_split PyStr.newline (unescape title)).
  title_steps.
Qed.

Lemma fb_post_layout_title (width height : Z) :
  adds_title (create_fb_post_layout w title date time location illustration_path
                                    width height)
             (PyStr.split PyStr.newline (unescape title)).
Proof.
  unfold create_fb_post_layout. rewrite <- (split_split PyStr.newline (unescape title)).
  title_steps.
Qed.

End TitleLines.

Lemma render_title_lines (w : World) (title date time location : string)
      (illustration_path : option string) (f : string) (output_path : option string)
      (scale : Z) (st : State) (canvas : Canvas) :
  fst (create_event_graphic w title date time location illustration_path f
                            output_path scale st) = Ok canvas ->
  title_lines_drawn (c_ops canvas) = PyStr.split PyStr.newline (unescape title).
Proof.
  unfold create_event_graphic.
  destruct (match dict_get FORMATS f with Some dims => dims | None => (1024, 768) end)
    as [base_width base_height].
  set (layout := if String.eqb f "instagram_story" then _ else _).
  set (saving := if truthy output_path then _ else _).
  assert (Hlayout : adds_title layout (PyStr.split PyStr.newline (unescape title))).
  { subst layout.
    destruct (String.eqb f "instagram_story"); [apply ig_story_layout_title|].
    destruct (String.eqb f "instagram_post"); [apply ig_post_layout_title|].
    destruct (String.eqb f "facebook_post"); [apply fb_post_layout_title|].
    apply ppt_layout_title. }
  assert (Hsaving : keeps_title saving).
  { subst saving. destruct (truthy output_path); auto with title. }
  clearbody layout saving.
  unfold bind, PIL.Image_new, current_image.
  destruct (_ || _); [discriminate|].
  match goal with |- context [layout ?s0] => set (st0 := s0) end.
  specialize (Hlayout st0). destruct (layout st0) as [[[]|e] st1]; [|discriminate].
  specialize (Hsaving st1). destruct (saving st1) as [[[]|e] st2]; [|discriminate].
  simpl in *. intros [= <-]. unfold drawn_title in *. rewrite Hsaving, Hlayout.
  reflexivity.
Qed.

(** C10. In every format, when a render succeeds, the title lines on the
    canvas are the title with each backslash followed by n replaced by a
    line break, cut at its line breaks.  So no title line holds a backslash
    followed by n, and a title that holds one is drawn as two lines or
    more. *)
Theorem escaped_line_break_becomes_line_break (w : World)
        (title date time location : string) (illustration_path : option string)
        (f : string) (output_path : option string) (scale : Z) (st : State)
        (canvas : Canvas) :
  fst (create_event_graphic w title date time location illustration_path f
                            output_path scale st) = Ok canvas ->
  title_lines_drawn (c_ops canvas) = PyStr.split PyStr.newline (unescape title)
  /\ Forall (fun line => has_backslash_n line = false) (title_lines_drawn (c_ops canvas))
  /\ (has_backslash_n title = true ->
      (2 <= List.length (title_lines_drawn (c_ops canvas)))%nat).
Proof.
  intros Hok. rewrite (render_title_lines _ _ _ _ _ _ _ _ _ _ Hok).
  split; [reflexivity|]. split.
  - apply split_no_backslash_n, unescape_no_backslash_n.
  - intros H. now apply split_newline_count, unescape_has_newline.
Qed.

(** ** Scale linearity *)

Lemma iscale_base (c s : Z) (b : positive) :
  iscale c (py_truediv (Zpos b * s) (Zpos b)) = c * s.
Proof.
  unfold iscale, py_truediv, py_int, Qdiv, Qinv, Qmult, inject_Z.
  cbn [Qnum Qden Pos.mul].
  replace (c * (Z.pos b * s * 1)) with (c * s * Z.pos b) by ring.
  apply Z.quot_mul. discriminate.
Qed.

(** The floor of a scaled quantity is the scaled floor up to one unit. *)
Lemma floor_scaled (s1 s2 n1 n2 d : Z) :
  0 < s1 -> 0 < s2 -> 0 < d -> exact s1 s2 n1 n2 ->
  - s1 < s1 * (n2 / d) - s2 * (n1 / d) < s2.
Proof.
  unfold exact. intros H1 H2 Hd He.
  pose proof (Z.mul_div_le n1 d Hd). pose proof (Z.mul_div_le n2 d Hd).
  pose proof (Z.mul_succ_div_gt n1 d Hd). pose proof (Z.mul_succ_div_gt n2 d Hd).
  nia.
Qed.

Lemma matched_of_Forall2 (R : DrawOp -> DrawOp -> Prop) (l1 l2 : list DrawOp) :
  Forall2 R l1 l2 -> matched R l1 l2.
Proof.
  intros H. induction H as [|a b l1 l2 Hab H IH].
  - intros i o1 o2 H1 _. destruct i; discriminate.
  - intros [|i] o1 o2; simpl; [intros [= <-] [= <-]; exact Hab|apply IH].
Qed.

Lemma matched_app_l (R : DrawOp -> DrawOp -> Prop) (l1 l2 extra : list DrawOp) :
  Forall2 R l1 l2 -> matched R (l1 ++ extra) l2.
Proof.
  intros H. induction H as [|a b l1 l2 Hab H IH].
  - intros i o1 o2 _ H2. destruct i; discriminate.
  - intros [|i] o1 o2; simpl; [intros [= <-] [= <-]; exact Hab|apply IH].
Qed.

Lemma matched_app_r (R : DrawOp -> DrawOp -> Prop) (l1 l2 extra : list DrawOp) :
  Forall2 R l1 l2 -> matched R l1 (l2 ++ extra).
Proof.
  intros H. induction H as [|a b l1 l2 Hab H IH].
  - intros i o1 o2 H1 _. destruct i; discriminate.
  - intros [|i] o1 o2; simpl; [intros [= <-] [= <-]; exact Hab|apply IH].
Qed.

Lemma scaled_prefix_of_scaled_st (s1 s2 : Z) (st1 st2 : State) :
  scaled_st s1 s2 st1 st2 -> scaled_prefix s1 s2 st1 st2.
Proof.
  intros [Hw [Hh Hops]]. repeat split; auto. now apply matched_of_Forall2.
Qed.

Section Scaling.

Variables s1 s2 : Z.
Hypothesis Hs1 : 0 < s1.
Hypothesis Hs2 : 0 < s2.

Local Abbreviation P := (scaled_st s1 s2).

Lemma exact_mul (c : Z) : exact s1 s2 (c * s1) (c * s2).
Proof. unfold exact. ring. Qed.

Lemma exact_sign (v1 v2 : Z) : exact s1 s2 v1 v2 -> (v1 <= 0 <-> v2 <= 0).
Proof. unfold exact. intros H. split; intros; nia. Qed.

Lemma exact_step (y1 y2 d1 d2 : Z) :
  exact s1 s2 y1 y2 -> exact s1 s2 d1 d2 -> exact s1 s2 (y1 + d1) (y2 + d2).
Proof. unfold exact. intros. nia. Qed.

Lemma near_of_exact (k v1 v2 : Z) : 0 < k -> exact s1 s2 v1 v2 -> near k s1 s2 v1 v2.
Proof. unfold exact, near. intros Hk H. rewrite H. nia. Qed.

Lemma scaled_emit (o1 o2 : DrawOp) :
  op_scaled s1 s2 o1 o2 -> related P (emit o1) (emit o2) any P.
Proof.
  intros Ho st1 st2 [Hw [Hh Hops]]. split; [exact I|].
  unfold emit, scaled_st. simpl. repeat split; auto.
  apply Forall2_app; auto.
Qed.

Lemma scaled_print (p q : Printed) : related P (print p) (print q) any P.
Proof. intros st1 st2 H. split; [exact I|exact H]. Qed.

Lemma scaled_ret_tt : related P (ret tt) (ret tt) any P.
Proof. now apply related_ret. Qed.

Lemma scaled_Image_open (w : World) (path : string) :
  related P (PIL.Image_open w path) (PIL.Image_open w path) eq P.
Proof.
  unfold PIL.Image_open. destruct (image_open w path);
    [now apply related_ret|apply related_raise].
Qed.

Lemma scaled_resize (p : Picture) (size1 size2 : Z * Z) :
  pt (exact s1 s2) size1 size2 ->
  related P (PIL.resize p size1) (PIL.resize p size2) (pic_scaled s1 s2) P.
Proof.
  intros [Hx Hy]. unfold PIL.resize.
  pose proof (exact_sign Hx). pose proof (exact_sign Hy).
  destruct (Z.ltb_spec (fst size1) 1), (Z.ltb_spec (fst size2) 1),
           (Z.ltb_spec (snd size1) 1), (Z.ltb_spec (snd size2) 1);
    simpl; try lia; try apply related_raise.
  apply related_ret. repeat split; assumption.
Qed.

Lemma scaled_alpha (p1 p2 : Picture) (opacity : Q) :
  pic_scaled s1 s2 p1 p2 ->
  pic_scaled s1 s2 (PIL.scale_alpha p1 opacity) (PIL.scale_alpha p2 opacity).
Proof. intros [Hsrc [Ha Hsz]]. unfold PIL.scale_alpha. repeat split; simpl; try apply Hsz; congruence. Qed.

Lemma scaled_paste (p1 p2 : Picture) (pos1 pos2 : Point) :
  pic_scaled s1 s2 p1 p2 -> pt (exact s1 s2) pos1 pos2 ->
  related P (PIL.paste p1 pos1) (PIL.paste p2 pos2) any P.
Proof. intros Hp Hpos. apply scaled_emit. split; assumption. Qed.

Lemma scaled_truetype (w : World) (path : string) (size1 size2 : Z) :
  exact s1 s2 size1 size2 ->
  related P (PIL.truetype w path size1) (PIL.truetype w path size2)
          (font_scaled s1 s2) P.
Proof.
  intros He. unfold PIL.truetype. pose proof (exact_sign He).
  destruct (Z.leb_spec size1 0), (Z.leb_spec size2 0); try lia;
    [apply related_raise|].
  destruct (font_loadable w path); [|apply related_raise].
  apply related_ret. split; [reflexivity|exact He].
Qed.

Lemma scaled_get_montserrat (w : World) (size1 size2 : Z) (weight : string) :
  exact s1 s2 size1 size2 ->
  related P (get_montserrat w size1 weight) (get_montserrat w size2 weight)
          (font_scaled s1 s2) P.
Proof.
  intros He. unfold get_montserrat.
  destruct (path_exists w _); now apply scaled_truetype.
Qed.

Lemma scaled_get_merriweather (w : World) (size1 size2 : Z) (italic : bool) :
  exact s1 s2 size1 size2 ->
  related P (get_merriweather w size1 italic) (get_merriweather w size2 italic)
          (font_scaled s1 s2) P.
Proof.
  intros He. unfold get_merriweather.
  destruct (path_exists w _); now apply scaled_truetype.
Qed.

(** The same lines drawn at both scales. *)
Lemma scaled_draw_text_lines (lines : list string) (fill : Color) :
  forall x1 x2 y1 y2 step1 step2 f1 f2,
    exact s1 s2 x1 x2 -> exact s1 s2 y1 y2 -> exact s1 s2 step1 step2 ->
    font_scaled s1 s2 f1 f2 ->
    related P (draw_text_lines x1 y1 step1 lines f1 fill)
            (draw_text_lines x2 y2 step2 lines f2 fill) any P.
Proof.
  induction lines as [|line rest IH]; intros x1 x2 y1 y2 step1 step2 f1 f2 Hx Hy Hstep Hf.
  - apply scaled_ret_tt.
  - cbn [draw_text_lines].
    apply related_bind with (RA := any) (Q := P); [| |auto].
    + apply scaled_emit. repeat split; assumption || apply Hf.
    + intros _ _ _. apply IH; auto using exact_step.
Qed.

(** Drawing lines changes nothing but the list of drawing calls, and
    always returns. *)
Lemma draw_text_lines_appends (lines : list string) (fill : Color) :
  forall x y step font st,
  exists extra,
    draw_text_lines x y step lines font fill st
    = (Ok tt, mkState (mkCanvas (c_width (img st)) (c_height (img st))
                                (c_background (img st)) (c_ops (img st) ++ extra))
                      (stdout st) (disk st)).
Proof.
  induction lines as [|line rest IH]; intros x y step font st.
  - exists []. simpl. rewrite app_nil_r. destruct st as [[? ? ? ?] ? ?]. reflexivity.
  - cbn [draw_text_lines]. unfold bind. simpl.
    destruct (IH x (y + step) step font
                 (mkState (mkCanvas (c_width (img st)) (c_height (img st))
                                    (c_background (img st))
                                    (c_ops (img st) ++ [Text (x, y) line font fill]))
                          (stdout st) (disk st))) as [extra He].
    rewrite He. simpl. rewrite <- app_assoc. eexists. reflexivity.
Qed.

(** Lines that may differ from one scale to the other, as the wrapped
    location does: the calls match as far as both go. *)
Lemma scaled_wrapped_lines (fill : Color) (lines1 : list string) :
  forall lines2 x1 x2 y1 y2 step1 step2 f1 f2,
    exact s1 s2 x1 x2 -> exact s1 s2 y1 y2 -> exact s1 s2 step1 step2 ->
    font_scaled s1 s2 f1 f2 ->
    related P (draw_text_lines x1 y1 step1 lines1 f1 fill)
            (draw_text_lines x2 y2 step2 lines2 f2 fill) any (scaled_prefix s1 s2).
Proof.
  induction lines1 as [|line1 rest1 IH];
    intros [|line2 rest2] x1 x2 y1 y2 step1 step2 f1 f2 Hx Hy Hstep Hf.
  - eapply related_weaken; [apply scaled_ret_tt|auto|apply scaled_prefix_of_scaled_st].
  - intros st1 st2 [Hw [Hh Hops]].
    destruct (draw_text_lines_appends (line2 :: rest2) fill x2 y2 step2 f2 st2)
      as [extra ->].
    split; [exact I|]. repeat split; simpl; auto. now apply matched_app_r.
  - intros st1 st2 [Hw [Hh Hops]].
    destruct (draw_text_lines_appends (line1 :: rest1) fill x1 y1 step1 f1 st1)
      as [extra ->].
    split; [exact I|]. repeat split; simpl; auto. now apply matched_app_l.
  - cbn [draw_text_lines].
    apply related_bind with (RA := any) (Q := P);
      [| |apply scaled_prefix_of_scaled_st].
    + apply scaled_emit. repeat split; assumption || apply Hf.
    + intros _ _ _. apply IH; auto using exact_step.
Qed.

End Scaling.


Section IconScaling.

Variables s1 s2 : Z.
Hypothesis Hs1 : 0 < s1.
Hypothesis Hs2 : 0 < s2.

Ltac floor_fact n1 n2 d :=
  let H := fresh "Hfloor" in
  assert (H : - s1 < s1 * (n2 / d) - s2 * (n1 / d) < s2)
    by (apply floor_scaled; [assumption|assumption|reflexivity|unfold exact in *; nia]).

Lemma scaled_draw_icon (icon_type : string) (color : Color)
      (x1 x2 y1 y2 size1 size2 : Z) :
  exact s1 s2 x1 x2 -> exact s1 s2 y1 y2 -> exact s1 s2 size1 size2 ->
  24 <= size1 -> 24 <= size2 ->
  related (scaled_st s1 s2) (draw_icon icon_type x1 y1 size1 color)
          (draw_icon icon_type x2 y2 size2 color) any (scaled_st s1 s2).
Proof.
  intros Hx Hy Hsize Hmin1 Hmin2.
  assert (Hw1' : 1 < size1 / 12)
    by (apply Z.lt_le_trans with (24 / 12); [reflexivity|apply Z.div_le_mono; lia]).
  assert (Hw2' : 1 < size2 / 12)
    by (apply Z.lt_le_trans with (24 / 12); [reflexivity|apply Z.div_le_mono; lia]).
  assert (Hw1 : Z.max 2 (size1 / 12) = size1 / 12) by (apply Z.max_r; lia).
  assert (Hw2 : Z.max 2 (size2 / 12) = size2 / 12) by (apply Z.max_r; lia).
  unfold draw_icon. rewrite Hw1, Hw2. clear Hw1 Hw2.
  floor_fact size1 size2 12. floor_fact size1 size2 5. floor_fact size1 size2 3.
  floor_fact size1 size2 4. floor_fact (size1 * 3) (size2 * 3) 4.
  floor_fact size1 size2 8. floor_fact (1 * size1) (1 * size2) 5.
  floor_fact (2 * size1) (2 * size2) 5. floor_fact (1 * size1) (1 * size2) 4.
  floor_fact (2 * size1) (2 * size2) 4. floor_fact (3 * size1) (3 * size2) 4.
  floor_fact size1 size2 10. floor_fact size1 size2 2. floor_fact size1 size2 6.
  (cbv zeta; cbn [for_each]).
  clear Hmin1 Hmin2. unfold exact in Hx, Hy, Hsize.
  repeat match goal with
         | H : context [?n / ?d] |- _ =>
             let q := fresh "q" in set (q := n / d) in *; clearbody q
         end.
  (destruct (String.eqb icon_type "calendar");
    [|destruct (String.eqb icon_type "clock");
      [|destruct (String.eqb icon_type "location")]];
    repeat lazymatch goal with
      | |- related _ (ret _) (ret _) _ _ => apply scaled_ret_tt
      | |- related _ (emit _) (emit _) _ _ => apply scaled_emit
      | |- related _ (bind _ _) (bind _ _) _ _ =>
          apply related_bind with (RA := any) (Q := scaled_st s1 s2);
          [ | intros _ _ _ | intros ? ? HQ; exact HQ ]
      end).
  all: unfold op_scaled, pt, stroke_scaled, near, exact; cbn [fst snd].
  all: repeat match goal with
         | |- _ /\ _ => split
         | |- Forall2 _ _ _ => constructor
         | |- @eq Color _ _ => reflexivity
         end.
  all: cbn [fst snd]; lia.
Qed.

End IconScaling.

Section LayoutScaling.

Variables s1 s2 : Z.
Hypothesis Hs1 : 0 < s1.
Hypothesis Hs2 : 0 < s2.

Variable w : World.
Variables title date time location : string.
Variable illustration_path : option string.

Ltac scale_arith :=
  unfold op_scaled, pic_scaled, font_scaled, pt, stroke_scaled, near, exact in *;
  cbn [fst snd pic_source pic_alpha pic_size PIL.scale_alpha] in *;
  repeat match goal with
         | |- _ /\ _ => split
         | |- @eq Color _ _ => reflexivity
         end;
  first [ assumption | tauto | congruence | lia | solve [intuition congruence] ].

Ltac scale_steps :=
  lazymatch goal with
  | |- related _ (bind _ _) (bind _ _) _ _ =>
      eapply related_bind with (Q := scaled_st s1 s2);
      [ scale_steps
      | let H := fresh "Hrel" in
        intros ? ? H;
        lazymatch type of H with _ = _ => subst | _ => idtac end;
        scale_steps
      | let H := fresh "HQ" in
        intros ? ? H;
        first [ exact H | exact (scaled_prefix_of_scaled_st H) ] ]
  | |- related _ (if ?c then _ else _) (if ?c then _ else _) _ _ =>
      destruct c; scale_steps
  | |- related _ (try_except _ _) (try_except _ _) _ _ =>
      apply related_try_except; [ scale_steps | intros ?; scale_steps ]
  | |- related _ (ret _) (ret _) _ _ => apply scaled_ret_tt
  | |- related _ (print _) (print _) _ _ => apply scaled_print
  | |- related _ (emit _) (emit _) _ _ => apply scaled_emit; scale_arith
  | |- related _ (PIL.Image_open _ _) (PIL.Image_open _ _) _ _ =>
      apply scaled_Image_open
  | |- related _ (PIL.resize _ _) (PIL.resize _ _) _ _ =>
      apply scaled_resize; [assumption|assumption|scale_arith]
  | |- related _ (PIL.paste _ _) (PIL.paste _ _) _ _ =>
      apply scaled_paste; scale_arith
  | |- related _ (get_montserrat _ _ _) (get_montserrat _ _ _) _ _ =>
      apply scaled_get_montserrat; [assumption|assumption|scale_arith]
  | |- related _ (get_merriweather _ _ _) (get_merriweather _ _ _) _ _ =>
      apply scaled_get_merriweather; [assumption|assumption|scale_arith]
  | |- related _ (draw_icon _ _ _ _ _) (draw_icon _ _ _ _ _) _ _ =>
      apply scaled_draw_icon; [assumption|assumption|scale_arith..]
  | |- related _ (draw_text_lines _ _ _ _ _ _) (draw_text_lines _ _ _ _ _ _) _
               (scaled_st _ _) =>
      apply scaled_draw_text_lines; scale_arith
  | |- related _ (draw_text_lines _ _ _ _ _ _) (draw_text_lines _ _ _ _ _ _) _
               (scaled_prefix _ _) =>
      apply scaled_wrapped_lines; scale_arith
  end.

Lemma ppt_layout_scaled (width1 height1 width2 height2 : Z) :
  related (scaled_st s1 s2)
    (create_ppt_layout w title date time location illustration_path width1 height1 s1)
    (create_ppt_layout w title date time location illustration_path width2 height2 s2)
    any (scaled_st s1 s2).
Proof. unfold create_ppt_layout. cbv zeta. scale_steps. Qed.

Lemma ig_story_layout_scaled (height1 height2 : Z) :
  related (scaled_st s1 s2)
    (create_ig_story_layout w title date time location illustration_path
                            (1080 * s1) height1)
    (create_ig_story_layout w title date time location illustration_path
                            (1080 * s2) height2)
    any (scaled_prefix s1 s2).
Proof.
  unfold create_ig_story_layout. cbv zeta. rewrite !iscale_base. scale_steps.
Qed.

Lemma ig_post_layout_scaled (height1 height2 : Z) :
  related (scaled_st s1 s2)
    (create_ig_post_layout w title date time location illustration_path
                           (1080 * s1) height1)
    (create_ig_post_layout w title date time location illustration_path
                           (1080 * s2) height2)
    any (scaled_prefix s1 s2).
Proof.
  unfold create_ig_post_layout. cbv zeta. rewrite !iscale_base. scale_steps.
Qed.

Lemma fb_post_layout_scaled (height1 height2 : Z) :
  related (scaled_st s1 s2)
    (create_fb_post_layout w title date time location illustration_path
                           (1200 * s1) height1)
    (create_fb_post_layout w title date time location illustration_path
                           (1200 * s2) height2)
    any (scaled_prefix s1 s2).
Proof.
  unfold create_fb_post_layout. cbv zeta. rewrite !iscale_base. scale_steps.
Qed.

End LayoutScaling.

Section RenderScaling.

Variables s1 s2 : Z.
Hypothesis Hs1 : 0 < s1.
Hypothesis Hs2 : 0 < s2.

Variable w : World.
Variables title date time location : string.
Variable illustration_path : option string.
Variable output_path : option string.

Lemma scaled_Image_new (base_width base_height : Z) (color : Color) :
  0 < base_width -> 0 < base_height ->
  related any (PIL.Image_new (base_width * s1) (base_height * s1) color)
          (PIL.Image_new (base_width * s2) (base_height * s2) color)
          any (scaled_st s1 s2).
Proof.
  intros Hw Hh st1 st2 _. unfold PIL.Image_new.
  destruct (Z.ltb_spec (base_width * s1) 0); [nia|].
  destruct (Z.ltb_spec (base_height * s1) 0); [nia|].
  destruct (Z.ltb_spec (base_width * s2) 0); [nia|].
  destruct (Z.ltb_spec (base_height * s2) 0); [nia|].
  simpl. split; [exact I|]. unfold scaled_st, exact. simpl.
  repeat split; try ring. constructor.
Qed.

(** Saving and returning the image leave the canvas as it is. *)
Lemma scaled_saving (width1 height1 width2 height2 : Z) :
  related (scaled_prefix s1 s2)
    (bind (if truthy output_path
           then bind (save_png w (path_of output_path))
                     (fun _ => print (Saved (path_of output_path) width1 height1))
           else ret tt)
          (fun _ => current_image))
    (bind (if truthy output_path
           then bind (save_png w (path_of output_path))
                     (fun _ => print (Saved (path_of output_path) width2 height2))
           else ret tt)
          (fun _ => current_image))
    any (scaled_prefix s1 s2).
Proof.
  intros st1 st2 H. unfold bind, save_png, print, current_image, ret.
  destruct (truthy output_path);
    [destruct (has_dirname (path_of output_path));
     [destruct (can_save w (path_of output_path))|]|];
    simpl; split; try exact I; try reflexivity; exact H.
Qed.

Ltac render_at_format base_width base_height layout_lemma :=
  unfold create_event_graphic;
  match goal with
  | |- context [dict_get FORMATS ?f] =>
      change (dict_get FORMATS f) with (Some (base_width, base_height))
  end;
  cbv iota beta;
  repeat match goal with
         | |- context [String.eqb ?a ?b] =>
             let v := eval vm_compute in (String.eqb a b) in
             change (String.eqb a b) with v
         end;
  cbv iota;
  apply related_bind with (RA := any) (Q := scaled_st s1 s2);
  [ apply scaled_Image_new; reflexivity
  | intros _ _ _;
    apply related_bind with (RA := any) (Q := scaled_prefix s1 s2);
    [ layout_lemma
    | intros _ _ _; apply scaled_saving
    | auto ]
  | apply scaled_prefix_of_scaled_st ].

Lemma render_scaled (f : string) :
  related any
    (create_event_graphic w title date time location illustration_path f
                          output_path s1)
    (create_event_graphic w title date time location illustration_path f
                          output_path s2)
    any (scaled_prefix s1 s2).
Proof.
  destruct (format_cases f) as [->|[->|[->|Hppt]]]; [| | |rewrite !Hppt].
  - render_at_format 1080 1920 ltac:(now apply ig_story_layout_scaled).
  - render_at_format 1080 1080 ltac:(now apply ig_post_layout_scaled).
  - render_at_format 1200 630 ltac:(now apply fb_post_layout_scaled).
  - render_at_format 1024 768
      ltac:(eapply related_weaken;
            [ now apply ppt_layout_scaled
            | auto
            | apply scaled_prefix_of_scaled_st ]).
Qed.

End RenderScaling.




(** Between the same two renders the tip of the hour hand of the clock is
    also 2 pixels away from three times its place at scale 1: the rounding
    of [size // 4] at scale 1 is multiplied by 3. *)
Lemma clock_hand_rounding_is_amplified :
  exists o1 o2,
    nth_error (c_ops (img (snd (create_event_graphic studio "La Mesa\nAbierta"
                "Viernes 9 de Enero" "19:00 hrs" "Iglesia San Andres" None
                "ppt_4_3" None 1 initial)))) 16 = Some o1
    /\ nth_error (c_ops (img (snd (create_event_graphic studio "La Mesa\nAbierta"
                "Viernes 9 de Enero" "19:00 hrs" "Iglesia San Andres" None
                "ppt_4_3" None 3 initial)))) 16 = Some o2
    /\ o1 = Line (96, 518) (96, 508) amber_canva 3
    /\ o2 = Line (289, 1555) (289, 1526) amber_canva 9
    /\ ~ within_one_pixel 1 3 508 1526.
Proof.
  exists (Line (96, 518) (96, 508) amber_canva 3).
  exists (Line (289, 1555) (289, 1526) amber_canva 9).
  split; [vm_compute; reflexivity|]. split; [vm_compute; reflexivity|].
  split; [reflexivity|]. split; [reflexivity|].
  unfold within_one_pixel. vm_compute. intros H. apply H. reflexivity.
Qed.

Lemma escaped_line_break_becomes_line_break_witness :
  let canvas :=
    img (snd (create_event_graphic studio "La Mesa\nAbierta" "Viernes 9 de Enero"
                "19:00 hrs" "Iglesia San Andres" None "ppt_4_3" None 2 initial)) in
  title_lines_drawn (c_ops canvas)
  = PyStr.split PyStr.newline (unescape "La Mesa\nAbierta")
  /\ Forall (fun line => has_backslash_n line = false) (title_lines_drawn (c_ops canvas))
  /\ (has_backslash_n "La Mesa\nAbierta" = true ->
      (2 <= List.length (title_lines_drawn (c_ops canvas)))%nat).
Proof.
  apply (@escaped_line_break_becomes_line_break studio "La Mesa\nAbierta"
           "Viernes 9 de Enero" "19:00 hrs" "Iglesia San Andres" None "ppt_4_3" None 2
           initial).
  vm_compute. reflexivity.
Defined.

(** * Further properties of the code *)

(** ** The text wrapper, with a measure that grows with the text *)

Lemma length_append (a b : string) :
  String.length (String.append a b) = (String.length a + String.length b)%nat.
Proof. induction a; simpl; congruence. Qed.

(** Measuring by character count is monotone. *)
Lemma char_count_monotone (font : Font) :
  0 <= font_size font -> monotone_width char_count_bbox font.
Proof.
  intros Hs a b. unfold text_width, char_count_bbox.
  rewrite !length_append. simpl String.length. split; nia.
Qed.

Section WrapMonotone.

Variable tb : Font -> string -> BBox.
Variable font : Font.
Variable max_width : Z.
Hypothesis monotone : monotone_width tb font.

Lemma join_snoc_width (cur : list string) (word : string) :
  cur <> [] ->
  text_width tb font (PyStr.join " " cur)
  <= text_width tb font (PyStr.join " " (cur ++ [word]))
  /\ text_width tb font word <= text_width tb font (PyStr.join " " (cur ++ [word])).
Proof. intros H. rewrite join_snoc by assumption. apply monotone. Qed.

Lemma wide_words_step (seen : list string) (st : list string * list string)
      (word : string) :
  wide_words_alone tb font max_width seen st ->
  wide_words_alone tb font max_width (seen ++ [word])
                   (wrap_step tb font max_width st word).
Proof.
  destruct st as [lines cur]. unfold wide_words_alone, wrap_step. cbn [fst snd].
  intros Inv.
  destruct (Z.leb_spec (text_width tb font (PyStr.join " " (cur ++ [word]))) max_width)
    as [Hfit|Hwide]; cbn [fst snd]; intros x Hin Hx.
  - left. destruct cur as [|c cur'].
    + apply in_app_or in Hin as [Hin|[<-|[]]].
      * destruct (Inv x Hin Hx) as [H|H]; [exact H|discriminate].
      * cbn [app] in Hfit. rewrite join_single in Hfit. lia.
    + destruct (@join_snoc_width (c :: cur') word) as [Hcur Hword]; [discriminate|].
      apply in_app_or in Hin as [Hin|[<-|[]]]; [|lia].
      destruct (Inv x Hin Hx) as [H|H]; [exact H|].
      injection H as -> ->. rewrite join_single in Hcur. lia.
  - apply in_app_or in Hin as [Hin|[<-|[]]]; [|now right].
    left. destruct (Inv x Hin Hx) as [H|H].
    + destruct cur; simpl; [exact H|]. apply in_or_app. now left.
    + rewrite H. simpl. apply in_or_app. right. now left.
Qed.

Lemma wide_words_loop (words seen : list string) (st : list string * list string) :
  wide_words_alone tb font max_width seen st ->
  wide_words_alone tb font max_width (seen ++ words)
                   (wrap_loop tb font max_width words st).
Proof.
  revert seen st. induction words as [|word rest IH]; intros seen st Inv.
  - rewrite app_nil_r. exact Inv.
  - rewrite wrap_loop_cons.
    replace (seen ++ word :: rest) with ((seen ++ [word]) ++ rest)
      by (rewrite <- app_assoc; reflexivity).
    apply IH, wide_words_step, Inv.
Qed.

(** X1. When the measure never shrinks as words are added, every word of
    the text that is wider than [max_width] is a line of the result, alone
    and whole. *)
Theorem wide_word_is_a_line (text word : string) :
  In word (PyStr.split PyStr.space text) ->
  max_width < text_width tb font word ->
  In word (wrap_text tb text font max_width).
Proof.
  intros Hin Hwide. unfold wrap_text.
  pose proof (@wide_words_loop (PyStr.split PyStr.space text) [] ([], [])) as H.
  simpl app in H.
  destruct (wrap_loop tb font max_width (PyStr.split PyStr.space text) ([], []))
    as [lines cur].
  destruct (H (fun x Hx => match Hx with end) word Hin Hwide) as [Hl|Hc]; simpl in *.
  - destruct cur; simpl; [exact Hl|]. apply in_or_app. now left.
  - subst cur. simpl. apply in_or_app. right. now left.
Qed.

(** While every line tried fits, the loop closes no line. *)
Lemma wrap_loop_all_fit (todo done : list string) :
  (forall pre suf, done ++ todo = pre ++ suf -> pre <> [] ->
                   (List.length done < List.length pre)%nat ->
                   text_width tb font (PyStr.join " " pre) <= max_width) ->
  wrap_loop tb font max_width todo ([], done) = ([], done ++ todo).
Proof.
  revert done. induction todo as [|word rest IH]; intros done H.
  - now rewrite app_nil_r.
  - rewrite wrap_loop_cons. unfold wrap_step.
    assert (Hfit : text_width tb font (PyStr.join " " (done ++ [word])) <= max_width).
    { apply (H (done ++ [word]) rest).
      - now rewrite <- app_assoc.
      - destruct done; discriminate.
      - rewrite length_app. simpl. lia. }
    apply Z.leb_le in Hfit. rewrite Hfit.
    rewrite IH; [now rewrite <- app_assoc|].
    intros pre suf Heq Hne Hlen. apply (H pre suf); auto.
    + rewrite <- Heq. now rewrite <- app_assoc.
    + rewrite length_app in Hlen. simpl in Hlen. lia.
Qed.

Lemma prefix_width (words pre suf : list string) :
  words = pre ++ suf -> pre <> [] ->
  text_width tb font (PyStr.join " " pre) <= text_width tb font (PyStr.join " " words).
Proof.
  intros -> Hne. destruct suf as [|s suf'].
  - rewrite app_nil_r. lia.
  - rewrite join_app by (assumption || discriminate). apply monotone.
Qed.

(** X2. When the measure never shrinks as words are added, a text that
    fits [max_width] is returned as one line, unchanged. *)
Theorem fitting_text_is_one_line (text : string) :
  text_width tb font text <= max_width ->
  wrap_text tb text font max_width = [text].
Proof.
  intros Hfit. unfold wrap_text.
  assert (Hjs : PyStr.join " " (PyStr.split PyStr.space text) = text)
    by apply join_split.
  pose proof (split_not_nil PyStr.space text) as Hne.
  rewrite (@wrap_loop_all_fit (PyStr.split PyStr.space text) []).
  - simpl app. unfold wrap_finish.
    destruct (PyStr.split PyStr.space text); [congruence|].
    cbn [nonempty app]. now rewrite Hjs.
  - intros pre suf Heq Hpre _. simpl in Heq.
    pose proof (@prefix_width _ _ _ Heq Hpre) as H. rewrite Hjs in H. lia.
Qed.

(** A word of a line is no wider than the line. *)
Lemma word_within_line (line word : string) :
  In word (PyStr.split PyStr.space line) ->
  text_width tb font word <= text_width tb font line.
Proof.
  intros Hin. apply in_split in Hin as [pre [suf Heq]].
  assert (Hline : line = PyStr.join " " (pre ++ word :: suf))
    by (rewrite <- Heq; symmetry; apply join_split).
  rewrite Hline. clear Heq Hline.
  assert (Htail : text_width tb font word
                  <= text_width tb font (PyStr.join " " (word :: suf))).
  { destruct suf as [|s suf']; [rewrite join_single; lia|].
    rewrite join_cons_cons. apply monotone. }
  destruct pre as [|p pre']; [exact Htail|].
  rewrite join_app by discriminate.
  eapply Z.le_trans; [exact Htail|apply monotone].
Qed.

End WrapMonotone.

(** C4. Every line returned by [wrap_text] has measured width at most
    [max_width], unless it is a single word of the text, kept whole on a
    line of its own, whose own width exceeds [max_width].  The lines are
    the text cut at spaces: joined by single spaces they give the text
    back, so no word is dropped and none is split.  And for a measure that
    never shrinks as words are added, every word of the text that is wider
    than [max_width] is one of the lines, and any line that holds such a
    word is that word alone. *)
Theorem wrap_text_lines_fit (tb : Font -> string -> BBox) (text : string)
        (font : Font) (max_width : Z) :
  Forall (line_fits_or_is_wide_word tb text font max_width)
         (wrap_text tb text font max_width)
  /\ PyStr.join " " (wrap_text tb text font max_width) = text
  /\ (monotone_width tb font ->
      forall word,
        In word (PyStr.split PyStr.space text) ->
        max_width < text_width tb font word ->
        In word (wrap_text tb text font max_width)
        /\ forall line,
             In line (wrap_text tb text font max_width) ->
             In word (PyStr.split PyStr.space line) ->
             line = word).
Proof.
  assert (Hfit : Forall (line_fits_or_is_wide_word tb text font max_width)
                        (wrap_text tb text font max_width)).
  { unfold wrap_text.
    pose proof (@wrap_loop_inv tb font max_width text (PyStr.split PyStr.space text)
                  ([], [])) as H.
    destruct (wrap_loop tb font max_width (PyStr.split PyStr.space text) ([], []))
      as [lines cur].
    destruct H as [Hlines Hcur]; [auto| split; [constructor|now left] |].
    simpl in *. destruct cur as [|c cur']; simpl; [assumption|].
    apply Forall_app. split; [assumption|].
    constructor; [|constructor].
    destruct Hcur as [Hcur|Hcur]; [discriminate|exact Hcur]. }
  split; [exact Hfit|]. split.
  - unfold wrap_text.
    pose proof (join_split PyStr.space text) as Hjs.
    destruct (PyStr.split PyStr.space text) as [|first rest] eqn:E;
      [exfalso; exact (split_not_nil _ _ E)|].
    change (PyStr.join " " (wrap_finish (wrap_loop tb font max_width (first :: rest)
                                                   ([], []))))
      with (read_back (wrap_loop tb font max_width rest
                                 (wrap_step tb font max_width ([], []) first))).
    rewrite read_back_loop by apply wrap_step_current.
    rewrite read_back_first.
    change first with (String.append EmptyString first) at 1.
    rewrite join_as_fold. exact Hjs.
  - intros Hmono word Hin Hwide. split.
    + unfold wrap_text.
      pose proof (@wide_words_loop tb font max_width Hmono
                    (PyStr.split PyStr.space text) [] ([], [])) as H.
      simpl app in H.
      destruct (wrap_loop tb font max_width (PyStr.split PyStr.space text) ([], []))
        as [lines cur].
      destruct (H (fun x Hx => match Hx with end) word Hin Hwide) as [Hl|Hc];
        simpl in *.
      * destruct cur; simpl; [exact Hl|]. apply in_or_app. now left.
      * subst cur. simpl. apply in_or_app. right. now left.
    + intros line Hline Hword.
      rewrite Forall_forall in Hfit. destruct (Hfit line Hline) as [Hle|[Hfield _]].
      * pose proof (@word_within_line tb font Hmono line word Hword). lia.
      * pose proof (split_fields_whole PyStr.space text) as Hwhole.
        rewrite Forall_forall in Hwhole. rewrite (Hwhole line Hfield) in Hword.
        destruct Hword as [Heq|[]]. exact Heq.
Qed.

Lemma wrap_text_lines_fit_witness :
  let font := mkFont "Merriweather-Regular.ttf" 47 in
  In "comunidad" (wrap_text char_count_bbox "casas de la comunidad" font 300)
  /\ forall line,
       In line (wrap_text char_count_bbox "casas de la comunidad" font 300) ->
       In "comunidad" (PyStr.split PyStr.space line) ->
       line = "comunidad".
Proof.
  apply (proj2 (proj2 (@wrap_text_lines_fit char_count_bbox "casas de la comunidad"
                         (mkFont "Merriweather-Regular.ttf" 47) 300))).
  - apply char_count_monotone. simpl. lia.
  - vm_compute. tauto.
  - reflexivity.
Defined.

Lemma wide_word_is_a_line_witness :
  In "comunidad"
     (wrap_text char_count_bbox "la comunidad de fe" (mkFont "Merriweather-Regular.ttf" 47)
                300).
Proof.
  apply (@wide_word_is_a_line char_count_bbox (mkFont "Merriweather-Regular.ttf" 47) 300).
  - apply char_count_monotone. simpl. lia.
  - vm_compute. tauto.
  - reflexivity.
Defined.

Lemma fitting_text_is_one_line_witness :
  wrap_text char_count_bbox "19:00 hrs" (mkFont "Merriweather-Regular.ttf" 47) 500
  = ["19:00 hrs"].
Proof.
  apply (@fitting_text_is_one_line char_count_bbox (mkFont "Merriweather-Regular.ttf" 47)
           500).
  - apply char_count_monotone. simpl. lia.
  - vm_compute. discriminate.
Defined.

(** ** The text wrapper breaks only where it must *)

Lemma split_append_field (sep : ascii) (field rest : string) :
  PyStr.split sep field = [field] ->
  PyStr.split sep (String.append field (String sep rest)) = field :: PyStr.split sep rest.
Proof.
  revert rest. induction field as [|c f IH]; intros rest H.
  - simpl. now rewrite Ascii.eqb_refl.
  - cbn [PyStr.split String.append] in *.
    destruct (Ascii.eqb c sep); [discriminate|].
    pose proof (split_not_nil sep f) as Hne.
    destruct (PyStr.split sep f) as [|g gs] eqn:E; [congruence|].
    injection H as -> ->. rewrite (IH rest eq_refl). reflexivity.
Qed.

Lemma first_word_join (word : string) (rest : list string) :
  PyStr.split PyStr.space word = [word] ->
  first_word (PyStr.join " " (word :: rest)) = word.
Proof.
  intros H. unfold first_word. destruct rest as [|v rest'].
  - rewrite join_single, H. reflexivity.
  - rewrite join_cons_cons.
    change (String.append " " (PyStr.join " " (v :: rest')))
      with (String PyStr.space (PyStr.join " " (v :: rest'))).
    rewrite (@split_append_field _ _ _ H). reflexivity.
Qed.

Lemma nth_error_snoc {A} (l : list A) (x : A) (i : nat) (a : A) :
  nth_error (l ++ [x]) i = Some a ->
  nth_error l i = Some a \/ (i = List.length l /\ a = x).
Proof.
  revert i. induction l as [|y l IH]; intros [|i]; simpl; intros H.
  - right. split; congruence.
  - destruct i; discriminate.
  - now left.
  - destruct (IH i H) as [H'|[-> ->]]; [now left|right; auto].
Qed.

Lemma nth_error_last {A} (l : list A) (d a : A) :
  nth_error l (List.length l - 1) = Some a -> l <> [] -> last l d = a.
Proof.
  induction l as [|y l IH]; intros H Hne; [congruence|].
  destruct l as [|z l'].
  - simpl in *. congruence.
  - change (last (y :: z :: l') d) with (last (z :: l') d).
    apply IH; [|discriminate].
    simpl in H |- *. now rewrite Nat.sub_0_r in *.
Qed.

Lemma consecutive_snoc {A} (l : list A) (x d a b : A) :
  consecutive (l ++ [x]) a b ->
  consecutive l a b \/ (l <> [] /\ last l d = a /\ b = x).
Proof.
  intros [i [Ha Hb]].
  apply nth_error_snoc in Hb as [Hb|[Hi ->]].
  - left. exists i. split; [|exact Hb].
    apply nth_error_snoc in Ha as [Ha|[Hi _]]; [exact Ha|].
    assert (Hlt : (S i < List.length l)%nat) by (apply nth_error_Some; congruence).
    lia.
  - right. apply nth_error_snoc in Ha as [Ha|[Hi' _]]; [|lia].
    assert (Hne : l <> []) by (intros ->; discriminate).
    repeat split; auto.
    apply nth_error_last; [|exact Hne].
    replace (List.length l - 1)%nat with i by lia. exact Ha.
Qed.

Section WrapGreedy.

Variable tb : Font -> string -> BBox.
Variable font : Font.
Variable max_width : Z.

Lemma greedy_step (st : list string * list string) (word : string) :
  PyStr.split PyStr.space word = [word] ->
  greedy_breaks tb font max_width st ->
  greedy_breaks tb font max_width (wrap_step tb font max_width st word).
Proof.
  destruct st as [lines cur]. unfold greedy_breaks, wrap_step. cbn [fst snd].
  intros Hword [Hpairs [Hlast [Hfree Hnil]]].
  destruct (Z.leb_spec (text_width tb font (PyStr.join " " (cur ++ [word]))) max_width)
    as [Hfit|Hwide]; cbn [fst snd].
  - split; [exact Hpairs|]. split; [|split].
    + intros a x rest Ha Hne Hcur. destruct cur as [|c cs].
      * rewrite Hnil in Hne by reflexivity. congruence.
      * injection Hcur as <- _. now apply (Hlast a c cs).
    + apply Forall_app. split; [exact Hfree|]. now constructor.
    + destruct cur; discriminate.
  - destruct cur as [|c cs].
    + rewrite Hnil by reflexivity. cbn [nonempty]. split; [|split; [|split]].
      * intros a b [i [Ha _]]. destruct i; discriminate.
      * intros a x rest _ Hne. congruence.
      * now constructor.
      * discriminate.
    + cbn [nonempty]. inversion Hfree as [|? ? Hc Hcs]; subst.
      split; [|split; [|split]].
      * intros a b Hab.
        apply (@consecutive_snoc _ _ _ EmptyString) in Hab as [Hab|[Hne [Ha ->]]].
        -- now apply Hpairs.
        -- rewrite (@first_word_join _ _ Hc). now apply (Hlast a c cs).
      * intros a x rest Ha _ [= <- _]. rewrite last_last in Ha. subst a.
        rewrite join_snoc in Hwide by discriminate. exact Hwide.
      * now constructor.
      * discriminate.
Qed.

Lemma greedy_loop (words : list string) (st : list string * list string) :
  Forall (fun word => PyStr.split PyStr.space word = [word]) words ->
  greedy_breaks tb font max_width st ->
  greedy_breaks tb font max_width (wrap_loop tb font max_width words st).
Proof.
  revert st. induction words as [|word rest IH]; intros st Hwords Inv; [exact Inv|].
  inversion Hwords; subst. rewrite wrap_loop_cons. apply IH; [assumption|].
  now apply greedy_step.
Qed.

End WrapGreedy.

(** X3. [wrap_text] is greedy: wherever one line ends and the next begins,
    the first line with the first word of the next added to it is wider
    than [max_width]. *)
Theorem wrap_text_breaks_only_when_forced (tb : Font -> string -> BBox) (text : string)
        (font : Font) (max_width : Z) (a b : string) :
  consecutive (wrap_text tb text font max_width) a b ->
  max_width < text_width tb font (String.append a (String.append " " (first_word b))).
Proof.
  unfold wrap_text. intros Hab.
  pose proof (@greedy_loop tb font max_width (PyStr.split PyStr.space text) ([], [])
                (split_fields_whole PyStr.space text)) as Inv.
  pose proof (@wrap_loop_current tb font max_width (PyStr.split PyStr.space text)) as Hcur.
  destruct (wrap_loop tb font max_width (PyStr.split PyStr.space text) ([], []))
    as [lines cur].
  destruct Inv as [Hpairs [Hlast [Hfree Hnil]]].
  { repeat split; try constructor; try discriminate.
    intros ? ? [i [H _]]. destruct i; discriminate. }
  cbn [fst snd wrap_finish] in *.
  destruct cur as [|c cs]; cbn [nonempty] in Hab; [now apply Hpairs|].
  inversion Hfree as [|? ? Hc Hcs]; subst.
  apply (@consecutive_snoc _ _ _ EmptyString) in Hab as [Hab|[Hne [Ha ->]]].
  - now apply Hpairs.
  - rewrite (@first_word_join _ _ Hc). now apply (Hlast a c cs).
Qed.

Lemma wrap_text_breaks_only_when_forced_witness :
  500 < text_width char_count_bbox (mkFont "Merriweather-Regular.ttf" 47)
                   (String.append "En" (String.append " " (first_word "diversas"))).
Proof.
  apply (@wrap_text_breaks_only_when_forced char_count_bbox "En diversas casas"
           (mkFont "Merriweather-Regular.ttf" 47) 500 "En" "diversas").
  exists 0%nat. split; vm_compute; reflexivity.
Defined.

(** ** What a computation leaves alone: the rules *)

Lemma frames_weaken (good good' : DrawOp -> Prop) {A} (m : M A) :
  (forall op, good op -> good' op) -> frames good m -> frames good' m.
Proof.
  intros Himp H st. destruct (H st) as [Hw [Hh [Hb [Hd [extra [He Hg]]]]]].
  repeat split; auto. exists extra. split; [exact He|].
  eapply Forall_impl; eauto.
Qed.

Lemma frames_ret (good : DrawOp -> Prop) {A} (a : A) : frames good (ret a).
Proof.
  intros st. simpl. repeat split. exists []. split; [now rewrite app_nil_r|constructor].
Qed.

Lemma frames_raise (good : DrawOp -> Prop) {A} (e : exn) : frames good (@raise A e).
Proof.
  intros st. simpl. repeat split. exists []. split; [now rewrite app_nil_r|constructor].
Qed.

Lemma frames_print (good : DrawOp -> Prop) (p : Printed) : frames good (print p).
Proof.
  intros st. simpl. repeat split. exists []. split; [now rewrite app_nil_r|constructor].
Qed.

Lemma frames_emit (good : DrawOp -> Prop) (op : DrawOp) : good op -> frames good (emit op).
Proof.
  intros H st. simpl. repeat split. exists [op]. split; [reflexivity|now constructor].
Qed.

Lemma frames_compose (good : DrawOp -> Prop) (st st' st'' : State) :
  (c_width (img st') = c_width (img st)
   /\ c_height (img st') = c_height (img st)
   /\ c_background (img st') = c_background (img st)
   /\ disk st' = disk st
   /\ exists extra, c_ops (img st') = c_ops (img st) ++ extra /\ Forall good extra) ->
  (c_width (img st'') = c_width (img st')
   /\ c_height (img st'') = c_height (img st')
   /\ c_background (img st'') = c_background (img st')
   /\ disk st'' = disk st'
   /\ exists extra, c_ops (img st'') = c_ops (img st') ++ extra /\ Forall good extra) ->
  c_width (img st'') = c_width (img st)
  /\ c_height (img st'') = c_height (img st)
  /\ c_background (img st'') = c_background (img st)
  /\ disk st'' = disk st
  /\ exists extra, c_ops (img st'') = c_ops (img st) ++ extra /\ Forall good extra.
Proof.
  intros [Hw [Hh [Hb [Hd [e1 [He1 Hg1]]]]]] [Hw' [Hh' [Hb' [Hd' [e2 [He2 Hg2]]]]]].
  repeat split; try congruence.
  exists (e1 ++ e2). split; [rewrite He2, He1; now rewrite app_assoc|].
  apply Forall_app. now split.
Qed.

Lemma frames_bind (good : DrawOp -> Prop) {A B} (m : M A) (k : A -> M B) :
  frames good m -> (forall a, frames good (k a)) -> frames good (bind m k).
Proof.
  intros Hm Hk st. unfold bind. specialize (Hm st).
  destruct (m st) as [[a|e] st']; cbn [snd] in *; [|exact Hm].
  exact (@frames_compose good st st' _ Hm (Hk a st')).
Qed.

Lemma frames_try_except (good : DrawOp -> Prop) (body : M unit) (h : exn -> M unit) :
  frames good body -> (forall e, frames good (h e)) -> frames good (try_except body h).
Proof.
  intros Hb Hh st. unfold try_except. specialize (Hb st).
  destruct (body st) as [[a|e] st']; cbn [snd] in *; [exact Hb|].
  exact (@frames_compose good st st' _ Hb (Hh e st')).
Qed.

Lemma frames_for_each (good : DrawOp -> Prop) {A} (items : list A) (body : A -> M unit) :
  (forall x, frames good (body x)) -> frames good (for_each items body).
Proof.
  intros H. induction items; simpl; [apply frames_ret|].
  apply frames_bind; auto.
Qed.

Lemma frames_Image_open (good : DrawOp -> Prop) (w : World) (path : string) :
  frames good (PIL.Image_open w path).
Proof.
  unfold PIL.Image_open. destruct (image_open w path);
    [apply frames_ret|apply frames_raise].
Qed.

Lemma frames_resize (good : DrawOp -> Prop) (p : Picture) (size : Z * Z) :
  frames good (PIL.resize p size).
Proof.
  unfold PIL.resize. destruct (_ || _); [apply frames_raise|apply frames_ret].
Qed.

Lemma frames_truetype (good : DrawOp -> Prop) (w : World) (path : string) (size : Z) :
  frames good (PIL.truetype w path size).
Proof.
  unfold PIL.truetype. destruct (size <=? 0); [apply frames_raise|].
  destruct (font_loadable w path); [apply frames_ret|apply frames_raise].
Qed.

Lemma frames_get_montserrat (good : DrawOp -> Prop) (w : World) (size : Z)
      (weight : string) :
  frames good (get_montserrat w size weight).
Proof. unfold get_montserrat. destruct (path_exists w _); apply frames_truetype. Qed.

Lemma frames_get_merriweather (good : DrawOp -> Prop) (w : World) (size : Z)
      (italic : bool) :
  frames good (get_merriweather w size italic).
Proof. unfold get_merriweather. destruct (path_exists w _); apply frames_truetype. Qed.

Lemma frames_draw_text_lines (good : DrawOp -> Prop) (lines : list string) (font : Font)
      (fill : Color) :
  (forall pos line, good (Text pos line font fill)) ->
  forall x y step, frames good (draw_text_lines x y step lines font fill).
Proof.
  intros H. induction lines as [|line rest IH]; intros x y step; simpl.
  - apply frames_ret.
  - apply frames_bind; [apply frames_emit, H|intros _; apply IH].
Qed.

(** ** Icons stay in their box *)

Ltac icon_frames :=
  lazymatch goal with
  | |- frames _ (bind _ _) => apply frames_bind; [icon_frames|intros _; icon_frames]
  | |- frames _ (ret _) => apply frames_ret
  | |- frames _ (emit _) =>
      apply frames_emit; cbn [op_points];
      repeat (constructor;
              [unfold in_box; cbn [fst snd]; Z.div_mod_to_equations; lia|]);
      constructor
  end.

(** X4. For a box side that is not negative, [draw_icon] keeps the size of
    the image and the files on disk, and every point it passes to a drawing
    call lies in the square of corner [(x, y)] and side [size]. *)
Theorem draw_icon_stays_in_its_box (icon_type : string) (x y size : Z) (color : Color) :
  0 <= size ->
  frames (fun op => Forall (in_box x y size size) (op_points op))
         (draw_icon icon_type x y size color).
Proof.
  intros Hsize. unfold draw_icon.
  destruct (String.eqb icon_type "calendar");
    [|destruct (String.eqb icon_type "clock");
      [|destruct (String.eqb icon_type "location")]];
    cbv zeta; cbn [for_each]; icon_frames.
Qed.

Lemma draw_icon_stays_in_its_box_witness :
  frames (fun op => Forall (in_box 75 440 40 40) (op_points op))
         (draw_icon "calendar" 75 440 40 amber_canva).
Proof.
  apply (@draw_icon_stays_in_its_box "calendar" 75 440 40 amber_canva). lia.
Defined.

(** ** Lines drawn one under the other *)

Lemma stacked_shift (x y step : Z) (font : Font) (fill : Color) (lines : list string) :
  forall k n,
    map (fun '(i, line) => Text (x, y + Z.of_nat i * step) line font fill)
        (combine (seq (S k) n) lines)
    = map (fun '(i, line) => Text (x, y + step + Z.of_nat i * step) line font fill)
          (combine (seq k n) lines).
Proof.
  induction lines as [|line rest IH]; intros k [|n]; try reflexivity.
  cbn [seq combine map]. rewrite IH. f_equal. f_equal. f_equal.
  rewrite Nat2Z.inj_succ. ring.
Qed.

Lemma stacked_cons (x y step : Z) (line : string) (rest : list string) (font : Font)
      (fill : Color) :
  stacked x y step (line :: rest) font fill
  = Text (x, y) line font fill :: stacked x (y + step) step rest font fill.
Proof.
  unfold stacked. cbn [List.length seq combine map]. rewrite stacked_shift.
  f_equal. f_equal. f_equal. simpl. ring.
Qed.

(** X5. The loop that draws the title lines and the wrapped location lines
    always returns, and adds to the canvas exactly one text per line, in
    order: line [i] at [(x, y + i * step)], all in the same font and
    colour. *)
Theorem draw_text_lines_stacks (lines : list string) (font : Font) (fill : Color) :
  forall (x y step : Z) (st : State),
    draw_text_lines x y step lines font fill st
    = (Ok tt,
       mkState (mkCanvas (c_width (img st)) (c_height (img st)) (c_background (img st))
                         (c_ops (img st) ++ stacked x y step lines font fill))
               (stdout st) (disk st)).
Proof.
  induction lines as [|line rest IH]; intros x y step st.
  - simpl. unfold stacked. simpl. rewrite app_nil_r. now destruct st as [[] ? ?].
  - cbn [draw_text_lines]. unfold bind. cbn [emit]. rewrite IH. cbn [img stdout disk c_width
      c_height c_background c_ops]. rewrite stacked_cons, <- app_assoc. reflexivity.
Qed.

(** ** Strokes stay on the canvas *)

Ltac canvas_icon_frames :=
  lazymatch goal with
  | |- frames _ (bind _ _) =>
      apply frames_bind; [canvas_icon_frames|intros _; canvas_icon_frames]
  | |- frames _ (ret _) => apply frames_ret
  | |- frames _ (emit _) =>
      apply frames_emit; cbn [stroke_on_canvas op_points];
      repeat (constructor;
              [unfold in_box; cbn [fst snd]; Z.div_mod_to_equations; lia|]);
      constructor
  end.

(** An icon whose box is on the canvas draws on the canvas. *)
Lemma icon_on_canvas (width height : Z) (icon_type : string) (x y size : Z)
      (color : Color) :
  0 <= size -> 0 <= x -> x + size <= width -> 0 <= y -> y + size <= height ->
  frames (stroke_on_canvas width height) (draw_icon icon_type x y size color).
Proof.
  intros Hsize Hx Hxw Hy Hyh. unfold draw_icon.
  destruct (String.eqb icon_type "calendar");
    [|destruct (String.eqb icon_type "clock");
      [|destruct (String.eqb icon_type "location")]];
    cbv zeta; cbn [for_each]; canvas_icon_frames.
Qed.

Ltac layout_frames :=
  lazymatch goal with
  | |- frames _ (bind _ _) =>
      apply frames_bind; [layout_frames|intros ?; layout_frames]
  | |- frames _ (if ?c then _ else _) => destruct c; layout_frames
  | |- frames _ (try_except _ _) =>
      apply frames_try_except; [layout_frames|intros ?; layout_frames]
  | |- frames _ (ret _) => apply frames_ret
  | |- frames _ (print _) => apply frames_print
  | |- frames _ (PIL.Image_open _ _) => apply frames_Image_open
  | |- frames _ (PIL.resize _ _) => apply frames_resize
  | |- frames _ (PIL.paste _ _) => apply frames_emit; exact I
  | |- frames _ (get_montserrat _ _ _) => apply frames_get_montserrat
  | |- frames _ (get_merriweather _ _ _) => apply frames_get_merriweather
  | |- frames _ (draw_icon _ _ _ _ _) => apply icon_on_canvas; lia
  | |- frames _ (draw_text_lines _ _ _ _ _ _) =>
      apply frames_draw_text_lines; intros; exact I
  | |- frames _ (emit (Text _ _ _ _)) => apply frames_emit; exact I
  | |- frames _ (emit _) =>
      apply frames_emit; cbn [stroke_on_canvas op_points];
      repeat (constructor; [unfold in_box; cbn [fst snd]; lia|]); constructor
  end.

Section LayoutFrames.

Variable w : World.
Variables title date time location : string.
Variable illustration_path : option string.
Variable scale : Z.
Hypothesis scale_nonneg : 0 <= scale.

Lemma ppt_layout_frames (width height : Z) :
  frames (stroke_on_canvas (1024 * scale) (768 * scale))
         (create_ppt_layout w title date time location illustration_path
                            width height scale).
Proof. unfold create_ppt_layout. cbv zeta. layout_frames. Qed.

Lemma ig_story_layout_frames (height : Z) :
  frames (stroke_on_canvas (1080 * scale) (1920 * scale))
         (create_ig_story_layout w title date time location illustration_path
                                 (1080 * scale) height).
Proof.
  unfold create_ig_story_layout. cbv zeta. rewrite !iscale_base. layout_frames.
Qed.

Lemma ig_post_layout_frames (height : Z) :
  frames (stroke_on_canvas (1080 * scale) (1080 * scale))
         (create_ig_post_layout w title date time location illustration_path
                                (1080 * scale) height).
Proof.
  unfold create_ig_post_layout. cbv zeta. rewrite !iscale_base. layout_frames.
Qed.

Lemma fb_post_layout_frames (height : Z) :
  frames (stroke_on_canvas (1200 * scale) (630 * scale))
         (create_fb_post_layout w title date time location illustration_path
                                (1200 * scale) height).
Proof.
  unfold create_fb_post_layout. cbv zeta. rewrite !iscale_base. layout_frames.
Qed.

End LayoutFrames.

(** ** The render, step by step *)

Lemma render_as_steps (w : World) (title date time location : string)
      (illustration_path : option string) (f : string) (output_path : option string)
      (scale : Z) :
  create_event_graphic w title date time location illustration_path f output_path scale
  = bind (PIL.Image_new (fst (base_size f) * scale) (snd (base_size f) * scale) white)
         (fun _ =>
            bind (layout_of w title date time location illustration_path f
                            (fst (base_size f) * scale) (snd (base_size f) * scale) scale)
                 (fun _ =>
                    bind (saving w output_path (fst (base_size f) * scale)
                                 (snd (base_size f) * scale))
                         (fun _ => current_image))).
Proof.
  unfold create_event_graphic, base_size, layout_of, saving.
  destruct (match dict_get FORMATS f with Some dims => dims | None => (1024, 768) end).
  reflexivity.
Qed.

Lemma base_size_default (f : string) :
  f <> "instagram_story" -> f <> "instagram_post" -> f <> "facebook_post" ->
  base_size f = (1024, 768).
Proof.
  intros H1 H2 H3. unfold base_size, FORMATS, dict_get.
  destruct (String.eqb_spec "instagram_post" f); [congruence|].
  destruct (String.eqb_spec "instagram_story" f); [congruence|].
  destruct (String.eqb_spec "facebook_post" f); [congruence|].
  destruct (String.eqb "ppt_4_3" f); reflexivity.
Qed.

Lemma base_size_positive (f : string) : 0 < fst (base_size f) /\ 0 < snd (base_size f).
Proof. exact (format_dims_positive f). Qed.

(** Whatever the format, the layout keeps image size and disk, and its
    strokes lie on the canvas. *)
Lemma layout_of_frames (w : World) (title date time location : string)
      (illustration_path : option string) (f : string) (scale : Z) :
  0 <= scale ->
  frames (stroke_on_canvas (fst (base_size f) * scale) (snd (base_size f) * scale))
         (layout_of w title date time location illustration_path f
                    (fst (base_size f) * scale) (snd (base_size f) * scale) scale).
Proof.
  intros Hs. unfold layout_of.
  destruct (String.eqb_spec f "instagram_story") as [->|H1];
    [now apply ig_story_layout_frames|].
  destruct (String.eqb_spec f "instagram_post") as [->|H2];
    [now apply ig_post_layout_frames|].
  destruct (String.eqb_spec f "facebook_post") as [->|H3];
    [now apply fb_post_layout_frames|].
  rewrite (base_size_default H1 H2 H3). now apply ppt_layout_frames.
Qed.

(** What a render leaves behind, for a scale that is not negative. *)
Lemma render_outcome (w : World) (title date time location : string)
      (illustration_path : option string) (f : string) (output_path : option string)
      (scale : Z) (st : State) :
  0 <= scale ->
  let width := fst (base_size f) * scale in
  let height := snd (base_size f) * scale in
  let r := create_event_graphic w title date time location illustration_path f
                                output_path scale st in
  match fst r with
  | Ok canvas =>
      img (snd r) = canvas
      /\ c_width canvas = width /\ c_height canvas = height
      /\ c_background canvas = white
      /\ Forall (stroke_on_canvas width height) (c_ops canvas)
      /\ disk (snd r) = disk st ++ (if truthy output_path
                                    then [(path_of output_path, canvas)] else [])
  | Raise _ =>
      disk (snd r) = disk st
      \/ (truthy output_path = true /\ can_save w (path_of output_path) = false)
  end.
Proof.
  intros Hs. cbv zeta. rewrite render_as_steps.
  pose proof (base_size_positive f) as [Hbw Hbh].
  pose proof (@layout_of_frames w title date time location illustration_path f scale Hs)
    as Hlayout.
  set (width := fst (base_size f) * scale) in *.
  set (height := snd (base_size f) * scale) in *.
  set (layout := layout_of _ _ _ _ _ _ _ _ _ _) in *. clearbody layout.
  unfold bind, PIL.Image_new.
  destruct (Z.ltb_spec width 0); [subst width; nia|].
  destruct (Z.ltb_spec height 0); [subst height; nia|].
  cbn [orb]. cbv beta iota.
  match goal with |- context [layout ?s] => set (st0 := s) end.
  destruct (Hlayout st0) as [Hw [Hh [Hb [Hd [extra [Hops Hgood]]]]]].
  destruct (layout st0) as [[[]|e] st1]; cbn [fst snd] in *;
    [|subst st0; simpl in *; left; congruence].
  subst st0. cbn [img disk c_width c_height c_background c_ops app] in *.
  rewrite <- Hops in Hgood.
  unfold saving, bind, save_png, print, current_image, ret.
  destruct (truthy output_path);
    [destruct (has_dirname (path_of output_path));
     [destruct (can_save w (path_of output_path))|]|];
    cbn [negb fst snd img disk stdout]; rewrite ?Hd;
    try (right; split; reflexivity); try (left; reflexivity);
    repeat split; auto using app_nil_r.
Qed.

(** X6. [create_event_graphic] writes to disk in its final save only.  When
    it returns an image and an output path was given, that very image is the
    one file added, under that path; with no output path nothing is written.
    When it raises, the files are as before, unless an output path was given
    that the host could not save to: what a save that failed leaves behind
    is not settled by the code. *)
Theorem render_writes_the_image_it_returns (w : World)
        (title date time location : string) (illustration_path : option string)
        (f : string) (output_path : option string) (scale : Z) (st : State) :
  let r := create_event_graphic w title date time location illustration_path f
                                output_path scale st in
  match fst r with
  | Ok canvas =>
      img (snd r) = canvas
      /\ disk (snd r) = disk st ++ (if truthy output_path
                                    then [(path_of output_path, canvas)] else [])
  | Raise _ =>
      disk (snd r) = disk st
      \/ (truthy output_path = true /\ can_save w (path_of output_path) = false)
  end.
Proof.
  cbv zeta. destruct (Z.le_gt_cases 0 scale) as [Hs|Hs].
  - pose proof (@render_outcome w title date time location illustration_path f
                  output_path scale st Hs) as H.
    cbv zeta in H.
    destruct (fst (create_event_graphic w title date time location illustration_path f
                                        output_path scale st)); [|exact H].
    tauto.
  - rewrite negative_scale_refused by lia. now left.
Qed.

(** X7. On the image a render returns, every point of every line, rectangle,
    ellipse and polygon (dividers and icons) lies on the canvas, whose size
    is the base size of the format times the scale; only pastes and texts
    may reach beyond it. *)
Theorem strokes_stay_on_the_canvas (w : World) (title date time location : string)
        (illustration_path : option string) (f : string) (output_path : option string)
        (scale : Z) (st : State) (canvas : Canvas) :
  fst (create_event_graphic w title date time location illustration_path f
                            output_path scale st) = Ok canvas ->
  c_width canvas = fst (base_size f) * scale
  /\ c_height canvas = snd (base_size f) * scale
  /\ Forall (stroke_on_canvas (c_width canvas) (c_height canvas)) (c_ops canvas).
Proof.
  intros Hok. destruct (Z.le_gt_cases 0 scale) as [Hs|Hs].
  - pose proof (@render_outcome w title date time location illustration_path f
                  output_path scale st Hs) as H.
    cbv zeta in H. rewrite Hok in H. destruct H as [_ [Hw [Hh [_ [Hgood _]]]]].
    rewrite Hw, Hh. auto.
  - rewrite negative_scale_refused in Hok by lia. discriminate.
Qed.

Lemma strokes_stay_on_the_canvas_witness :
  let canvas :=
    img (snd (create_event_graphic studio "La Mesa\nAbierta" "Viernes 9 de Enero"
                "19:00 hrs" "Iglesia San Andres" None "facebook_post" None 2 initial)) in
  c_width canvas = fst (base_size "facebook_post") * 2
  /\ c_height canvas = snd (base_size "facebook_post") * 2
  /\ Forall (stroke_on_canvas (c_width canvas) (c_height canvas)) (c_ops canvas).
Proof.
  apply (@strokes_stay_on_the_canvas studio "La Mesa\nAbierta" "Viernes 9 de Enero"
           "19:00 hrs" "Iglesia San Andres" None "facebook_post" None 2 initial).
  vm_compute. reflexivity.
Defined.

(** ** An output path with no directory part *)

(** X16. An output path that names a file and no directory, such as
    [poster.png], is never written: [os.path.dirname] of it is the empty
    string and [os.makedirs] refuses that.  So every call with such a path
    ends in an error, at the latest when the finished drawing is to be
    saved, and leaves the files as they were. *)
Theorem bare_file_name_is_never_saved (w : World) (title date time location : string)
        (illustration_path : option string) (f : string) (output_path : option string)
        (scale : Z) (st : State) :
  truthy output_path = true ->
  has_dirname (path_of output_path) = false ->
  exists e,
    fst (create_event_graphic w title date time location illustration_path f
                              output_path scale st) = Raise e
    /\ disk (snd (create_event_graphic w title date time location illustration_path f
                                       output_path scale st)) = disk st.
Proof.
  intros Hgiven Hbare. destruct (Z.le_gt_cases 0 scale) as [Hs|Hs].
  - rewrite render_as_steps.
    pose proof (@layout_of_frames w title date time location illustration_path f scale Hs)
      as Hlayout.
    set (layout := layout_of _ _ _ _ _ _ _ _ _ _) in *. clearbody layout.
    unfold bind, PIL.Image_new.
    destruct (_ || _); [exists ValueError; split; reflexivity|].
    match goal with |- context [layout ?s] => set (st0 := s) end.
    destruct (Hlayout st0) as [_ [_ [_ [Hd _]]]].
    destruct (layout st0) as [[[]|e] st1]; cbn [fst snd] in *.
    + unfold saving, bind, save_png. rewrite Hgiven, Hbare. cbn [negb fst snd].
      exists OSError. split; [reflexivity|exact Hd].
    + exists e. split; [reflexivity|exact Hd].
  - rewrite negative_scale_refused by lia. exists ValueError. split; reflexivity.
Qed.

Lemma bare_file_name_is_never_saved_witness :
  exists e,
    fst (create_event_graphic studio "La Mesa\nAbierta" "Viernes 9 de Enero" "19:00 hrs"
                              "Iglesia San Andres" None "instagram_post"
                              (Some "poster.png") 2 initial) = Raise e
    /\ disk (snd (create_event_graphic studio "La Mesa\nAbierta" "Viernes 9 de Enero"
                                       "19:00 hrs" "Iglesia San Andres" None
                                       "instagram_post" (Some "poster.png") 2 initial))
       = disk initial.
Proof.
  apply (@bare_file_name_is_never_saved studio "La Mesa\nAbierta" "Viernes 9 de Enero"
           "19:00 hrs" "Iglesia San Andres" None "instagram_post" (Some "poster.png") 2
           initial); reflexivity.
Defined.

(** ** The illustration is the bottom layer *)

Lemma illustration_pasted {A} (w : World) (p : string) (pic : Picture) (size : Z * Z)
      (opacity : Q) (pos : Point) (h : exn -> M unit) (k : M A) (st : State) :
  image_open w p = Some pic -> 1 <= fst size -> 1 <= snd size ->
  bind (try_except
          (bind (PIL.Image_open w p)
                (fun i => bind (PIL.resize i size)
                               (fun i' => PIL.paste (PIL.scale_alpha i' opacity) pos)))
          h)
       (fun _ => k) st
  = k (snd (emit (Paste (mkPicture (pic_source pic) size (Qmult (pic_alpha pic) opacity))
                        pos) st)).
Proof.
  intros Hopen Hw Hh. unfold bind, try_except, PIL.Image_open, PIL.resize.
  rewrite Hopen. cbn [ret].
  destruct (Z.ltb_spec (fst size) 1); [lia|].
  destruct (Z.ltb_spec (snd size) 1); [lia|].
  reflexivity.
Qed.

Lemma paste_then_frames {A} (pic : Picture) (size : Z * Z) (opacity : Q) (pos : Point)
      (k : M A) (st : State) (good : DrawOp -> Prop) :
  frames good k ->
  (opacity = (15 # 100)%Q \/ opacity = (13 # 100)%Q) -> 0 < fst size -> 0 < snd size ->
  pasted_next pic (c_ops (img st))
    (c_ops (img (snd (k (snd (emit (Paste (mkPicture (pic_source pic) size
                                                     (Qmult (pic_alpha pic) opacity))
                                          pos) st)))))).
Proof.
  intros Hk Hop Hw Hh.
  destruct (Hk (snd (emit (Paste (mkPicture (pic_source pic) size
                                            (Qmult (pic_alpha pic) opacity)) pos) st)))
    as [_ [_ [_ [_ [extra [He _]]]]]].
  exists size, pos, opacity, extra. rewrite He. cbn [emit snd img c_ops].
  rewrite <- app_assoc. auto.
Qed.

Section FirstPaste.

Variable w : World.
Variables title date time location : string.
Variable illustration_path : option string.
Variable pic : Picture.
Variable scale : Z.
Hypothesis scale_positive : 0 < scale.
Hypothesis given : truthy illustration_path = true.
Hypothesis present : path_exists w (path_of illustration_path) = true.
Hypothesis opens : image_open w (path_of illustration_path) = Some pic.

Ltac first_paste width height :=
  cbv zeta; rewrite ?iscale_base; rewrite given, present; cbn [andb];
  rewrite (@illustration_pasted _ w _ pic) by (exact opens || (cbn [fst snd]; lia));
  apply paste_then_frames with (good := stroke_on_canvas width height);
  [ layout_frames | auto | cbn [fst]; lia | cbn [snd]; lia ].

Lemma ppt_first_paste (width height : Z) (st : State) :
  pasted_next pic (c_ops (img st))
    (c_ops (img (snd (create_ppt_layout w title date time location illustration_path
                                        width height scale st)))).
Proof. unfold create_ppt_layout. first_paste (1024 * scale) (768 * scale). Qed.

Lemma ig_story_first_paste (height : Z) (st : State) :
  pasted_next pic (c_ops (img st))
    (c_ops (img (snd (create_ig_story_layout w title date time location
                        illustration_path (1080 * scale) height st)))).
Proof. unfold create_ig_story_layout. first_paste (1080 * scale) (1920 * scale). Qed.

Lemma ig_post_first_paste (height : Z) (st : State) :
  pasted_next pic (c_ops (img st))
    (c_ops (img (snd (create_ig_post_layout w title date time location
                        illustration_path (1080 * scale) height st)))).
Proof. unfold create_ig_post_layout. first_paste (1080 * scale) (1080 * scale). Qed.

Lemma fb_post_first_paste (height : Z) (st : State) :
  pasted_next pic (c_ops (img st))
    (c_ops (img (snd (create_fb_post_layout w title date time location
                        illustration_path (1200 * scale) height st)))).
Proof. unfold create_fb_post_layout. first_paste (1200 * scale) (630 * scale). Qed.

Lemma layout_of_first_paste (f : string) (st : State) :
  pasted_next pic (c_ops (img st))
    (c_ops (img (snd (layout_of w title date time location illustration_path f
                                (fst (base_size f) * scale) (snd (base_size f) * scale)
                                scale st)))).
Proof.
  unfold layout_of.
  destruct (String.eqb_spec f "instagram_story") as [->|H1];
    [apply ig_story_first_paste|].
  destruct (String.eqb_spec f "instagram_post") as [->|H2];
    [apply ig_post_first_paste|].
  destruct (String.eqb_spec f "facebook_post") as [->|H3];
    [apply fb_post_first_paste|].
  apply ppt_first_paste.
Qed.

End FirstPaste.

(** X10. When the illustration file is there and opens, and the scale is
    positive, the first drawing call on the canvas is the paste of the
    illustration, resized to a positive size, with its alpha multiplied by
    0.15 or 0.13: everything else is drawn after it, hence over it. *)
Theorem illustration_is_the_bottom_layer (w : World) (title date time location : string)
        (illustration_path : option string) (pic : Picture) (f : string)
        (output_path : option string) (scale : Z) (st : State) :
  0 < scale ->
  truthy illustration_path = true ->
  path_exists w (path_of illustration_path) = true ->
  image_open w (path_of illustration_path) = Some pic ->
  pasted_next pic []
    (c_ops (img (snd (create_event_graphic w title date time location illustration_path
                                           f output_path scale st)))).
Proof.
  intros Hs Hgiven Hpresent Hopens. rewrite render_as_steps.
  pose proof (base_size_positive f) as [Hbw Hbh].
  pose proof (@layout_of_first_paste w title date time location illustration_path pic
                scale Hs Hgiven Hpresent Hopens f) as Hlayout.
  set (layout := layout_of _ _ _ _ _ _ _ _ _ _) in *. clearbody layout.
  unfold bind, PIL.Image_new.
  destruct (Z.ltb_spec (fst (base_size f) * scale) 0); [nia|].
  destruct (Z.ltb_spec (snd (base_size f) * scale) 0); [nia|].
  cbn [orb]. cbv beta iota.
  match goal with |- context [layout ?s] => specialize (Hlayout s); set (st0 := s) in * end.
  cbn [img c_ops] in Hlayout.
  destruct (layout st0) as [[[]|e] st1]; cbn [snd] in *; [|exact Hlayout].
  unfold saving, bind, save_png, print, current_image, ret.
  destruct (truthy output_path);
    [destruct (has_dirname (path_of output_path));
     [destruct (can_save w (path_of output_path))|]|];
    exact Hlayout.
Qed.

Lemma illustration_is_the_bottom_layer_witness :
  pasted_next (mkPicture "illustrations/mesa_abierta.png" (800, 600) 1) []
    (c_ops (img (snd (create_event_graphic studio "La Mesa\nAbierta" "Viernes 9 de Enero"
                        "19:00 hrs" "Iglesia San Andres"
                        (Some "illustrations/mesa_abierta.png") "facebook_post" None 2
                        initial)))).
Proof.
  apply (@illustration_is_the_bottom_layer studio "La Mesa\nAbierta" "Viernes 9 de Enero"
           "19:00 hrs" "Iglesia San Andres" (Some "illustrations/mesa_abierta.png")
           (mkPicture "illustrations/mesa_abierta.png" (800, 600) 1) "facebook_post"
           None 2 initial); [lia|reflexivity..].
Defined.

(** ** The format loop *)

Lemma oblivious_if {A} (c : bool) (a b : M A) :
  oblivious a -> oblivious b -> oblivious (if c then a else b).
Proof. destruct c; auto. Qed.

Lemma oblivious_render (w : World) (title date time location : string)
      (illustration_path : option string) (f : string) (output_path : option string)
      (scale : Z) :
  oblivious (create_event_graphic w title date time location illustration_path f
                                  output_path scale).
Proof.
  rewrite render_as_steps.
  unfold layout_of, saving, create_ppt_layout, create_ig_story_layout,
    create_ig_post_layout, create_fb_post_layout.
  cbv zeta.
  repeat lazymatch goal with
    | |- oblivious (bind _ _) => apply oblivious_bind; [|intros ?]
    | |- oblivious (if _ then _ else _) => apply oblivious_if
    | |- oblivious (try_except _ _) => apply oblivious_try_except; [|intros ?]
    | |- oblivious _ => solve [auto with oblivious]
    end.
Qed.

Lemma related_skip_left {A} (m : M unit) (k1 k2 : M A) :
  skipped m -> related same_output k1 k2 eq same_output ->
  related same_output (bind m (fun _ => k1)) k2 eq same_output.
Proof.
  intros Hm Hk st1 st2 [Hi Hd]. unfold bind.
  destruct (Hm st1) as [Hr [Hi1 Hd1]].
  destruct (m st1) as [r st1']. simpl in *. subst r.
  apply Hk. split; congruence.
Qed.

Lemma skipped_print (p : Printed) : skipped (print p).
Proof. intros st. split; [reflexivity|split; reflexivity]. Qed.

(** X11. Names the registry does not know have no effect on what the format
    loop produces: running it on a list gives the same result, the same
    image and the same files as running it on the known names of the list
    alone.  Only the warnings printed differ. *)
Theorem unknown_formats_do_not_matter (w : World) (title date time location : string)
        (illustration_path : option string) (output_prefix : string)
        (formats : list string) (results : list (string * string)) (st : State) :
  let all := generate_complete_graphic w title date time location illustration_path
               output_prefix formats results st in
  let known := generate_complete_graphic w title date time location illustration_path
                 output_prefix (known_formats formats) results st in
  fst all = fst known /\ img (snd all) = img (snd known) /\ disk (snd all) = disk (snd known).
Proof.
  cbv zeta.
  assert (H : forall fs r,
             related same_output
               (generate_complete_graphic w title date time location illustration_path
                                          output_prefix fs r)
               (generate_complete_graphic w title date time location illustration_path
                                          output_prefix (known_formats fs) r)
               eq same_output).
  { induction fs as [|f rest IH]; intros r.
    - now apply related_ret.
    - cbn [generate_complete_graphic known_formats filter].
      destruct (dict_mem FORMATS f) eqn:Hf; cbn [negb].
      + cbn [generate_complete_graphic]. rewrite Hf. cbn [negb].
        apply related_bind with (RA := eq) (Q := same_output);
          [apply oblivious_print| |auto].
        intros _ _ _.
        apply related_bind with (RA := eq) (Q := same_output);
          [apply oblivious_render| |auto].
        intros _ _ _. apply IH.
      + apply related_skip_left; [apply skipped_print|apply IH]. }
  destruct (H formats results st st) as [Hr [Hi Hd]]; [split; reflexivity|].
  split; [now apply res_rel_eq|]. split; assumption.
Qed.

Lemma dict_get_set {V} (d : list (string * V)) (k k' : string) (v : V) :
  dict_get (dict_set d k v) k' = if String.eqb k k' then Some v else dict_get d k'.
Proof.
  induction d as [|[k0 v0] d IH]; simpl.
  - reflexivity.
  - destruct (String.eqb_spec k0 k) as [->|Hne]; simpl.
    + destruct (String.eqb k k'); reflexivity.
    + rewrite IH. destruct (String.eqb_spec k0 k') as [->|Hne'].
      * destruct (String.eqb_spec k k'); [congruence|reflexivity].
      * reflexivity.
Qed.

Lemma results_for_lookup (w : World) (output_prefix : string) (formats : list string) :
  forall results f,
    dict_get (results_for w output_prefix formats results) f
    = if existsb (String.eqb f) formats
      then Some (output_file w output_prefix f)
      else dict_get results f.
Proof.
  induction formats as [|g rest IH]; intros results f; [reflexivity|].
  unfold results_for in *. cbn [fold_left existsb]. rewrite IH, dict_get_set.
  destruct (existsb (String.eqb f) rest); [now rewrite orb_true_r|].
  rewrite orb_false_r, String.eqb_sym.
  destruct (String.eqb_spec f g) as [->|]; reflexivity.
Qed.

Lemma truthy_output_file (w : World) (output_prefix f : string) :
  truthy (Some (output_file w output_prefix f)) = true.
Proof.
  unfold output_file.
  assert (Hname : exists c rest,
             String.append output_prefix (String.append "_" (String.append f ".png"))
             = String c rest)
    by (destruct output_prefix as [|c p]; simpl; eauto).
  destruct Hname as [c [name ->]]. unfold path_join.
  destruct (prefix "/" (String c name)); [reflexivity|].
  destruct (_ || _); destruct (OUTPUT_DIR w); reflexivity.
Qed.

Lemma generate_cons_known (w : World) (title date time location : string)
      (illustration_path : option string) (output_prefix f : string)
      (rest : list string) (results : list (string * string)) (st : State) :
  dict_mem FORMATS f = true ->
  generate_complete_graphic w title date time location illustration_path
                            output_prefix (f :: rest) results st
  = match create_event_graphic w title date time location illustration_path f
            (Some (output_file w output_prefix f)) 2
            (mkState (img st) (stdout st ++ [Generating f]) (disk st)) with
    | (Ok _, st1) =>
        generate_complete_graphic w title date time location illustration_path
          output_prefix rest (dict_set results f (output_file w output_prefix f)) st1
    | (Raise e, st1) => (Raise e, st1)
    end.
Proof. intros Hf. cbn [generate_complete_graphic]. rewrite Hf. reflexivity. Qed.

Lemma generate_cons_unknown (w : World) (title date time location : string)
      (illustration_path : option string) (output_prefix f : string)
      (rest : list string) (results : list (string * string)) (st : State) :
  dict_mem FORMATS f = false ->
  generate_complete_graphic w title date time location illustration_path
                            output_prefix (f :: rest) results st
  = generate_complete_graphic w title date time location illustration_path
      output_prefix rest results
      (mkState (img st) (stdout st ++ [UnknownFormatWarning f]) (disk st)).
Proof. intros Hf. cbn [generate_complete_graphic]. rewrite Hf. reflexivity. Qed.

Lemma generate_loop_outcome (w : World) (title date time location : string)
      (illustration_path : option string) (output_prefix : string)
      (formats : list string) :
  forall results st final,
    fst (generate_complete_graphic w title date time location illustration_path
                                   output_prefix formats results st) = Ok final ->
    final = results_for w output_prefix (known_formats formats) results
    /\ map fst (disk (snd (generate_complete_graphic w title date time location
                             illustration_path output_prefix formats results st)))
       = map fst (disk st) ++ map (output_file w output_prefix) (known_formats formats).
Proof.
  induction formats as [|f rest IH]; intros results st final.
  - simpl. intros [= <-]. now rewrite app_nil_r.
  - cbn [known_formats filter].
    destruct (dict_mem FORMATS f) eqn:Hf.
    + rewrite (generate_cons_known _ _ _ _ _ _ _ _ _ _ _ Hf).
      pose proof (@render_outcome w title date time location illustration_path f
                    (Some (output_file w output_prefix f)) 2
                    (mkState (img st) (stdout st ++ [Generating f]) (disk st))
                    ltac:(lia)) as Hout.
      cbv zeta in Hout. rewrite truthy_output_file in Hout.
      destruct (create_event_graphic w title date time location illustration_path f
                  (Some (output_file w output_prefix f)) 2
                  (mkState (img st) (stdout st ++ [Generating f]) (disk st)))
        as [[canvas|e] st1]; cbn [fst snd] in *; [|discriminate].
      destruct Hout as [_ [_ [_ [_ [_ Hdisk]]]]]. cbn [disk path_of] in Hdisk.
      intros Hok. destruct (IH _ _ _ Hok) as [Hfinal Hd].
      split; [exact Hfinal|].
      fold (known_formats rest).
      rewrite Hd, Hdisk, map_app. cbn [map fst]. now rewrite <- app_assoc.
    + rewrite (generate_cons_unknown _ _ _ _ _ _ _ _ _ _ _ Hf).
      intros Hok. destruct (IH _ _ _ Hok) as [Hfinal Hd]. split; [exact Hfinal|exact Hd].
Qed.

(** X12. When the format loop returns, its dictionary maps each known name
    of the list to that name's output path, the join of the output
    directory and [prefix_name.png] (which leaves the output directory
    behind when the prefix is an absolute path), and holds nothing else;
    the files written are those paths, one per known name of the list, in
    the order of the list. *)
Theorem generate_results_and_files (w : World) (title date time location : string)
        (illustration_path : option string) (output_prefix : string)
        (formats : list string) (st : State) (results : list (string * string)) :
  fst (generate_complete_graphic w title date time location illustration_path
                                 output_prefix formats [] st) = Ok results ->
  (forall f, dict_get results f
             = if existsb (String.eqb f) (known_formats formats)
               then Some (output_file w output_prefix f) else None)
  /\ map fst (disk (snd (generate_complete_graphic w title date time location
                           illustration_path output_prefix formats [] st)))
     = map fst (disk st) ++ map (output_file w output_prefix) (known_formats formats).
Proof.
  intros Hok. destruct (@generate_loop_outcome w title date time location
                          illustration_path output_prefix formats [] st results Hok)
    as [-> Hd].
  split; [|exact Hd]. intros f. now rewrite results_for_lookup.
Qed.

Lemma generate_results_and_files_witness :
  (forall f, dict_get [("instagram_post", "/casa/design/output/event_instagram_post.png")] f
             = if existsb (String.eqb f) (known_formats ["flyer"; "instagram_post"])
               then Some (output_file studio "event" f) else None)
  /\ map fst (disk (snd (generate_complete_graphic studio "La Mesa\nAbierta"
                           "Viernes 9 de Enero" "19:00 hrs" "Iglesia San Andres" None
                           "event" ["flyer"; "instagram_post"] [] initial)))
     = map fst (disk initial)
       ++ map (output_file studio "event") (known_formats ["flyer"; "instagram_post"]).
Proof.
  apply (@generate_results_and_files studio "La Mesa\nAbierta" "Viernes 9 de Enero"
           "19:00 hrs" "Iglesia San Andres" None "event" ["flyer"; "instagram_post"]
           initial).
  vm_compute. reflexivity.
Defined.

(** ** The file-name prefix of the interactive mode *)

Lemma prefix_empty (s : string) : prefix EmptyString s = true.
Proof. destruct s; reflexivity. Qed.

(** Replacing one character by another: the result holds the new character
    and the characters of the input other than the old one. *)
Lemma replace_char_chars (a b : ascii) (s : string) (c : ascii) :
  In c (chars (PyStr.replace (String a EmptyString) (String b EmptyString) s)) ->
  c = b \/ (In c (chars s) /\ c <> a).
Proof.
  unfold PyStr.replace. induction s as [|d rest IH]; [intros []|].
  cbn [PyStr.replace_from prefix]. rewrite prefix_empty.
  destruct (ascii_dec a d) as [<-|Hne]; cbn [String.length Nat.sub String.append chars
    list_ascii_of_string In].
  - intros [<-|H]; [now left|].
    destruct (IH H) as [->|[Hin Hc]]; [now left|right; split; auto].
  - intros [<-|H]; [right; split; [now left|congruence]|].
    destruct (IH H) as [->|[Hin Hc]]; [now left|right; split; auto].
Qed.

Lemma substring_chars (n : nat) (s : string) (c : ascii) :
  In c (chars (substring 0 n s)) -> In c (chars s).
Proof.
  revert s. induction n as [|n IH]; intros [|d rest]; simpl; try tauto.
  intros [<-|H]; [now left|right; now apply IH].
Qed.

Lemma substring_length (n : nat) (s : string) :
  (String.length (substring 0 n s) <= n)%nat.
Proof.
  revert s. induction n as [|n IH]; intros [|d rest]; simpl; try lia.
  specialize (IH rest). lia.
Qed.

(** X13. Whatever the title typed in, the file-name prefix that
    [interactive_mode] derives from it has at most 20 characters and holds
    neither a space nor a line break. *)
Theorem slug_is_short_and_unbroken (lower : string -> string) (title : string) :
  (String.length (slug lower title) <= 20)%nat
  /\ forall c, In c (chars (slug lower title)) -> c <> PyStr.space /\ c <> PyStr.newline.
Proof.
  split; [apply substring_length|].
  intros c Hc. unfold slug in Hc. apply substring_chars in Hc.
  apply (replace_char_chars PyStr.newline "_"%char) in Hc.
  destruct Hc as [->|[Hc Hnl]].
  - split; discriminate.
  - split; [|exact Hnl].
    apply (replace_char_chars PyStr.space "_"%char) in Hc.
    destruct Hc as [->|[_ Hsp]]; [discriminate|exact Hsp].
Qed.

(** ** The font helper of the mock-up generator *)

Lemma first_font_result (w : World) (paths : list string) (size : Z) (st : State) :
  0 < size ->
  exists f,
    Mockups.first_font w paths size st = (Ok f, st)
    /\ (f = PIL.load_default
        \/ (font_size f = size /\ In (font_path f) paths
            /\ path_exists w (font_path f) = true
            /\ font_loadable w (font_path f) = true)).
Proof.
  intros Hsize. induction paths as [|path rest IH]; cbn [Mockups.first_font].
  - exists PIL.load_default. split; [reflexivity|now left].
  - assert (Hrest : exists f,
               Mockups.first_font w rest size st = (Ok f, st)
               /\ (f = PIL.load_default
                   \/ (font_size f = size /\ In (font_path f) (path :: rest)
                       /\ path_exists w (font_path f) = true
                       /\ font_loadable w (font_path f) = true))).
    { destruct IH as [f [Hf [Hdef|[H1 [H2 [H3 H4]]]]]]; exists f;
        (split; [exact Hf|]); [now left|right; repeat split; auto; now right]. }
    destruct (path_exists w path) eqn:Hex; [|exact Hrest].
    unfold PIL.truetype. destruct (Z.leb_spec size 0); [lia|].
    destruct (font_loadable w path) eqn:Hl; [|exact Hrest].
    exists (mkFont path size). split; [reflexivity|].
    right. repeat split; auto. now left.
Qed.

(** X14. [get_font] of the mock-up generator never fails: it returns the
    font built into Pillow, or a font of size [max(10, size)] loaded from
    one of the paths listed for the name, a file that exists and loads. *)
Theorem get_font_always_returns (w : World) (name : string) (size : Z) (st : State) :
  exists f,
    Mockups.get_font w name size st = (Ok f, st)
    /\ (f = PIL.load_default
        \/ (font_size f = Z.max 10 size /\ In (font_path f) (Mockups.font_paths name)
            /\ path_exists w (font_path f) = true
            /\ font_loadable w (font_path f) = true)).
Proof. unfold Mockups.get_font. apply first_font_result. lia. Qed.

(** ** The detail texts on the canvas *)

Lemma amber_texts_app (l1 l2 : list DrawOp) :
  amber_texts (l1 ++ l2) = amber_texts l1 ++ amber_texts l2.
Proof. apply flat_map_app. Qed.

Lemma amber_texts_none (extra : list DrawOp) :
  Forall (fun op => amber_text_of op = []) extra -> amber_texts extra = [].
Proof.
  induction 1 as [|op rest Hop _ IH]; [reflexivity|].
  unfold amber_texts in *. simpl. now rewrite Hop, IH.
Qed.

Lemma hoare_weaken {A} (P : State -> Prop) (m : M A) (Q Q' : A -> State -> Prop) :
  hoare P m Q -> (forall a st, Q a st -> Q' a st) -> hoare P m Q'.
Proof.
  intros H HQ st HP. specialize (H st HP). destruct (m st) as [[a|e] st']; auto.
Qed.

Lemma hoare_bind {A B} (P : State -> Prop) (m : M A) (Q : A -> State -> Prop)
      (k : A -> M B) (R : B -> State -> Prop) :
  hoare P m Q -> (forall a, hoare (Q a) (k a) R) -> hoare P (bind m k) R.
Proof.
  intros Hm Hk st HP. unfold bind. specialize (Hm st HP).
  destruct (m st) as [[a|e] st']; [exact (Hk a st' Hm)|exact I].
Qed.

(** A step that draws no detail text. *)
Lemma hoare_keep {A} (texts : list (string * Font)) (m : M A) :
  frames (fun op => amber_text_of op = []) m ->
  hoare (amber_is texts) m (fun _ => amber_is texts).
Proof.
  intros Hm st HP. destruct (Hm st) as [_ [_ [_ [_ [extra [He Hgood]]]]]].
  destruct (m st) as [[a|e] st']; [|exact I]. cbn [snd] in He.
  unfold amber_is in *. rewrite He, amber_texts_app, HP, (amber_texts_none Hgood).
  apply app_nil_r.
Qed.

Lemma hoare_bind_keep {A B} (texts : list (string * Font)) (m : M A) (k : A -> M B)
      (R : B -> State -> Prop) :
  frames (fun op => amber_text_of op = []) m ->
  (forall a, hoare (amber_is texts) (k a) R) ->
  hoare (amber_is texts) (bind m k) R.
Proof. intros Hm Hk. eapply hoare_bind; [now apply hoare_keep|exact Hk]. Qed.

Lemma hoare_truetype (P : State -> Prop) (w : World) (path : string) (size : Z) :
  hoare P (PIL.truetype w path size) (fun font st => P st /\ font_size font = size).
Proof.
  intros st HP. unfold PIL.truetype.
  destruct (size <=? 0); [exact I|]. destruct (font_loadable w path); [|exact I].
  split; [exact HP|reflexivity].
Qed.

Lemma hoare_bind_merriweather {B} (P : State -> Prop) (w : World) (size : Z)
      (italic : bool) (k : Font -> M B) (R : B -> State -> Prop) :
  (forall font, font_size font = size -> hoare P (k font) R) ->
  hoare P (bind (get_merriweather w size italic) k) R.
Proof.
  intros Hk. eapply hoare_bind.
  - unfold get_merriweather. destruct (path_exists w _); apply hoare_truetype.
  - intros font st [HP Hsize]. exact (Hk font Hsize st HP).
Qed.

Lemma hoare_amber_text (texts : list (string * Font)) (pos : Point) (text : string)
      (font : Font) :
  hoare (amber_is texts) (emit (Text pos text font amber_canva))
        (fun _ => amber_is (texts ++ [(text, font)])).
Proof.
  intros st HP. unfold amber_is in *. cbn [emit img c_ops].
  rewrite amber_texts_app, HP. reflexivity.
Qed.

Lemma hoare_bind_amber_text {B} (texts : list (string * Font)) (pos : Point)
      (text : string) (font : Font) (k : unit -> M B) (R : B -> State -> Prop) :
  hoare (amber_is (texts ++ [(text, font)])) (k tt) R ->
  hoare (amber_is texts) (bind (emit (Text pos text font amber_canva)) k) R.
Proof.
  intros Hk. eapply hoare_bind; [apply hoare_amber_text|]. intros []. exact Hk.
Qed.

Lemma hoare_amber_lines (lines : list string) (font : Font) :
  forall texts x y step,
    hoare (amber_is texts) (draw_text_lines x y step lines font amber_canva)
          (fun _ => amber_is (texts ++ map (fun line => (line, font)) lines)).
Proof.
  induction lines as [|line rest IH]; intros texts x y step.
  - intros st HP. simpl. now rewrite app_nil_r.
  - cbn [draw_text_lines map]. apply hoare_bind_amber_text.
    eapply hoare_weaken; [apply IH|]. intros u st H. cbv beta in H |- *.
    now rewrite <- app_assoc in H.
Qed.

Lemma icon_draws_no_text (icon_type : string) (x y size : Z) (color : Color) :
  frames (fun op => amber_text_of op = []) (draw_icon icon_type x y size color).
Proof.
  unfold draw_icon.
  destruct (String.eqb icon_type "calendar");
    [|destruct (String.eqb icon_type "clock");
      [|destruct (String.eqb icon_type "location")]];
    cbv zeta; cbn [for_each];
    repeat lazymatch goal with
      | |- frames _ (bind _ _) => apply frames_bind; [|intros _]
      | |- frames _ (emit _) => apply frames_emit; reflexivity
      | |- frames _ (ret _) => apply frames_ret
      end.
Qed.

Ltac no_amber :=
  lazymatch goal with
  | |- frames _ (bind _ _) => apply frames_bind; [no_amber|intros ?; no_amber]
  | |- frames _ (if ?c then _ else _) => destruct c; no_amber
  | |- frames _ (try_except _ _) =>
      apply frames_try_except; [no_amber|intros ?; no_amber]
  | |- frames _ (ret _) => apply frames_ret
  | |- frames _ (print _) => apply frames_print
  | |- frames _ (PIL.Image_open _ _) => apply frames_Image_open
  | |- frames _ (PIL.resize _ _) => apply frames_resize
  | |- frames _ (PIL.paste _ _) => apply frames_emit; reflexivity
  | |- frames _ (get_montserrat _ _ _) => apply frames_get_montserrat
  | |- frames _ (draw_icon _ _ _ _ _) => apply icon_draws_no_text
  | |- frames _ (draw_text_lines _ _ _ _ _ black) =>
      apply frames_draw_text_lines; intros; reflexivity
  | |- frames _ (emit _) => apply frames_emit; reflexivity
  end.

Ltac detail_steps :=
  lazymatch goal with
  | |- hoare _ (bind (get_merriweather _ _ _) _) _ =>
      apply hoare_bind_merriweather;
      let font := fresh "font" in
      let Hfont := fresh "Hfont" in
      intros font Hfont; detail_steps
  | |- hoare _ (bind (emit (Text _ _ _ amber_canva)) _) _ =>
      apply hoare_bind_amber_text; detail_steps
  | |- hoare _ (bind _ _) _ =>
      apply hoare_bind_keep; [no_amber|intros ?; detail_steps]
  | |- hoare _ (emit (Text _ _ _ amber_canva)) _ =>
      eapply hoare_weaken; [apply hoare_amber_text|]
  | |- hoare _ (draw_text_lines _ _ _ _ _ amber_canva) _ =>
      eapply hoare_weaken; [apply hoare_amber_lines|]
  end.

Section DetailTexts.

Variable w : World.
Variables title date time location : string.
Variable illustration_path : option string.
Variable scale : Z.

Local Abbreviation drawn f :=
  (fun (_ : unit) (st : State) =>
     exists font, font_size font = detail_font_size f * scale
                  /\ amber_is (detail_texts w f scale date time location font) st).

Ltac conclude :=
  let H := fresh in
  intros ? ? H; cbv beta in H |- *;
  match goal with
  | Hfont : font_size ?font = _ |- _ =>
      exists font; split; [exact Hfont|exact H]
  end.

Lemma ppt_layout_details (width height : Z) :
  hoare (amber_is [])
        (create_ppt_layout w title date time location illustration_path
                           width height scale)
        (drawn "ppt_4_3").
Proof. unfold create_ppt_layout. cbv zeta. detail_steps. conclude. Qed.

Lemma ig_story_layout_details (height : Z) :
  hoare (amber_is [])
        (create_ig_story_layout w title date time location illustration_path
                                (1080 * scale) height)
        (drawn "instagram_story").
Proof.
  unfold create_ig_story_layout. cbv zeta. rewrite !iscale_base. detail_steps. conclude.
Qed.

Lemma ig_post_layout_details (height : Z) :
  hoare (amber_is [])
        (create_ig_post_layout w title date time location illustration_path
                               (1080 * scale) height)
        (drawn "instagram_post").
Proof.
  unfold create_ig_post_layout. cbv zeta. rewrite !iscale_base. detail_steps. conclude.
Qed.

Lemma fb_post_layout_details (height : Z) :
  hoare (amber_is [])
        (create_fb_post_layout w title date time location illustration_path
                               (1200 * scale) height)
        (drawn "facebook_post").
Proof.
  unfold create_fb_post_layout. cbv zeta. rewrite !iscale_base. detail_steps. conclude.
Qed.

Lemma layout_of_details (f : string) :
  hoare (amber_is [])
        (layout_of w title date time location illustration_path f
                   (fst (base_size f) * scale) (snd (base_size f) * scale) scale)
        (drawn f).
Proof.
  unfold layout_of.
  destruct (String.eqb_spec f "instagram_story") as [->|H1];
    [apply ig_story_layout_details|].
  destruct (String.eqb_spec f "instagram_post") as [->|H2];
    [apply ig_post_layout_details|].
  destruct (String.eqb_spec f "facebook_post") as [->|H3];
    [apply fb_post_layout_details|].
  eapply hoare_weaken; [apply ppt_layout_details|].
  intros u st [font [Hsize Htexts]]. exists font.
  unfold detail_font_size, detail_texts, location_budget in *.
  apply String.eqb_neq in H1, H2, H3. rewrite H1, H2, H3.
  split; [exact Hsize|exact Htexts].
Qed.

Lemma saving_draws_nothing (output_path : option string) (width height : Z)
      (texts : list (string * Font)) :
  hoare (amber_is texts) (saving w output_path width height) (fun _ => amber_is texts).
Proof.
  intros st HP. unfold saving, save_png, print, bind, ret.
  destruct (truthy output_path); [|exact HP].
  destruct (has_dirname (path_of output_path)); [|exact I].
  destruct (can_save w (path_of output_path)); [exact HP|exact I].
Qed.

Lemma render_details (f : string) (output_path : option string) :
  hoare (fun _ => True)
        (create_event_graphic w title date time location illustration_path f
                              output_path scale)
        (fun canvas _ =>
           exists font, font_size font = detail_font_size f * scale
                        /\ amber_texts (c_ops canvas)
                           = detail_texts w f scale date time location font).
Proof.
  rewrite render_as_steps.
  eapply hoare_bind with (Q := fun _ => amber_is []).
  { intros st _. unfold PIL.Image_new. destruct (_ || _); [exact I|reflexivity]. }
  intros _. eapply hoare_bind; [apply layout_of_details|].
  intros _ st [font [Hsize Htexts]].
  pose proof (@saving_draws_nothing output_path (fst (base_size f) * scale)
                (snd (base_size f) * scale) _ st Htexts) as H.
  unfold bind, current_image.
  destruct (saving w output_path _ _ st) as [[[]|e] st']; [|exact I].
  exists font. split; [exact Hsize|exact H].
Qed.

End DetailTexts.

(** X15. On the image a render returns, the texts in the accent colour are,
    in drawing order, the date, the time and then the location, all in one
    font whose size is the detail size of the format (31 on the slide, 65,
    47 and 34 on the story, the post and the Facebook post) times the scale.
    The location is one text on the slide; on the three social formats it is
    the lines [wrap_text] gives for a budget of 850, 500 and 430 base pixels
    times the scale. *)
Theorem details_are_date_time_location (w : World) (title date time location : string)
        (illustration_path : option string) (f : string) (output_path : option string)
        (scale : Z) (st : State) (canvas : Canvas) :
  fst (create_event_graphic w title date time location illustration_path f
                            output_path scale st) = Ok canvas ->
  exists font,
    font_size font = detail_font_size f * scale
    /\ amber_texts (c_ops canvas) = detail_texts w f scale date time location font.
Proof.
  intros Hok.
  pose proof (@render_details w title date time location illustration_path scale f
                output_path st I) as H.
  destruct (create_event_graphic w title date time location illustration_path f
                                 output_path scale st) as [[c|e] st'];
    cbn [fst] in Hok; [|discriminate].
  injection Hok as <-. exact H.
Qed.

Lemma details_are_date_time_location_witness :
  exists canvas font,
    fst (create_event_graphic studio "La Mesa Abierta" "Viernes 9 de Enero" "19:00 hrs"
                              "Iglesia San Andres, Providencia" None "instagram_post"
                              None 1 initial) = Ok canvas
    /\ font_size font = 47
    /\ amber_texts (c_ops canvas)
       = detail_texts studio "instagram_post" 1 "Viernes 9 de Enero" "19:00 hrs"
                      "Iglesia San Andres, Providencia" font.
Proof.
  destruct (fst (create_event_graphic studio "La Mesa Abierta" "Viernes 9 de Enero"
                                      "19:00 hrs" "Iglesia San Andres, Providencia"
                                      None "instagram_post" None 1 initial))
    as [canvas|e] eqn:Hok; [|vm_compute in Hok; discriminate].
  destruct (@details_are_date_time_location studio "La Mesa Abierta"
              "Viernes 9 de Enero" "19:00 hrs" "Iglesia San Andres, Providencia"
              None "instagram_post" None 1 initial canvas Hok) as [font [Hsize Htexts]].
  exists canvas, font. repeat split; [exact Hsize|exact Htexts].
Defined.

(** ** Illustration and logo are decoration *)

Lemma content_snoc (ops : list DrawOp) (op : DrawOp) :
  content (ops ++ [op]) = content ops ++ (if is_paste op then [] else [op]).
Proof. unfold content. rewrite filter_app. simpl. now destruct (is_paste op). Qed.

Lemma messages_snoc (out : list Printed) (p : Printed) :
  messages (out ++ [p]) = messages out ++ (if is_warning p then [] else [p]).
Proof. unfold messages. rewrite filter_app. simpl. now destruct (is_warning p). Qed.

Lemma same_content_refl (st : State) : same_content st st.
Proof. split; reflexivity. Qed.

Lemma deco_emit (op : DrawOp) : related same_content (emit op) (emit op) any same_content.
Proof.
  intros st1 st2 [Hc Hm]. split; [exact I|]. split; cbn [emit snd img c_ops stdout].
  - now rewrite !content_snoc, Hc.
  - exact Hm.
Qed.

Lemma deco_ret_tt : related same_content (ret tt) (ret tt) any same_content.
Proof. intros st1 st2 H. split; [exact I|exact H]. Qed.

Lemma deco_step {A} (m1 m2 : M unit) (k1 k2 : unit -> M A) :
  related same_content m1 m2 any same_content ->
  related same_content (k1 tt) (k2 tt) any same_content ->
  related same_content (bind m1 k1) (bind m2 k2) any same_content.
Proof.
  intros Hm Hk. eapply related_bind; [exact Hm| |auto].
  intros [] [] _. exact Hk.
Qed.

Lemma deco_for_each {A} (items : list A) (body : A -> M unit) :
  (forall x, related same_content (body x) (body x) any same_content) ->
  related same_content (for_each items body) (for_each items body) any same_content.
Proof.
  intros H. induction items as [|x rest IH]; cbn [for_each]; [apply deco_ret_tt|].
  apply deco_step; auto.
Qed.

Lemma deco_draw_icon (icon_type : string) (x y size : Z) (color : Color) :
  related same_content (draw_icon icon_type x y size color)
          (draw_icon icon_type x y size color) any same_content.
Proof.
  unfold draw_icon.
  destruct (String.eqb icon_type "calendar");
    [|destruct (String.eqb icon_type "clock");
      [|destruct (String.eqb icon_type "location")]];
    cbv zeta;
    repeat lazymatch goal with
      | |- related _ (bind _ _) (bind _ _) _ _ => apply deco_step
      | |- related _ (emit _) (emit _) _ _ => apply deco_emit
      | |- related _ (ret _) (ret _) _ _ => apply deco_ret_tt
      | |- related _ (for_each _ _) (for_each _ _) _ _ => apply deco_for_each; intros ?
      end.
Qed.

Lemma deco_draw_text_lines (lines : list string) (font : Font) (fill : Color) :
  forall x y step,
    related same_content (draw_text_lines x y step lines font fill)
            (draw_text_lines x y step lines font fill) any same_content.
Proof.
  induction lines as [|line rest IH]; intros x y step; cbn [draw_text_lines].
  - apply deco_ret_tt.
  - apply deco_step; [apply deco_emit|apply IH].
Qed.

(** The two providers do not look at the image files. *)
Lemma deco_get_montserrat (w : World) (images : string -> option Picture) (size : Z)
      (weight : string) :
  related same_content (get_montserrat w size weight)
          (get_montserrat (with_images w images) size weight) eq same_content.
Proof.
  intros st1 st2 H. unfold get_montserrat, PIL.truetype, FONTS_DIR, with_images.
  cbn [base_dir path_exists font_loadable].
  destruct (path_exists w _); destruct (size <=? 0); try (split; [reflexivity|exact H]);
    destruct (font_loadable w _); split; try reflexivity; exact H.
Qed.

Lemma deco_get_merriweather (w : World) (images : string -> option Picture) (size : Z)
      (italic : bool) :
  related same_content (get_merriweather w size italic)
          (get_merriweather (with_images w images) size italic) eq same_content.
Proof.
  intros st1 st2 H. unfold get_merriweather, PIL.truetype, FONTS_DIR, with_images.
  cbn [base_dir path_exists font_loadable].
  destruct (path_exists w _); destruct (size <=? 0); try (split; [reflexivity|exact H]);
    destruct (font_loadable w _); split; try reflexivity; exact H.
Qed.

(** Opening, resizing and pasting an image under a [try] whose handler
    prints a warning. *)
Lemma ornament_paste_block (w : World) (path : string) (size : Z * Z)
      (g : Picture -> Picture) (pos : Point) (warn : exn -> Printed) :
  (forall e, is_warning (warn e) = true) ->
  ornament (try_except
              (bind (PIL.Image_open w path)
                    (fun pic => bind (PIL.resize pic size)
                                     (fun pic' => PIL.paste (g pic') pos)))
              (fun e => print (warn e))).
Proof.
  intros Hwarn st.
  unfold try_except, bind, PIL.Image_open, PIL.resize, PIL.paste, emit, print, raise, ret,
    same_content.
  destruct (image_open w path) as [pic|];
    [destruct (_ || _)|];
    cbn [fst snd img stdout c_ops];
    rewrite ?content_snoc, ?messages_snoc, ?Hwarn; cbn [is_paste];
    rewrite ?app_nil_r; auto.
Qed.

Lemma ornament_ret : ornament (ret tt).
Proof. intros st. split; [reflexivity|apply same_content_refl]. Qed.

Lemma ornament_if (c : bool) (m1 m2 : M unit) :
  ornament m1 -> ornament m2 -> ornament (if c then m1 else m2).
Proof. now destruct c. Qed.

(** Two ornaments, one in each run, keep the runs in step. *)
Lemma related_ornaments (m1 m2 : M unit) :
  ornament m1 -> ornament m2 -> related same_content m1 m2 any same_content.
Proof.
  intros H1 H2 st1 st2 [Hc Hm].
  destruct (H1 st1) as [Hr1 [Hc1 Hm1]]. destruct (H2 st2) as [Hr2 [Hc2 Hm2]].
  rewrite Hr1, Hr2. split; [exact I|]. split; congruence.
Qed.

Ltac decoration :=
  apply related_ornaments;
  repeat lazymatch goal with
    | |- ornament (if _ then _ else _) => apply ornament_if
    | |- ornament (ret tt) => apply ornament_ret
    | |- ornament (try_except _ _) => apply ornament_paste_block; reflexivity
    end.

Ltac deco_steps :=
  lazymatch goal with
  | |- related _ (bind (get_montserrat _ _ _) _) (bind (get_montserrat _ _ _) _) _ _ =>
      eapply related_bind;
      [apply deco_get_montserrat|intros ? ? <-; deco_steps|auto]
  | |- related _ (bind (get_merriweather _ _ _) _) (bind (get_merriweather _ _ _) _) _ _ =>
      eapply related_bind;
      [apply deco_get_merriweather|intros ? ? <-; deco_steps|auto]
  | |- related _ (bind (if _ then _ else _) _) (bind (if _ then _ else _) _) _ _ =>
      apply deco_step; [decoration|deco_steps]
  | |- related _ (bind (try_except _ _) _) (bind (try_except _ _) _) _ _ =>
      apply deco_step; [decoration|deco_steps]
  | |- related _ (bind (emit _) _) (bind (emit _) _) _ _ =>
      apply deco_step; [apply deco_emit|deco_steps]
  | |- related _ (bind (draw_icon _ _ _ _ _) _) (bind (draw_icon _ _ _ _ _) _) _ _ =>
      apply deco_step; [apply deco_draw_icon|deco_steps]
  | |- related _ (bind (draw_text_lines _ _ _ _ _ _) _)
               (bind (draw_text_lines _ _ _ _ _ _) _) _ _ =>
      apply deco_step; [apply deco_draw_text_lines|deco_steps]
  | |- related _ (emit _) (emit _) _ _ => apply deco_emit
  | |- related _ (draw_text_lines _ _ _ _ _ _) (draw_text_lines _ _ _ _ _ _) _ _ =>
      apply deco_draw_text_lines
  end.

Section Decoration.

Variable w : World.
Variable images : string -> option Picture.
Variables title date time location : string.
Variables path1 path2 : option string.

Lemma ppt_layout_decoration (width height scale : Z) :
  related same_content
    (create_ppt_layout w title date time location path1 width height scale)
    (create_ppt_layout (with_images w images) title date time location path2
                       width height scale)
    any same_content.
Proof. unfold create_ppt_layout. cbv zeta. deco_steps. Qed.

Lemma ig_story_layout_decoration (width height : Z) :
  related same_content
    (create_ig_story_layout w title date time location path1 width height)
    (create_ig_story_layout (with_images w images) title date time location path2
                            width height)
    any same_content.
Proof. unfold create_ig_story_layout. cbv zeta. deco_steps. Qed.

Lemma ig_post_layout_decoration (width height : Z) :
  related same_content
    (create_ig_post_layout w title date time location path1 width height)
    (create_ig_post_layout (with_images w images) title date time location path2
                           width height)
    any same_content.
Proof. unfold create_ig_post_layout. cbv zeta. deco_steps. Qed.

Lemma fb_post_layout_decoration (width height : Z) :
  related same_content
    (create_fb_post_layout w title date time location path1 width height)
    (create_fb_post_layout (with_images w images) title date time location path2
                           width height)
    any same_content.
Proof. unfold create_fb_post_layout. cbv zeta. deco_steps. Qed.

End Decoration.

Lemma deco_Image_new (width height : Z) (color : Color) :
  related same_content (PIL.Image_new width height color)
          (PIL.Image_new width height color) any same_content.
Proof.
  intros st1 st2 [Hc Hm]. unfold PIL.Image_new.
  destruct (_ || _); cbn [fst snd]; split; try reflexivity; split; auto.
Qed.

Lemma deco_saving (w : World) (images : string -> option Picture)
      (output_path : option string) (width height : Z) :
  related same_content
    (bind (if truthy output_path
           then bind (save_png w (path_of output_path))
                     (fun _ => print (Saved (path_of output_path) width height))
           else ret tt)
          (fun _ => current_image))
    (bind (if truthy output_path
           then bind (save_png (with_images w images) (path_of output_path))
                     (fun _ => print (Saved (path_of output_path) width height))
           else ret tt)
          (fun _ => current_image))
    any same_content.
Proof.
  intros st1 st2 [Hc Hm].
  unfold bind, save_png, print, current_image, ret, with_images, same_content.
  cbn [can_save failed_save].
  destruct (truthy output_path);
    [destruct (has_dirname (path_of output_path));
     [destruct (can_save w (path_of output_path))|]|];
    cbn [negb fst snd img stdout]; split; try reflexivity; split;
    rewrite ?messages_snoc; congruence.
Qed.

Lemma render_decoration (w : World) (images : string -> option Picture)
      (title date time location : string) (path1 path2 : option string) (f : string)
      (output_path : option string) (scale : Z) :
  related same_content
    (create_event_graphic w title date time location path1 f output_path scale)
    (create_event_graphic (with_images w images) title date time location path2 f
                          output_path scale)
    any same_content.
Proof.
  unfold create_event_graphic.
  destruct (match dict_get FORMATS f with Some dims => dims | None => (1024, 768) end)
    as [base_width base_height].
  apply related_bind with (RA := any) (Q := same_content);
    [apply deco_Image_new| |auto].
  intros _ _ _.
  apply related_bind with (RA := any) (Q := same_content); [| |auto].
  - destruct (String.eqb f "instagram_story"); [apply ig_story_layout_decoration|].
    destruct (String.eqb f "instagram_post"); [apply ig_post_layout_decoration|].
    destruct (String.eqb f "facebook_post"); [apply fb_post_layout_decoration|].
    apply ppt_layout_decoration.
  - intros _ _ _. apply deco_saving.
Qed.

(** X17. The illustration and the logo are decoration and nothing more.
    Take any render, and the same render with another illustration path (or
    none) on a host whose image files hold other pictures or cannot be
    read.  The two end the same way (both return, or both raise the
    same exception), they make the same drawing calls in the same order
    apart from pastes, and they print the same lines apart from the
    warnings about an image. *)
Theorem decoration_never_decides (w : World) (images : string -> option Picture)
        (title date time location : string) (path1 path2 : option string) (f : string)
        (output_path : option string) (scale : Z) (st : State) :
  let r1 := create_event_graphic w title date time location path1 f output_path scale st in
  let r2 := create_event_graphic (with_images w images) title date time location path2 f
                                 output_path scale st in
  same_fate (fst r1) (fst r2)
  /\ content (c_ops (img (snd r1))) = content (c_ops (img (snd r2)))
  /\ messages (stdout (snd r1)) = messages (stdout (snd r2)).
Proof.
  cbv zeta.
  destruct (@render_decoration w images title date time location path1 path2 f
              output_path scale st st (same_content_refl st)) as [Hfate [Hc Hm]].
  split; [exact Hfate|]. split; assumption.
Qed.
